(** * BibleVersionCodesConverter: load, validate and re-index a catalogue

    A shallow embedding of [Python/BibleVersionCodesConverter.py]: the
    converter object, its logging, the loader ([loadAndValidate], [__load],
    [__validate]) and the indexer ([importDataToPython] with its local
    helper [addToAllCodesDict]), followed by the properties of the
    load-validate-reindex pipeline. *)

From stdpp Require Import base option list sorting gmap strings.

(** ** Python values *)

(** [Element.text], [Element.tail] and [Element.get] return either [None] or
    a [str].  Characters are taken as code points below 256. *)
Abbreviation PyStr := (option string).

(** Python truthiness of such a value: [None] and [''] are false. *)
Definition truthy (v : PyStr) : bool :=
  match v with
  | Some (String _ _) => true
  | _ => false
  end.

(** [str.isspace] on one character (code points below 256). *)
Definition isspace (c : Ascii.ascii) : bool :=
  let n := Ascii.nat_of_ascii c in
  ((9 <=? n) && (n <=? 13)) || ((28 <=? n) && (n <=? 32))
  || (n =? 133) || (n =? 160).

Fixpoint lstrip (s : string) : string :=
  match s with
  | String c s' => if isspace c then lstrip s' else s
  | EmptyString => EmptyString
  end.

(** [str.strip()] without argument. *)
Definition strip (s : string) : string :=
  String.rev (lstrip (String.rev (lstrip s))).

(** The test [x is not None and x.strip()] used on tails. *)
Definition has_stray_text (v : PyStr) : option string :=
  match v with
  | Some s => if truthy (Some (strip s)) then Some s else None
  | None => None
  end.

Inductive Exception : Type :=
  | AssertionError
  | AttributeError
  | IndexError
  | TypeError
  | NameError.

Global Instance Exception_eq_dec : EqDecision Exception.
Proof. solve_decision. Defined.

(** ** xml.etree.ElementTree elements *)

Module ET.

Inductive Element : Type :=
  mkElement {
    tag : string;
    attrib : list (string * string);
    text : PyStr;
    tail : PyStr;
    children : list Element
  }.

(** [len(element)]: the number of direct children. *)
Definition len (element : Element) : nat := length (children element).

(** [bool(element)]: an element without children is false. *)
Definition bool (element : Element) : Datatypes.bool := negb (len element =? 0).

(** [element.find(name)] for a plain tag name: the first direct child
    carrying that tag, or [None]. *)
Definition find (element : Element) (name : string) : option Element :=
  List.find (fun child => bool_decide (tag child = name)) (children element).

(** [element.get(name)]: the value of an attribute, or [None]. *)
Definition get (element : Element) (name : string) : PyStr :=
  snd <$> List.find (fun kv => bool_decide (fst kv = name)) (attrib element).

(** [element.keys()]: the attribute names. *)
Definition keys (element : Element) : list string := fst <$> attrib element.

(** [element.remove(child)] where [child] is the child object found at
    position [i] (removal is by object identity). *)
Definition remove (element : Element) (i : nat) : Element :=
  mkElement (tag element) (attrib element) (text element) (tail element)
            (delete i (children element)).

End ET.

Abbreviation Element := ET.Element.

(** [x.find(name).text]: an [AttributeError] when the child is missing. *)
Definition find_text (element : Element) (name : string) : Exception + PyStr :=
  match ET.find element name with
  | Some found => inr (ET.text found)
  | None => inl AttributeError
  end.

(** ** Logging *)

Inductive Level : Type := INFO | WARNING | ERROR.

Global Instance Level_eq_dec : EqDecision Level.
Proof. solve_decision. Defined.

(** One constructor per message template of the module, carrying the values
    that are formatted into it, in the order of the [format] call. *)
Inductive Message : Type :=
  | AlreadyLoaded (XMLFileOrFilepath : string)
  | UnexpectedElementsInHeader
  | MissingWorkElementInHeader
  | MissingHeaderElement (headerTag : string)
  | UnexpectedTailAfterHeader (tail : string)
  | ExpectedToLoad (treeTag gotTag : string)
  | CompulsoryAttributeMissing (attributeName elementTag : string) (j : nat)
  | CompulsoryAttributeBlank (attributeName elementTag : string) (j : nat)
  | OptionalAttributeBlank (attributeName elementTag : string) (j : nat)
  | AdditionalAttribute (attributeName : string) (attributeValue : PyStr)
                        (elementTag : string) (j : nat)
  | AttributeRepeated (attributeValue : PyStr) (attributeName elementTag : string)
                      (j : nat)
  | CompulsoryElementMissing (elementName : string) (ID : PyStr) (j : nat)
  | CompulsoryElementBlank (elementName : string) (ID : PyStr) (j : nat)
  | OptionalElementBlank (elementName : string) (ID : PyStr) (j : nat)
  | AdditionalElement (subelementTag : string) (subelementText : PyStr)
                      (ID : PyStr) (j : nat)
  | ElementRepeated (text : PyStr) (elementName : string) (ID : PyStr) (j : nat)
  | UnexpectedElement (elementTag : string) (j : nat)
  | UnexpectedTailAfterElement (tail elementTag : string) (j : nat)
  | UnexpectedTailAfterTree (tail treeTag : string)
  | AlreadyAssigned (abbrevType : string) (givenUCAbbreviation : PyStr)
                    (referenceAbbreviation existing : PyStr).

Global Instance Message_eq_dec : EqDecision Message.
Proof. solve_decision. Defined.

(** A record of the log: a [logging] call of this module, or a report of one
    of the [BibleOrgSysGlobals.checkXML...] helpers. *)
Inductive LogRecord : Type :=
  | Log (level : Level) (message : Message)
  | XMLCheck (report : string).

Global Instance LogRecord_eq_dec : EqDecision LogRecord.
Proof. solve_decision. Defined.

(** ** Effects: a log that is written, and exceptions *)

(** A computation that logs and then returns or raises; what was logged
    before an exception stays logged. *)
Definition W (A : Type) : Type := (list LogRecord * (Exception + A))%type.

Global Instance W_ret : MRet W := λ A a, ([], inr a).
Global Instance W_bind : MBind W := λ A B f m,
  match m.2 with
  | inl e => (m.1, inl e)
  | inr a => let r := f a in (m.1 ++ r.1, r.2)
  end.

Definition raise {A} (e : Exception) : W A := ([], inl e).
Definition logging (level : Level) (message : Message) : W unit :=
  ([Log level message], inr ()).
Definition report (reports : list string) : W unit :=
  (XMLCheck <$> reports, inr ()).
Definition emit (records : list LogRecord) : W unit := (records, inr ()).
Definition assert (b : bool) : W unit :=
  if b then mret () else raise AssertionError.
Definition try {A} (r : Exception + A) : W A := ([], r).

(** [for x in xs: acc = body x acc], stopping at the first exception. *)
Fixpoint for_each {A S} (xs : list A) (body : A → S → W S) (acc : S) : W S :=
  match xs with
  | [] => mret acc
  | x :: xs' => acc' ← body x acc; for_each xs' body acc'
  end.

(** ** The converter object *)

(** A dict built by [importDataToPython] for one catalogue record: the
    field names that are present, with their values. *)
Abbreviation Entry := (gmap string PyStr).

(** The dict [__DataSets] once it is filled: seven fixed keys. *)
Record DataSets : Type :=
  mkDataSets {
    AbbreviationsList : list PyStr;
    AbbreviationsDict : gmap PyStr Entry;
    NamesDict : gmap PyStr (list Entry);
    LanguageDict : gmap PyStr (list Entry);
    PublisherDict : gmap PyStr (list Entry);
    LicenceDict : gmap PyStr (list Entry);
    WebLinkDict : gmap PyStr (list Entry)
  }.

(** The attributes of the instance that change after [__init__].  An option
    at [__XMLFileOrFilepath] says whether the attribute exists yet; [None] at
    [__DataSets] is the empty dict it starts as. *)
Record Converter : Type :=
  mkConverter {
    _XMLTree : option Element;
    __XMLFileOrFilepath : option string;
    XMLheader : option Element;
    __DataSets : option DataSets;
    titleString : PyStr;
    PROGRAM_VERSION : PyStr;
    dateString : PyStr
  }.

(** The attributes set once in [__init__] and only read afterwards. *)
Definition _filenameBase : string := "BibleVersionCodes".
Definition _treeTag : string := "BibleVersionCodes".
Definition _headerTag : string := "header".
Definition _mainElementTag : string := "BibleVersionCodes".
Definition _compulsoryAttributes : list string := [].
Definition _optionalAttributes : list string := [].
Definition _uniqueAttributes : list string :=
  _compulsoryAttributes ++ _optionalAttributes.
Definition _compulsoryElements : list string :=
  ["mainAbbreviation"; "versionName"; "languageCode"].
Definition _optionalElements : list string :=
  ["publisherName"; "licence"; "webLink"].
Definition _uniqueElements : list string := ["mainAbbreviation"; "webLink"].

(** The instance as [__init__] leaves it. *)
Definition __init__ : Converter :=
  mkConverter None None None None (Some "") (Some "") (Some "").

Definition set__XMLTree (tree : Element) (self : Converter) : Converter :=
  mkConverter (Some tree) (__XMLFileOrFilepath self) (XMLheader self)
              (__DataSets self) (titleString self) (PROGRAM_VERSION self)
              (dateString self).
Definition set___XMLFileOrFilepath (path : string) (self : Converter) : Converter :=
  mkConverter (_XMLTree self) (Some path) (XMLheader self)
              (__DataSets self) (titleString self) (PROGRAM_VERSION self)
              (dateString self).
Definition set_XMLheader (header : Element) (self : Converter) : Converter :=
  mkConverter (_XMLTree self) (__XMLFileOrFilepath self) (Some header)
              (__DataSets self) (titleString self) (PROGRAM_VERSION self)
              (dateString self).
Definition set___DataSets (datasets : DataSets) (self : Converter) : Converter :=
  mkConverter (_XMLTree self) (__XMLFileOrFilepath self) (XMLheader self)
              (Some datasets) (titleString self) (PROGRAM_VERSION self)
              (dateString self).
Definition set_titleString (v : PyStr) (self : Converter) : Converter :=
  mkConverter (_XMLTree self) (__XMLFileOrFilepath self) (XMLheader self)
              (__DataSets self) v (PROGRAM_VERSION self) (dateString self).
Definition set_PROGRAM_VERSION (v : PyStr) (self : Converter) : Converter :=
  mkConverter (_XMLTree self) (__XMLFileOrFilepath self) (XMLheader self)
              (__DataSets self) (titleString self) v (dateString self).
Definition set_dateString (v : PyStr) (self : Converter) : Converter :=
  mkConverter (_XMLTree self) (__XMLFileOrFilepath self) (XMLheader self)
              (__DataSets self) (titleString self) (PROGRAM_VERSION self) v.

(** A method: it may change the instance, log, and return or raise.  The
    instance keeps the changes made before an exception. *)
Definition M (A : Type) : Type := Converter → Converter * W A.

Global Instance M_ret : MRet M := λ A a self, (self, mret a).
Global Instance M_bind : MBind M := λ A B f m self,
  let r1 := m self in
  match r1.2.2 with
  | inl e => (r1.1, (r1.2.1, inl e))
  | inr a => let r2 := f a r1.1 in (r2.1, (r1.2.1 ++ r2.2.1, r2.2.2))
  end.

Definition lift {A} (w : W A) : M A := λ self, (self, w).
Definition read {A} (field : Converter → A) : M A := λ self, (self, mret (field self)).
Definition update (f : Converter → Converter) : M unit := λ self, (f self, mret ()).

(** The instance, the log and the result of running a method. *)
Definition final {A} (r : Converter * W A) : Converter := r.1.
Definition logged {A} (r : Converter * W A) : list LogRecord := r.2.1.
Definition result {A} (r : Converter * W A) : Exception + A := r.2.2.

(** [os.path.join('../sourceXML', self._filenameBase + '.xml')]. *)
Definition default_filepath : string :=
  "../sourceXML" +:+ "/" +:+ (_filenameBase +:+ ".xml").

(** The dict of the values seen so far in each field declared unique. *)
Abbreviation UniqueDict := (gmap string (list PyStr)).

Definition is_empty {A} (l : list A) : bool :=
  match l with [] => true | _ => false end.

Section Loader.

(** What the module takes from outside: the XML reader, which gives the
    root element of a source, the strictness flag and the four checks of
    [BibleOrgSysGlobals], which return the reports they log for an element
    and a location string. *)
Variable parse : string → Element.
Variable strictCheckingFlag : bool.
Variable checkXMLNoText : Element → string → list string.
Variable checkXMLNoTail : Element → string → list string.
Variable checkXMLNoAttributes : Element → string → list string.
Variable checkXMLNoSubelements : Element → string → list string.

(** The three checks made on the header and on its work element. *)
Definition check_bare (element : Element) (location : string) : list LogRecord :=
  XMLCheck <$> (checkXMLNoText element location
                ++ checkXMLNoTail element location
                ++ checkXMLNoAttributes element location).

(** The three checks made on a field element that was found. *)
Definition check_leaf (foundElement : Element) (location : string)
    : list LogRecord :=
  XMLCheck <$> (checkXMLNoTail foundElement location
                ++ checkXMLNoAttributes foundElement location
                ++ checkXMLNoSubelements foundElement location).

(** *** [__load] *)

(** The body under [if header.tag == self._headerTag], after the header
    was taken out of the tree. *)
Definition load_header (header : Element) : M unit :=
  lift (emit (check_bare header "header"));;
  if 1 <? ET.len header then
    lift (logging INFO UnexpectedElementsInHeader)
  else if ET.len header =? 0 then
    lift (logging INFO MissingWorkElementInHeader)
  else
    match ET.children header with
    | [] => lift (raise IndexError)
    | work :: _ =>
        lift (emit (check_bare work "work in header"));;
        if bool_decide (ET.tag work = "work") then
          version ← lift (try (find_text work "version"));
          update (set_PROGRAM_VERSION version);;
          date ← lift (try (find_text work "date"));
          update (set_dateString date);;
          title ← lift (try (find_text work "title"));
          update (set_titleString title)
        else
          lift (logging WARNING MissingWorkElementInHeader)
    end.

Definition __load (XMLFileOrFilepath : string) : M unit :=
  lift (assert (negb (bool_decide (XMLFileOrFilepath = ""))));;
  update (set___XMLFileOrFilepath XMLFileOrFilepath);;
  tree ← read _XMLTree;
  lift (assert (match tree with None => true | Some t => ET.len t =? 0 end));;
  let root := parse XMLFileOrFilepath in
  update (set__XMLTree root);;
  lift (assert (ET.bool root));;
  if bool_decide (ET.tag root = _treeTag) then
    match ET.children root with
    | [] => lift (raise IndexError)
    | header :: _ =>
        (if bool_decide (ET.tag header = _headerTag) then
           update (set_XMLheader header);;
           update (set__XMLTree (ET.remove root 0));;
           load_header header
         else
           lift (logging WARNING (MissingHeaderElement _headerTag)));;
        match has_stray_text (ET.tail header) with
        | Some tail => lift (logging ERROR (UnexpectedTailAfterHeader tail))
        | None => mret ()
        end
    end
  else
    lift (logging ERROR (ExpectedToLoad _treeTag (ET.tag root))).

(** *** [__validate] *)

(** Check compulsory attributes on this main element. *)
Definition check_compulsory_attributes (element : Element) (j : nat)
    : list LogRecord :=
  attributeName ← _compulsoryAttributes;
  let attributeValue := ET.get element attributeName in
  (if attributeValue is None
   then [Log ERROR (CompulsoryAttributeMissing attributeName (ET.tag element) j)]
   else [])
  ++ (if truthy attributeValue then []
      else [Log WARNING (CompulsoryAttributeBlank attributeName (ET.tag element) j)]).

(** Check optional attributes on this main element. *)
Definition check_optional_attributes (element : Element) (j : nat)
    : list LogRecord :=
  attributeName ← _optionalAttributes;
  let attributeValue := ET.get element attributeName in
  if attributeValue is None then []
  else if truthy attributeValue then []
       else [Log WARNING (OptionalAttributeBlank attributeName (ET.tag element) j)].

(** Check for unexpected additional attributes on this main element. *)
Definition check_additional_attributes (element : Element) (j : nat)
    : list LogRecord :=
  attributeName ← ET.keys element;
  let attributeValue := ET.get element attributeName in
  if bool_decide (attributeName ∉ _compulsoryAttributes)
     && bool_decide (attributeName ∉ _optionalAttributes)
  then [Log WARNING (AdditionalAttribute attributeName attributeValue
                                         (ET.tag element) j)]
  else [].

(** Check the attributes that must contain unique information. *)
Definition check_unique_attributes (element : Element) (j : nat)
    (uniqueDict : UniqueDict) : list LogRecord * UniqueDict :=
  foldl (λ '(log, uniqueDict) attributeName,
           let attributeValue := ET.get element attributeName in
           if attributeValue is None then (log, uniqueDict)
           else
             let seen := uniqueDict !!! ("Attribute_" +:+ attributeName) in
             (log ++ (if bool_decide (attributeValue ∈ seen)
                      then [Log ERROR (AttributeRepeated attributeValue
                                         attributeName (ET.tag element) j)]
                      else []),
              <["Attribute_" +:+ attributeName := seen ++ [attributeValue]]>
                uniqueDict))
        ([], uniqueDict) _uniqueAttributes.

(** Check compulsory elements. *)
Definition check_compulsory_elements (element : Element) (ID : PyStr) (j : nat)
    : list LogRecord :=
  elementName ← _compulsoryElements;
  match ET.find element elementName with
  | None => [Log ERROR (CompulsoryElementMissing elementName ID j)]
  | Some foundElement =>
      check_leaf foundElement (ET.tag foundElement +:+ " in " +:+ ET.tag element)
      ++ (if truthy (ET.text foundElement) then []
          else [Log WARNING (CompulsoryElementBlank elementName ID j)])
  end.

(** Check optional elements. *)
Definition check_optional_elements (element : Element) (ID : PyStr) (j : nat)
    : list LogRecord :=
  elementName ← _optionalElements;
  match ET.find element elementName with
  | None => []
  | Some foundElement =>
      check_leaf foundElement (ET.tag foundElement +:+ " in " +:+ ET.tag element)
      ++ (if truthy (ET.text foundElement) then []
          else [Log WARNING (OptionalElementBlank elementName ID j)])
  end.

(** Check for unexpected additional elements. *)
Definition check_additional_elements (element : Element) (ID : PyStr) (j : nat)
    : list LogRecord :=
  subelement ← ET.children element;
  if bool_decide (ET.tag subelement ∉ _compulsoryElements)
     && bool_decide (ET.tag subelement ∉ _optionalElements)
  then [Log WARNING (AdditionalElement (ET.tag subelement) (ET.text subelement)
                                       ID j)]
  else [].

(** Check the elements that must contain unique information: one step of
    the loop over [_uniqueElements]. *)
Definition check_unique_element (element : Element) (ID : PyStr) (j : nat)
    (acc : list LogRecord * UniqueDict) (elementName : string)
    : list LogRecord * UniqueDict :=
  match ET.find element elementName with
  | None => acc
  | Some foundElement =>
      let text := ET.text foundElement in
      let seen := acc.2 !!! ("Element_" +:+ elementName) in
      (acc.1 ++ (if bool_decide (text ∈ seen)
                 then [Log ERROR (ElementRepeated text elementName ID j)]
                 else []),
       <["Element_" +:+ elementName := seen ++ [text]]> acc.2)
  end.

Definition check_unique_elements (element : Element) (ID : PyStr) (j : nat)
    (uniqueDict : UniqueDict) : list LogRecord * UniqueDict :=
  foldl (check_unique_element element ID j) ([], uniqueDict) _uniqueElements.

Definition tail_after_element (element : Element) (j : nat) : list LogRecord :=
  match has_stray_text (ET.tail element) with
  | Some tail => [Log ERROR (UnexpectedTailAfterElement tail (ET.tag element) j)]
  | None => []
  end.

(** The body under [if element.tag == self._mainElementTag]. *)
Definition validate_main_element (element : Element) (j : nat)
    (uniqueDict : UniqueDict) : W UniqueDict :=
  report (checkXMLNoText element (ET.tag element));;
  report (checkXMLNoTail element (ET.tag element));;
  (if is_empty _compulsoryAttributes && is_empty _optionalAttributes
   then report (checkXMLNoAttributes element (ET.tag element))
   else mret ());;
  (if is_empty _compulsoryElements && is_empty _optionalElements
   then report (checkXMLNoSubelements element (ET.tag element))
   else mret ());;
  emit (check_compulsory_attributes element j);;
  emit (check_optional_attributes element j);;
  emit (check_additional_attributes element j);;
  let attributes := check_unique_attributes element j uniqueDict in
  emit attributes.1;;
  ID ← try (find_text element "referenceAbbreviation");
  emit (check_compulsory_elements element ID j);;
  emit (check_optional_elements element ID j);;
  emit (check_additional_elements element ID j);;
  let elements := check_unique_elements element ID j attributes.2 in
  emit elements.1;;
  mret elements.2.

(** One turn of [for j,element in enumerate(self._XMLTree)]. *)
Definition validate_element (element : Element) (j : nat)
    (uniqueDict : UniqueDict) : W UniqueDict :=
  uniqueDict' ←
    (if bool_decide (ET.tag element = _mainElementTag)
     then validate_main_element element j uniqueDict
     else logging WARNING (UnexpectedElement (ET.tag element) j);;
          mret uniqueDict);
  emit (tail_after_element element j);;
  mret uniqueDict'.

Fixpoint validate_elements (j : nat) (elements : list Element)
    (uniqueDict : UniqueDict) : W UniqueDict :=
  match elements with
  | [] => mret uniqueDict
  | element :: rest =>
      uniqueDict' ← validate_element element j uniqueDict;
      validate_elements (S j) rest uniqueDict'
  end.

(** The dict of empty lists made at the start of [__validate]. *)
Definition initial_uniqueDict : UniqueDict :=
  foldl (λ uniqueDict attributeName,
           <["Attribute_" +:+ attributeName := []]> uniqueDict)
        (foldl (λ uniqueDict elementName,
                  <["Element_" +:+ elementName := []]> uniqueDict)
               ∅ _uniqueElements)
        _uniqueAttributes.

Definition validate_tree (tree : Element) : W unit :=
  validate_elements 0 (ET.children tree) initial_uniqueDict;;
  match has_stray_text (ET.tail tree) with
  | Some tail => logging ERROR (UnexpectedTailAfterTree tail (ET.tag tree))
  | None => mret ()
  end.

Definition __validate : M unit :=
  tree ← read _XMLTree;
  match tree with
  | Some tree => lift (assert (ET.bool tree);; validate_tree tree)
  | None => lift (raise AssertionError)
  end.

(** *** [loadAndValidate] *)

Definition loadAndValidate (XMLFileOrFilepath : option string) : M unit :=
  tree ← read _XMLTree;
  match tree with
  | None =>
      let XMLFileOrFilepath := default default_filepath XMLFileOrFilepath in
      __load XMLFileOrFilepath;;
      if strictCheckingFlag then __validate else mret ()
  | Some _ =>
      match XMLFileOrFilepath with
      | None => mret ()
      | Some given =>
          loaded ← read __XMLFileOrFilepath;
          match loaded with
          | None => lift (raise AttributeError)
          | Some loaded =>
              if bool_decide (given ≠ loaded)
              then lift (logging ERROR (AlreadyLoaded given))
              else mret ()
          end
      end
  end.

End Loader.

(** ** The indexer: [importDataToPython] *)

(** The local containers of [importDataToPython]. *)
Record Tables : Type :=
  mkTables {
    myAbbrevList : list PyStr;
    myAbbrevDict : gmap PyStr Entry;
    myNameDict : gmap PyStr (list Entry);
    myLanguageDict : gmap PyStr (list Entry);
    myPublisherDict : gmap PyStr (list Entry);
    myLicenseDict : gmap PyStr (list Entry);
    myWebLinkDict : gmap PyStr (list Entry)
  }.

Definition empty_tables : Tables := mkTables [] ∅ ∅ ∅ ∅ ∅ ∅.

(** The six values taken out of one element. *)
Record Fields : Type :=
  mkFields {
    mainAbbreviation : PyStr;
    versionName : PyStr;
    languageCode : PyStr;
    publisherName : PyStr;
    licence : PyStr;
    webLink : PyStr
  }.

(** [None if element.find(name) is None else element.find(name).text]. *)
Definition optional_text (element : Element) (name : string) : PyStr :=
  match ET.find element name with
  | None => None
  | Some found => ET.text found
  end.

(** Get the required information out of the tree for this element. *)
Definition get_fields (element : Element) : W Fields :=
  mainAbbreviation ← try (find_text element "mainAbbreviation");
  versionName ← try (find_text element "versionName");
  languageCode ← try (find_text element "languageCode");
  let publisherName := optional_text element "publisherName" in
  let licence := optional_text element "licence" in
  let webLink := optional_text element "webLink" in
  mret (mkFields mainAbbreviation versionName languageCode
                 publisherName licence webLink).

(** [if value: entry[key] = value]. *)
Definition add_if (key : string) (value : PyStr) (entry : Entry) : Entry :=
  if truthy value then <[key := value]> entry else entry.

(** [d[key].append(entry)] on a [defaultdict(list)]. *)
Definition append_to (key : PyStr) (entry : Entry) (d : gmap PyStr (list Entry))
    : gmap PyStr (list Entry) :=
  <[key := d !!! key ++ [entry]]> d.

(** The five entries built for one element. *)
Definition abbrev_entry (f : Fields) : Entry :=
  add_if "webLink" (webLink f)
    (add_if "licence" (licence f)
       (add_if "publisherName" (publisherName f)
          (<["languageCode" := languageCode f]>
             {["versionName" := versionName f]}))).

Definition name_entry (f : Fields) : Entry :=
  add_if "webLink" (webLink f)
    (add_if "licence" (licence f)
       (add_if "publisherName" (publisherName f)
          (<["languageCode" := languageCode f]>
             {["mainAbbreviation" := mainAbbreviation f]}))).

Definition language_entry (f : Fields) : Entry :=
  add_if "webLink" (webLink f)
    (add_if "licence" (licence f)
       (add_if "publisherName" (publisherName f)
          (<["versionName" := versionName f]>
             {["mainAbbreviation" := mainAbbreviation f]}))).

Definition full_entry (f : Fields) : Entry :=
  <["languageCode" := languageCode f]>
    (<["versionName" := versionName f]>
       {["mainAbbreviation" := mainAbbreviation f]}).

Definition publisher_entry (f : Fields) : Entry :=
  add_if "webLink" (webLink f) (add_if "licence" (licence f) (full_entry f)).

Definition licence_entry (f : Fields) : Entry :=
  add_if "webLink" (webLink f)
    (add_if "publisherName" (publisherName f) (full_entry f)).

Definition webLink_entry (f : Fields) : Entry :=
  add_if "licence" (licence f)
    (add_if "publisherName" (publisherName f) (full_entry f)).

(** Now put it into my dictionaries for easy access. *)
Definition put_fields (f : Fields) (t : Tables) : Tables :=
  mkTables
    (myAbbrevList t ++ [mainAbbreviation f])
    (<[mainAbbreviation f := abbrev_entry f]> (myAbbrevDict t))
    (append_to (versionName f) (name_entry f) (myNameDict t))
    (append_to (languageCode f) (language_entry f) (myLanguageDict t))
    (if truthy (publisherName f)
     then append_to (publisherName f) (publisher_entry f) (myPublisherDict t)
     else myPublisherDict t)
    (if truthy (licence f)
     then append_to (licence f) (licence_entry f) (myLicenseDict t)
     else myLicenseDict t)
    (if truthy (webLink f)
     then append_to (webLink f) (webLink_entry f) (myWebLinkDict t)
     else myWebLinkDict t).

(** One turn of [for element in self._XMLTree]. *)
Definition import_element (element : Element) (t : Tables) : W Tables :=
  f ← get_fields element;
  mret (put_fields f t).

(** The order [sorted] uses on [str]: code points, lexicographically.  It is
    extended to [None] only to make it total; [sorted] below never compares
    a [None]. *)
Definition pystr_le (a b : PyStr) : Prop :=
  match a, b with
  | Some x, Some y => String.le x y
  | None, _ => True
  | Some _, None => False
  end.

Global Instance pystr_le_dec : RelDecision pystr_le.
Proof. intros [x|] [y|]; simpl; apply _. Defined.

(** [sorted(l)]: comparing [None] with anything raises [TypeError], and a
    list of two or more elements has each of them compared. *)
Definition sorted (l : list PyStr) : W (list PyStr) :=
  if (1 <? length l) && bool_decide (None ∈ l)
  then raise TypeError
  else mret (merge_sort pystr_le l).

Definition importDataToPython : M DataSets :=
  tree ← read _XMLTree;
  match tree with
  | None => lift (raise AssertionError)
  | Some tree =>
      lift (assert (ET.bool tree));;
      cached ← read __DataSets;
      match cached with
      | Some datasets => mret datasets
      | None =>
          t ← lift (for_each (ET.children tree) import_element empty_tables);
          abbreviations ← lift (sorted (myAbbrevList t));
          let datasets :=
            mkDataSets abbreviations (myAbbrevDict t) (myNameDict t)
                       (myLanguageDict t) (myPublisherDict t)
                       (myLicenseDict t) (myWebLinkDict t) in
          update (set___DataSets datasets);;
          mret datasets
      end
  end.

(** *** The local helper [addToAllCodesDict] *)

Section AllCodes.

(** The helper reads the name [referenceAbbreviation], which neither it nor
    [importDataToPython] binds: Python looks it up among the module's
    globals when the helper runs.  [None] here is the name unbound, which
    is how the module leaves it. *)
Variable referenceAbbreviation : option PyStr.

Definition addToAllCodesDict (givenUCAbbreviation : PyStr) (abbrevType : string)
    (initialAllAbbreviationsDict : gmap PyStr PyStr) : W (gmap PyStr PyStr) :=
  match referenceAbbreviation with
  | None => raise NameError
  | Some referenceAbbreviation =>
      match initialAllAbbreviationsDict !! givenUCAbbreviation with
      | Some existing =>
          if bool_decide (existing ≠ referenceAbbreviation) then
            logging WARNING (AlreadyAssigned abbrevType givenUCAbbreviation
                                             referenceAbbreviation existing);;
            mret (<[givenUCAbbreviation := Some "MultipleValues"]>
                    initialAllAbbreviationsDict)
          else
            mret (<[givenUCAbbreviation := referenceAbbreviation]>
                    initialAllAbbreviationsDict)
      | None =>
          mret (<[givenUCAbbreviation := referenceAbbreviation]>
                  initialAllAbbreviationsDict)
      end
  end.

End AllCodes.


(** ** Sample documents *)

Definition leaf (tag : string) (text : string) : Element :=
  ET.mkElement tag [] (Some text) None [].

Definition record_of (fields : list (string * string)) : Element :=
  ET.mkElement "BibleVersionCodes" [] None None
               ((λ kv, leaf kv.1 kv.2) <$> fields).

Definition sample_header : Element :=
  ET.mkElement "header" [] None None
    [ET.mkElement "work" [] None None
       [leaf "version" "0.01"; leaf "date" "2022-05-18";
        leaf "title" "Bible version codes"]].

Definition KJV : Element :=
  record_of [("mainAbbreviation", "KJV"); ("versionName", "King James Version");
             ("languageCode", "en"); ("licence", "Public Domain")].

Definition WEB : Element :=
  record_of [("mainAbbreviation", "WEB"); ("versionName", "World English Bible");
             ("languageCode", "en"); ("licence", "Public Domain")].

Definition document (children : list Element) : Element :=
  ET.mkElement "BibleVersionCodes" [] None None children.

Definition no_reports : Element → string → list string := λ _ _, [].

Definition load_sample (root : Element) (strict : bool) : Converter * W unit :=
  loadAndValidate (λ _, root) strict no_reports no_reports no_reports no_reports
                  None __init__.


(** ** Reading a log *)

(** The number of records of a log that a test selects. *)
Definition count_reports (p : LogRecord → bool) (log : list LogRecord) : nat :=
  length (List.filter p log).

(** The error that a compulsory element is missing, for one field and one
    record number, whatever the record ID it shows. *)
Definition reports_missing (elementName : string) (j : nat) (r : LogRecord) : bool :=
  match r with
  | Log ERROR (CompulsoryElementMissing n _ j') =>
      bool_decide (n = elementName ∧ j' = j)
  | _ => false
  end.

(** The error that a value is repeated in a unique element, for one field
    and one record number. *)
Definition reports_repeat (elementName : string) (j : nat) (r : LogRecord) : bool :=
  match r with
  | Log ERROR (ElementRepeated _ n _ j') => bool_decide (n = elementName ∧ j' = j)
  | _ => false
  end.


(** A record of the catalogue, as [__validate] recognises it. *)
Definition is_main (element : Element) : Prop := ET.tag element = _mainElementTag.

(** The record ID that [__validate] looks up can be found in every record. *)
Definition IDs_resolve (elements : list Element) : Prop :=
  Forall (λ element, is_main element →
                     is_Some (ET.find element "referenceAbbreviation")) elements.

(** The values that the records of a list carry in one field, in order. *)
Definition field_values (elementName : string) (elements : list Element)
    : list PyStr :=
  omap (λ element, if bool_decide (is_main element)
                   then ET.text <$> ET.find element elementName
                   else None) elements.

(** ** Reading an element for [importDataToPython] *)

(** The element has the three children that are read without a guard. *)
Definition has_compulsory (element : Element) : Prop :=
  is_Some (ET.find element "mainAbbreviation")
  ∧ is_Some (ET.find element "versionName")
  ∧ is_Some (ET.find element "languageCode").

Global Instance has_compulsory_dec element : Decision (has_compulsory element).
Proof. unfold has_compulsory. apply _. Defined.

(** The six values of an element that has them. *)
Definition fields_of (element : Element) : Fields :=
  mkFields (optional_text element "mainAbbreviation")
           (optional_text element "versionName")
           (optional_text element "languageCode")
           (optional_text element "publisherName")
           (optional_text element "licence")
           (optional_text element "webLink").

(** The tables after the loop over a list of records. *)
Definition tables_of (fs : list Fields) (t : Tables) : Tables :=
  foldl (λ t f, put_fields f t) t fs.

(** [sorted] has nothing to compare with [None]. *)
Definition sortable (l : list PyStr) : Prop := length l ≤ 1 ∨ None ∉ l.

(** The trees on which [importDataToPython] computes its tables. *)
Definition importable (tree : Element) : Prop :=
  ET.bool tree = true
  ∧ Forall has_compulsory (ET.children tree)
  ∧ sortable (mainAbbreviation ∘ fields_of <$> ET.children tree).

(** An optional value with a blank one read as a missing one. *)
Definition present (v : PyStr) : PyStr := if truthy v then v else None.

Definition blank_as_absent (f : Fields) : Fields :=
  mkFields (mainAbbreviation f) (versionName f) (languageCode f)
           (present (publisherName f)) (present (licence f)) (present (webLink f)).

(** The values of a field that one element adds to those seen. *)
Definition own_value (element : Element) (n : string) : list PyStr :=
  match ET.find element n with
  | Some found => [ET.text found]
  | None => []
  end.

Definition is_repeated (element : Element) (n : string) (seen : list PyStr) : bool :=
  match ET.find element n with
  | Some found => bool_decide (ET.text found ∈ seen)
  | None => false
  end.
(** One step of the loop for a grouped index: the records that qualify are
    appended under their key. *)
Definition group_into (qualifies : Fields → bool) (key : Fields → PyStr)
    (entry : Fields → Entry) (d : gmap PyStr (list Entry)) (f : Fields)
    : gmap PyStr (list Entry) :=
  if qualifies f then append_to (key f) (entry f) d else d.

(** The records of a list that qualify for a key of a grouped index. *)
Definition qualifying (qualifies : Fields → bool) (key : Fields → PyStr)
    (k : PyStr) (fs : list Fields) : list Fields :=
  filter (λ f, qualifies f = true ∧ key f = k) fs.

(** What a lookup in a grouped index gives for a list of entries: a key with
    no entry is not in the index. *)
Definition bucket (entries : list Entry) : option (list Entry) :=
  match entries with
  | [] => None
  | _ => Some entries
  end.

(** The records of a catalogue, as [importDataToPython] reads them. *)
Definition records (tree : Element) : list Fields := fields_of <$> ET.children tree.

(** The data sets computed from the records. *)
Definition datasets_of (fs : list Fields) : DataSets :=
  let t := tables_of fs empty_tables in
  mkDataSets (merge_sort pystr_le (myAbbrevList t)) (myAbbrevDict t)
             (myNameDict t) (myLanguageDict t) (myPublisherDict t)
             (myLicenseDict t) (myWebLinkDict t).

(** A test that selects errors of this module only. *)
Definition errors_only (p : LogRecord → bool) : Prop :=
  (∀ s, p (XMLCheck s) = false) ∧ (∀ m, p (Log WARNING m) = false).


(** A record that also carries the element [__validate] reads its ID from. *)
Definition with_ID (ID : string) (record : Element) : Element :=
  ET.mkElement (ET.tag record) (ET.attrib record) (ET.text record) (ET.tail record)
               (leaf "referenceAbbreviation" ID :: ET.children record).

(** A record without its language code. *)
Definition KJV_without_language : Element :=
  record_of [("mainAbbreviation", "KJV"); ("versionName", "King James Version")].

(** A second record under the abbreviation of [KJV]. *)
Definition KJV_again : Element :=
  record_of [("mainAbbreviation", "KJV"); ("versionName", "Authorized Version");
             ("languageCode", "en")].

(** The record [WEB] with a publisher element that is blank. *)
Definition WEB_blank_publisher : Element :=
  ET.mkElement "BibleVersionCodes" [] None None
    [leaf "mainAbbreviation" "WEB"; leaf "versionName" "World English Bible";
     leaf "languageCode" "en"; ET.mkElement "publisherName" [] None None [];
     leaf "licence" "Public Domain"].

(** A header whose work element has no version. *)
Definition header_without_version : Element :=
  ET.mkElement "header" [] None None
    [ET.mkElement "work" [] None None
       [leaf "date" "2022-05-18"; leaf "title" "Bible version codes"]].

(** The instance after [loadAndValidate()] on a document, without strict
    checking. *)
Definition loaded (root : Element) : Converter := final (load_sample root false).

(** An entry in which no optional field is stored with a blank value. *)
Definition blank_free (entry : Entry) : Prop :=
  ∀ key v, key ∈ _optionalElements → entry !! key = Some v → truthy v = true.


(** The tree that [__load] leaves in the instance for a root with children:
    the root, without its first child when that is the header of a root
    with the expected tag. *)
Definition loaded_tree (root : Element) : Element :=
  match ET.children root with
  | header :: _ =>
      if bool_decide (ET.tag root = _treeTag)
         && bool_decide (ET.tag header = _headerTag)
      then ET.remove root 0 else root
  | [] => root
  end.

(** The header of a root is complete: the first child of the root is the
    header, and its only child is a work element. *)
Definition header_with_work (root : Element) (work : Element) : Prop :=
  ∃ header rest,
    ET.children root = header :: rest
    ∧ ET.tag header = _headerTag
    ∧ ET.children header = [work]
    ∧ ET.tag work = "work".

(** A record of the log below the level of an error. *)
Definition is_notice (r : LogRecord) : Prop :=
  match r with
  | Log INFO _ | Log WARNING _ => True
  | _ => False
  end.

(** The instances that calls of the two public methods lead to. *)
Inductive reachable (parse : string → Element) (strictCheckingFlag : bool)
    (checkXMLNoText checkXMLNoTail checkXMLNoAttributes checkXMLNoSubelements
     : Element → string → list string) : Converter → Prop :=
  | reachable_init :
      reachable parse strictCheckingFlag checkXMLNoText checkXMLNoTail
                checkXMLNoAttributes checkXMLNoSubelements __init__
  | reachable_loadAndValidate source self :
      reachable parse strictCheckingFlag checkXMLNoText checkXMLNoTail
                checkXMLNoAttributes checkXMLNoSubelements self →
      reachable parse strictCheckingFlag checkXMLNoText checkXMLNoTail
                checkXMLNoAttributes checkXMLNoSubelements
                (final (loadAndValidate parse strictCheckingFlag checkXMLNoText
                          checkXMLNoTail checkXMLNoAttributes
                          checkXMLNoSubelements source self))
  | reachable_importDataToPython self :
      reachable parse strictCheckingFlag checkXMLNoText checkXMLNoTail
                checkXMLNoAttributes checkXMLNoSubelements self →
      reachable parse strictCheckingFlag checkXMLNoText checkXMLNoTail
                checkXMLNoAttributes checkXMLNoSubelements
                (final (importDataToPython self)).

Global Instance sortable_dec l : Decision (sortable l).
Proof. unfold sortable. apply _. Defined.

Global Instance importable_dec tree : Decision (importable tree).
Proof. unfold importable. apply _. Defined.

(** The data sets in store, if any, are those of the tree in store. *)
Definition cache_consistent (self : Converter) : Prop :=
  match __DataSets self with
  | None => True
  | Some datasets =>
      ∃ tree, _XMLTree self = Some tree ∧ importable tree
              ∧ datasets = datasets_of (records tree)
  end.

(** Two sources: a catalogue in which WEB has a blank publisher, and the
    same catalogue with no publisher element in WEB. *)
Definition two_sources (path : string) : Element :=
  if bool_decide (path = "blank.xml")
  then document [sample_header; WEB_blank_publisher; KJV]
  else document [sample_header; WEB; KJV].

(** The instance after [loadAndValidate(path)] on one of the two sources. *)
Definition loaded_from (path : string) : Converter :=
  final (loadAndValidate two_sources false no_reports no_reports no_reports
                         no_reports (Some path) __init__).

(** ** The other methods and helpers *)

(** [__len__]: [len(self._XMLTree)], a [TypeError] while there is no tree. *)
Definition __len__ : M nat :=
  tree ← read _XMLTree;
  match tree with
  | Some tree => mret (ET.len tree)
  | None => lift (raise TypeError)
  end.

(** A document with a header and no record, and a document with no child. *)
Definition header_only : Element := document [sample_header].
Definition childless : Element := document [].

(** *** Reading the log of [__validate] *)

(** The warning that a compulsory element is blank, for one field and one
    record number. *)
Definition reports_blank_compulsory (elementName : string) (j : nat)
    (r : LogRecord) : bool :=
  match r with
  | Log WARNING (CompulsoryElementBlank n _ j') =>
      bool_decide (n = elementName ∧ j' = j)
  | _ => false
  end.

(** The warning that an optional element is blank. *)
Definition reports_blank_optional (elementName : string) (j : nat)
    (r : LogRecord) : bool :=
  match r with
  | Log WARNING (OptionalElementBlank n _ j') =>
      bool_decide (n = elementName ∧ j' = j)
  | _ => false
  end.

(** The warning about an additional element, for one tag and one record
    number. *)
Definition reports_additional (tag : string) (j : nat) (r : LogRecord) : bool :=
  match r with
  | Log WARNING (AdditionalElement tag' _ _ j') =>
      bool_decide (tag' = tag ∧ j' = j)
  | _ => false
  end.

(** The warning about an element that is no record, for one record number. *)
Definition reports_unexpected (j : nat) (r : LogRecord) : bool :=
  match r with
  | Log WARNING (UnexpectedElement _ j') => bool_decide (j' = j)
  | _ => false
  end.

(** Any diagnostic about the elements of a record, for one record number. *)
Definition reports_on_fields (j : nat) (r : LogRecord) : bool :=
  match r with
  | Log _ (CompulsoryElementMissing _ _ j') | Log _ (CompulsoryElementBlank _ _ j')
  | Log _ (OptionalElementBlank _ _ j') | Log _ (AdditionalElement _ _ _ j')
  | Log _ (ElementRepeated _ _ _ j') => bool_decide (j' = j)
  | _ => false
  end.

(** The warning about an attribute that the schema does not declare, for one
    record number. *)
Definition reports_attribute (j : nat) (r : LogRecord) : bool :=
  match r with
  | Log WARNING (AdditionalAttribute _ _ _ j') => bool_decide (j' = j)
  | _ => false
  end.

(** The element is there and its text is blank. *)
Definition is_blank (element : Element) (elementName : string) : bool :=
  match ET.find element elementName with
  | Some found => negb (truthy (ET.text found))
  | None => false
  end.

(** The children of an element that carry a tag. *)
Definition children_tagged (tag : string) (element : Element) : list Element :=
  filter (λ child, ET.tag child = tag) (ET.children element).

(** The dict of the values seen, after the checks of one element. *)
Definition next_uniqueDict (element : Element) (uniqueDict : UniqueDict)
    : UniqueDict :=
  if bool_decide (is_main element)
  then (check_unique_elements element None 0 uniqueDict).2
  else uniqueDict.

Section ValidationLog.

Context (checkXMLNoText checkXMLNoTail checkXMLNoAttributes
         checkXMLNoSubelements : Element → string → list string).

(** The records that the checks of one element add to the log. *)
Definition element_log (element : Element) (j : nat) (uniqueDict : UniqueDict)
    : list LogRecord :=
  (if bool_decide (is_main element) then
     let ID := optional_text element "referenceAbbreviation" in
     (XMLCheck <$> checkXMLNoText element (ET.tag element))
     ++ (XMLCheck <$> checkXMLNoTail element (ET.tag element))
     ++ (XMLCheck <$> checkXMLNoAttributes element (ET.tag element))
     ++ check_additional_attributes element j
     ++ check_compulsory_elements checkXMLNoTail checkXMLNoAttributes
          checkXMLNoSubelements element ID j
     ++ check_optional_elements checkXMLNoTail checkXMLNoAttributes
          checkXMLNoSubelements element ID j
     ++ check_additional_elements element ID j
     ++ (check_unique_elements element ID j uniqueDict).1
   else [Log WARNING (UnexpectedElement (ET.tag element) j)])
  ++ tail_after_element element j.

(** The records that the loop over the elements adds to the log. *)
Fixpoint elements_log (j : nat) (elements : list Element) (uniqueDict : UniqueDict)
    : list LogRecord :=
  match elements with
  | [] => []
  | element :: rest =>
      element_log element j uniqueDict
      ++ elements_log (S j) rest (next_uniqueDict element uniqueDict)
  end.

End ValidationLog.

(** *** Running a method step by step *)

(** The outcome of a computation that follows what was already logged. *)
Definition prepend {A} (log : list LogRecord) (r : Converter * W A)
    : Converter * W A :=
  (r.1, (log ++ r.2.1, r.2.2)).

(** The error that [__load] logs for stray text after the first child. *)
Definition tail_after_header (header : Element) : list LogRecord :=
  match has_stray_text (ET.tail header) with
  | Some tail => [Log ERROR (UnexpectedTailAfterHeader tail)]
  | None => []
  end.

(** *** The outcome of a first import *)

(** The exception with which [importDataToPython] ends on a tree when no
    data sets are in store, if it ends with one: an assertion on a tree
    without children, then the loop over the records, then [sorted]. *)
Definition import_failure (tree : option Element) : option Exception :=
  match tree with
  | None => Some AssertionError
  | Some tree =>
      if negb (ET.bool tree) then Some AssertionError
      else if negb (bool_decide (Forall has_compulsory (ET.children tree)))
      then Some AttributeError
      else if negb (bool_decide (sortable (mainAbbreviation <$> records tree)))
      then Some TypeError
      else None
  end.

(** *** The entries of the views, in the words of the specification *)

(** The fields of a record by name; an optional field is there only when
    its value is not blank. *)
Definition record_dict (f : Fields) : Entry :=
  list_to_map
    ([("mainAbbreviation", mainAbbreviation f); ("versionName", versionName f);
      ("languageCode", languageCode f)]
     ++ filter (λ field, truthy field.2 = true)
          [("publisherName", publisherName f); ("licence", licence f);
           ("webLink", webLink f)]).

(** The entry of a record in a view: its fields without the one that is the
    key of the view. *)
Definition entry_for (keyName : string) (f : Fields) : Entry :=
  delete keyName (record_dict f).

(** A grouped view holds every member: under each key the entries of the
    records that qualify for it, one for each such record and in their
    order, and so every record that qualifies has its entry under its
    key. *)
Definition holds_every_member (view : gmap PyStr (list Entry)) (keyName : string)
    (key : Fields → PyStr) (qualifies : Fields → bool) (fs : list Fields) : Prop :=
  (∀ k, view !! k = bucket (entry_for keyName <$> qualifying qualifies key k fs))
  ∧ ∀ f, f ∈ fs → qualifies f = true →
         ∃ entries, view !! key f = Some entries ∧ entry_for keyName f ∈ entries.

(** *** Reading the data sets back *)

(** The value an entry holds under a name; [None] when it holds none. *)
Definition field (entry : Entry) (name : string) : PyStr :=
  default None (entry !! name).

(** The record that a key of a view and an entry under that key stand for:
    the key goes back under the name of its field. *)
Definition decoded (keyName : string) (key : PyStr) (entry : Entry) : Fields :=
  let whole := <[keyName := key]> entry in
  mkFields (field whole "mainAbbreviation") (field whole "versionName")
           (field whole "languageCode") (field whole "publisherName")
           (field whole "licence") (field whole "webLink").

(** A grouped view gives a record back: under the key it holds an entry
    that stands for the record, blank optional values read as missing. *)
Definition recovers (view : gmap PyStr (list Entry)) (keyName : string)
    (key : PyStr) (f : Fields) : Prop :=
  ∃ entries entry,
    view !! key = Some entries ∧ entry ∈ entries
    ∧ decoded keyName key entry = blank_as_absent f.

(** The entries that a grouped view holds, over all its keys. *)
Definition entries_in (d : gmap PyStr (list Entry)) : nat :=
  map_fold (λ _ entries n, length entries + n) 0 d.

(** *** Runs of the local helpers *)

(** A run of [addToAllCodesDict] calls on one dict; a call is the value
    that the name [referenceAbbreviation] is bound to when it is made, the
    given abbreviation and the type shown in the warning. *)
Definition add_all (calls : list (PyStr * PyStr * string))
    (d : gmap PyStr PyStr) : W (gmap PyStr PyStr) :=
  for_each calls
    (λ '(referenceAbbreviation, givenUCAbbreviation, abbrevType) d,
       addToAllCodesDict (Some referenceAbbreviation) givenUCAbbreviation
                         abbrevType d)
    d.

(** The values that the calls of a run give for one abbreviation. *)
Definition values_for (k : PyStr) (calls : list (PyStr * PyStr * string))
    : list PyStr :=
  (λ call, call.1.1) <$> filter (λ call, call.1.2 = k) calls.

(** What a dict of all codes holds for values given one after the other:
    the value when they all agree, the mark of a conflict otherwise. *)
Definition verdict (values : list PyStr) : option PyStr :=
  match values with
  | [] => None
  | v :: rest =>
      if bool_decide (Forall (eq v) rest) then Some v
      else Some (Some "MultipleValues")
  end.

(** The values that [makeList] works on: a list object, known by its
    identity, or any other value. *)
Inductive Value : Type :=
  | Plain (v : PyStr)
  | ListObject (id : nat).

(** The list objects and what they hold. *)
Abbreviation Heap := (gmap nat (list Value)).

(** [makeList]: a list object as first parameter is appended to in place
    and returned; otherwise a new list object holds both parameters. *)
Definition makeList (parameter1 parameter2 : Value) (heap : Heap) : Heap * Value :=
  match parameter1 with
  | ListObject id => (<[id := heap !!! id ++ [parameter2]]> heap, ListObject id)
  | Plain _ =>
      let id := fresh (dom heap) in
      (<[id := [parameter1; parameter2]]> heap, ListObject id)
  end.

(** [v = makeList(v, x)] for each [x] of a list, in turn. *)
Definition accumulate (first : Value) (others : list Value) (heap : Heap)
    : Heap * Value :=
  foldl (λ acc x, makeList acc.2 x acc.1) (heap, first) others.

(** *** The exports that hand the data sets to a library *)

Section Exports.

(** What follows the choice of the file path in [pickle] and in
    [exportDataToJSON]: the message on the console, opening the file and
    [pickle.dump] or [json.dump] of the data sets. *)
Variable pickle_dump : string → DataSets → M unit.
Variable json_dump : string → DataSets → M unit.

(** The start that the export methods share.  The default folder is built
    with [Path], a name that the module does not bind. *)
Definition export_start (filepath : PyStr) : M (string * DataSets) :=
  tree ← read _XMLTree;
  lift (assert (from_option ET.bool false tree));;
  importDataToPython;;
  datasets ← read __DataSets;
  match datasets with
  | None => lift (raise AssertionError)
  | Some datasets =>
      match filepath with
      | Some path =>
          if truthy filepath then mret (path, datasets)
          else lift (raise NameError)
      | None => lift (raise NameError)
      end
  end.

Definition pickle (filepath : PyStr) : M unit :=
  start ← export_start filepath;
  pickle_dump start.1 start.2.

Definition exportDataToJSON (filepath : PyStr) : M unit :=
  start ← export_start filepath;
  json_dump start.1 start.2.

End Exports.

(** * Properties *)

(** ** Counting in logs *)

Lemma count_reports_app p l1 l2 :
  count_reports p (l1 ++ l2) = count_reports p l1 + count_reports p l2.
Proof. unfold count_reports. by rewrite List.filter_app, length_app. Qed.

Lemma count_reports_nil p : count_reports p [] = 0.
Proof. done. Qed.

Lemma count_reports_none p l :
  Forall (λ r, p r = false) l → count_reports p l = 0.
Proof.
  unfold count_reports. induction 1 as [|r l Hr _ IH]; simpl; [done|].
  by rewrite Hr.
Qed.

Lemma count_reports_bind {A} p (f : A → list LogRecord) (xs : list A) :
  (∀ x, x ∈ xs → count_reports p (f x) = 0) →
  count_reports p (xs ≫= f) = 0.
Proof.
  induction xs as [|x xs IH]; intros Hf; [done|].
  change (count_reports p (f x ++ (xs ≫= f)) = 0).
  rewrite count_reports_app, Hf, IH; [done| |left].
  intros y Hy. apply Hf. by right.
Qed.

Lemma reports_missing_errors_only n j : errors_only (reports_missing n j).
Proof. by split. Qed.

Lemma reports_repeat_errors_only n j : errors_only (reports_repeat n j).
Proof. by split. Qed.

Lemma count_reports_XMLCheck p reports :
  errors_only p → count_reports p (XMLCheck <$> reports) = 0.
Proof.
  intros [Hp _]. apply count_reports_none, Forall_fmap, Forall_forall.
  intros s _. apply Hp.
Qed.

(** Two conditionals agree when their tests are equivalent. *)
Ltac same_test :=
  match goal with
  | |- (if bool_decide ?P && ?b then _ else _)
       = (if bool_decide ?Q && ?b then _ else _) =>
      rewrite (bool_decide_ext P Q); [reflexivity|]
  | |- (if bool_decide ?P then _ else _) = (if bool_decide ?Q then _ else _) =>
      rewrite (bool_decide_ext P Q); [reflexivity|]
  end.

Section Validation.

Context (checkXMLNoText checkXMLNoTail checkXMLNoAttributes
         checkXMLNoSubelements : Element → string → list string).

Abbreviation check_leaf' := (check_leaf checkXMLNoTail checkXMLNoAttributes checkXMLNoSubelements).

Lemma count_check_leaf p found location :
  errors_only p → count_reports p (check_leaf' found location) = 0.
Proof. intros. by apply count_reports_XMLCheck. Qed.

Lemma count_check_optional_elements p element ID j :
  errors_only p →
  count_reports p (check_optional_elements checkXMLNoTail checkXMLNoAttributes
                     checkXMLNoSubelements element ID j) = 0.
Proof.
  intros Hp. apply count_reports_bind. intros n _.
  destruct (ET.find element n) as [found|]; [|done].
  rewrite count_reports_app, count_check_leaf by done.
  destruct (truthy _); [done|]. unfold count_reports; simpl.
  by rewrite (proj2 Hp).
Qed.

Lemma count_check_additional_elements p element ID j :
  errors_only p →
  count_reports p (check_additional_elements element ID j) = 0.
Proof.
  intros Hp. apply count_reports_bind. intros sub _.
  destruct (_ && _); [|done]. unfold count_reports; simpl.
  by rewrite (proj2 Hp).
Qed.

Lemma count_check_additional_attributes p element j :
  errors_only p →
  count_reports p (check_additional_attributes element j) = 0.
Proof.
  intros Hp. apply count_reports_bind. intros sub _.
  destruct (_ && _); [|done]. unfold count_reports; simpl.
  by rewrite (proj2 Hp).
Qed.




Lemma count_missing_compulsory_names element ID j n j0 (names : list string) :
  NoDup names →
  count_reports (reports_missing n j0)
    (names ≫= λ elementName,
       match ET.find element elementName with
       | None => [Log ERROR (CompulsoryElementMissing elementName ID j)]
       | Some foundElement =>
           check_leaf checkXMLNoTail checkXMLNoAttributes checkXMLNoSubelements
             foundElement (ET.tag foundElement +:+ " in " +:+ ET.tag element)
           ++ (if truthy (ET.text foundElement) then []
               else [Log WARNING (CompulsoryElementBlank elementName ID j)])
       end)
  = if bool_decide (j = j0 ∧ n ∈ names ∧ ET.find element n = None) then 1 else 0.
Proof.
  induction 1 as [|x names Hx Hnames IH].
  - rewrite bool_decide_eq_false_2; [done|]. intros (_ & Hn & _). inversion Hn.
  - match goal with |- count_reports ?p ((?x :: ?l) ≫= ?f) = ?rhs =>
      change (count_reports p (f x ++ (l ≫= f)) = rhs) end.
    rewrite count_reports_app, IH. clear IH.
    destruct (ET.find element x) as [found|] eqn:Hfind.
    + rewrite count_reports_app, count_check_leaf
        by apply reports_missing_errors_only.
      assert (count_reports (reports_missing n j0)
                (if truthy (ET.text found) then []
                 else [Log WARNING (CompulsoryElementBlank x ID j)]) = 0) as ->
        by by destruct (truthy _).
      simpl. same_test. split.
      * intros (? & ? & ?). split_and!; [done|by right|done].
      * intros (? & Hn & Hnone). split_and!; [done| |done].
        apply elem_of_cons in Hn as [->|Hn]; [congruence|done].
    + unfold count_reports at 1. simpl.
      destruct (decide (x = n ∧ j = j0)) as [[-> ->]|Hne].
      * rewrite bool_decide_eq_true_2 by done. simpl.
        rewrite bool_decide_eq_false_2 by (intros (_ & ? & _); done).
        rewrite bool_decide_eq_true_2; [done|]. split_and!; [done|by left|done].
      * rewrite bool_decide_eq_false_2 by done. simpl.
        same_test. split.
        -- intros (? & ? & ?). split_and!; [done|by right|done].
        -- intros (? & Hn & Hnone). split_and!; [done| |done].
           apply elem_of_cons in Hn as [->|Hn]; [|done]. by destruct Hne.
Qed.

Lemma NoDup_compulsoryElements : NoDup _compulsoryElements.
Proof. apply (bool_decide_unpack _). by vm_compute. Qed.

Lemma NoDup_uniqueElements : NoDup _uniqueElements.
Proof. apply (bool_decide_unpack _). by vm_compute. Qed.

Lemma count_missing_compulsory element ID j n j0 :
  count_reports (reports_missing n j0)
    (check_compulsory_elements checkXMLNoTail checkXMLNoAttributes
       checkXMLNoSubelements element ID j)
  = if bool_decide (j = j0 ∧ n ∈ _compulsoryElements ∧ ET.find element n = None)
    then 1 else 0.
Proof.
  apply count_missing_compulsory_names, NoDup_compulsoryElements.
Qed.

Lemma count_repeat_compulsory element ID j n j0 :
  count_reports (reports_repeat n j0)
    (check_compulsory_elements checkXMLNoTail checkXMLNoAttributes
       checkXMLNoSubelements element ID j) = 0.
Proof.
  apply count_reports_bind. intros x _.
  destruct (ET.find element x) as [found|]; [|done].
  rewrite count_reports_app, count_check_leaf
    by apply reports_repeat_errors_only.
  by destruct (truthy _).
Qed.

(** The loop over the unique elements, for any list of names. *)
Lemma check_unique_names element ID j (names : list string) :
  NoDup names →
  ∀ acc : list LogRecord * UniqueDict,
  ∃ extra,
    (foldl (check_unique_element element ID j) acc names).1 = acc.1 ++ extra
    ∧ (∀ n j0, count_reports (reports_missing n j0) extra = 0)
    ∧ (∀ n j0, count_reports (reports_repeat n j0) extra =
               if bool_decide (j = j0 ∧ n ∈ names)
                  && is_repeated element n (acc.2 !!! ("Element_" +:+ n))
               then 1 else 0)
    ∧ (∀ n, (foldl (check_unique_element element ID j) acc names).2
              !!! ("Element_" +:+ n)
            = acc.2 !!! ("Element_" +:+ n)
              ++ (if bool_decide (n ∈ names) then own_value element n else [])).
Proof.
  induction 1 as [|x names Hx Hnames IH]; intros acc.
  - exists []. split_and!.
    + by rewrite app_nil_r.
    + done.
    + intros n j0. rewrite bool_decide_eq_false_2; [done|].
      intros [_ Hn]. inversion Hn.
    + intros n. rewrite bool_decide_eq_false_2 by inversion 1.
      by rewrite app_nil_r.
  - simpl. destruct (IH (check_unique_element element ID j acc x))
      as (extra & Hlog & Hmiss & Hrep & Hdict). clear IH.
    unfold check_unique_element in Hlog, Hrep, Hdict |- * .
    destruct (ET.find element x) as [found|] eqn:Hfind.
    + simpl in *.
      eexists. split_and!.
      * rewrite Hlog, <- app_assoc. reflexivity.
      * intros n j0. rewrite count_reports_app, Hmiss.
        by destruct (bool_decide _).
      * intros n j0. rewrite count_reports_app, Hrep. clear Hrep Hdict Hlog.
        destruct (decide (n = x)) as [->|Hne].
        -- rewrite (bool_decide_eq_false_2 (j = j0 ∧ x ∈ names)) by naive_solver.
           simpl. unfold is_repeated. rewrite Hfind.
           destruct (bool_decide (ET.text found ∈ _)) eqn:Hin.
           ++ unfold count_reports; simpl.
              destruct (decide (j = j0)) as [->|].
              ** rewrite !bool_decide_eq_true_2; [done| |done].
                 split; [done|by left].
              ** rewrite !bool_decide_eq_false_2; [done| |]; naive_solver.
           ++ simpl. by rewrite andb_false_r.
        -- assert (count_reports (reports_repeat n j0)
                     (if bool_decide (ET.text found ∈ acc.2 !!! ("Element_" +:+ x))
                      then [Log ERROR (ElementRepeated (ET.text found) x ID j)]
                      else []) = 0) as ->.
           { destruct (bool_decide (_ ∈ _)); [|done].
             unfold count_reports; simpl.
             rewrite bool_decide_eq_false_2; [done|]. naive_solver. }
           rewrite lookup_total_insert_ne
             by (intros Heq; apply (inj (String.app "Element_")) in Heq; done).
           simpl. same_test.
           rewrite elem_of_cons. naive_solver.
      * intros n. rewrite Hdict. clear Hrep Hdict Hlog.
        destruct (decide (n = x)) as [->|Hne].
        -- rewrite lookup_total_insert_eq.
           rewrite (bool_decide_eq_false_2 (x ∈ names)) by done.
           rewrite (bool_decide_eq_true_2 (x ∈ x :: names)) by by left.
           unfold own_value. rewrite Hfind. by rewrite app_nil_r.
        -- rewrite lookup_total_insert_ne
             by (intros Heq; apply (inj (String.app "Element_")) in Heq; done).
           rewrite (bool_decide_ext (n ∈ x :: names) (n ∈ names)); [done|].
           rewrite elem_of_cons. naive_solver.
    + exists extra. split_and!; [done|done| |].
      * intros n j0. rewrite Hrep.
        destruct (decide (n = x)) as [->|Hne].
        -- unfold is_repeated. rewrite Hfind. by rewrite !andb_false_r.
        -- same_test. rewrite elem_of_cons. naive_solver.
      * intros n. rewrite Hdict. f_equal.
        destruct (decide (n = x)) as [->|Hne].
        -- unfold own_value. rewrite Hfind. by destruct (bool_decide _), (bool_decide _).
        -- rewrite (bool_decide_ext (n ∈ x :: names) (n ∈ names)); [done|].
           rewrite elem_of_cons. naive_solver.
Qed.


Abbreviation validate_element' :=
  (validate_element checkXMLNoText checkXMLNoTail checkXMLNoAttributes
                    checkXMLNoSubelements).
Abbreviation validate_elements' :=
  (validate_elements checkXMLNoText checkXMLNoTail checkXMLNoAttributes
                     checkXMLNoSubelements).

Lemma count_tail_after_element p element j :
  (∀ tail tag j, p (Log ERROR (UnexpectedTailAfterElement tail tag j)) = false) →
  count_reports p (tail_after_element element j) = 0.
Proof.
  intros Hp. unfold tail_after_element.
  destruct (has_stray_text _); [|done].
  unfold count_reports; simpl. by rewrite Hp.
Qed.

(** One turn of the validation loop on an element whose record ID is found. *)
Lemma validate_element_spec element j uniqueDict :
  (is_main element → is_Some (ET.find element "referenceAbbreviation")) →
  ∃ log uniqueDict',
    validate_element' element j uniqueDict = (log, inr uniqueDict')
    ∧ (∀ n j0, count_reports (reports_missing n j0) log =
               if bool_decide (j = j0 ∧ is_main element
                               ∧ n ∈ _compulsoryElements
                               ∧ ET.find element n = None)
               then 1 else 0)
    ∧ (∀ n j0, count_reports (reports_repeat n j0) log =
               if bool_decide (j = j0 ∧ is_main element ∧ n ∈ _uniqueElements)
                  && is_repeated element n (uniqueDict !!! ("Element_" +:+ n))
               then 1 else 0)
    ∧ (∀ n, uniqueDict' !!! ("Element_" +:+ n)
            = uniqueDict !!! ("Element_" +:+ n)
              ++ (if bool_decide (is_main element ∧ n ∈ _uniqueElements)
                  then own_value element n else [])).
Proof.
  intros HID. unfold validate_element, is_main in *.
  case_bool_decide as Hmain.
  - destruct (HID Hmain) as [r Hr].
    unfold validate_main_element, find_text. rewrite Hr.
    change (check_unique_attributes element j uniqueDict)
      with (@nil LogRecord, uniqueDict).
    destruct (check_unique_names element (ET.text r) j _ NoDup_uniqueElements
                ([], uniqueDict))
      as (extra & Hlog & Hmiss & Hrep & Hdict).
    fold (check_unique_elements element (ET.text r) j uniqueDict) in Hlog, Hdict.
    cbn [fst snd app] in Hlog, Hrep, Hdict.
    cbv [mbind W_bind mret W_ret report emit try logging].
    cbn [fst snd is_empty _compulsoryAttributes _optionalAttributes
         _compulsoryElements _optionalElements andb].
    eexists _, _. split; [reflexivity|]. rewrite Hlog. split_and!.
    + intros n j0.
      rewrite !count_reports_app, !count_reports_XMLCheck,
        count_check_optional_elements, count_check_additional_elements,
        count_check_additional_attributes, count_missing_compulsory, Hmiss,
        count_tail_after_element
        by (apply reports_missing_errors_only || done).
      simpl. rewrite !Nat.add_0_r. same_test. naive_solver.
    + intros n j0.
      rewrite !count_reports_app, !count_reports_XMLCheck,
        count_check_optional_elements, count_check_additional_elements,
        count_check_additional_attributes, count_repeat_compulsory, Hrep,
        count_tail_after_element
        by (apply reports_repeat_errors_only || done).
      simpl. rewrite !Nat.add_0_r. same_test. naive_solver.
    + intros n. rewrite Hdict. simpl.
      rewrite (bool_decide_ext (ET.tag element = _mainElementTag
                                ∧ n ∈ _uniqueElements) (n ∈ _uniqueElements));
        [done|naive_solver].
  - cbv [mbind W_bind mret W_ret report emit try logging].
    cbn [fst snd]. eexists _, _. split; [reflexivity|]. split_and!.
    + intros n j0. rewrite !count_reports_app, count_tail_after_element by done.
      rewrite bool_decide_eq_false_2; [done|naive_solver].
    + intros n j0. rewrite !count_reports_app, count_tail_after_element by done.
      rewrite bool_decide_eq_false_2; [done|naive_solver].
    + intros n. rewrite bool_decide_eq_false_2; [|naive_solver].
      by rewrite app_nil_r.
Qed.



Lemma field_values_cons n element elements :
  field_values n (element :: elements)
  = (if bool_decide (is_main element) then own_value element n else [])
    ++ field_values n elements.
Proof.
  unfold field_values, own_value. simpl.
  case_bool_decide; [|done]. by destruct (ET.find element n).
Qed.

(** The whole loop of [__validate], from record number [j] on. *)
Lemma validate_elements_spec elements :
  ∀ j uniqueDict,
  IDs_resolve elements →
  ∃ log uniqueDict',
    validate_elements checkXMLNoText checkXMLNoTail checkXMLNoAttributes
      checkXMLNoSubelements j elements uniqueDict = (log, inr uniqueDict')
    ∧ (∀ n i, count_reports (reports_missing n (j + i)) log =
              match elements !! i with
              | Some element =>
                  if bool_decide (is_main element ∧ n ∈ _compulsoryElements
                                  ∧ ET.find element n = None)
                  then 1 else 0
              | None => 0
              end)
    ∧ (∀ n j0, j0 < j → count_reports (reports_missing n j0) log = 0)
    ∧ (∀ n i, n ∈ _uniqueElements →
              count_reports (reports_repeat n (j + i)) log =
              match elements !! i with
              | Some element =>
                  if bool_decide (is_main element)
                     && is_repeated element n
                          (uniqueDict !!! ("Element_" +:+ n)
                           ++ field_values n (take i elements))
                  then 1 else 0
              | None => 0
              end)
    ∧ (∀ n j0, j0 < j → count_reports (reports_repeat n j0) log = 0)
    ∧ (∀ n, n ∈ _uniqueElements →
            uniqueDict' !!! ("Element_" +:+ n)
            = uniqueDict !!! ("Element_" +:+ n) ++ field_values n elements).
Proof.
  induction elements as [|element elements IH]; intros j uniqueDict HIDs.
  - exists [], uniqueDict. split_and!; try done.
    intros n _. by rewrite app_nil_r.
  - apply Forall_cons in HIDs as [HID HIDs].
    destruct (validate_element_spec element j uniqueDict HID)
      as (log1 & ud1 & Hrun1 & Hmiss1 & Hrep1 & Hdict1).
    destruct (IH (S j) ud1 HIDs)
      as (log2 & ud2 & Hrun2 & Hmiss2 & Hmiss2' & Hrep2 & Hrep2' & Hdict2).
    exists (log1 ++ log2), ud2. split_and!.
    + simpl. rewrite Hrun1. cbv [mbind W_bind]. cbn [fst snd]. by rewrite Hrun2.
    + intros n [|i]; rewrite count_reports_app, Hmiss1.
      * rewrite Nat.add_0_r, Hmiss2' by lia. simpl. rewrite Nat.add_0_r.
        same_test. naive_solver.
      * replace (j + S i) with (S j + i) by lia. rewrite Hmiss2. simpl.
        rewrite bool_decide_eq_false_2; [done|]. intros [? _]. lia.
    + intros n j0 Hj0. rewrite count_reports_app, Hmiss1, Hmiss2' by lia.
      rewrite bool_decide_eq_false_2; [done|]. intros [? _]. lia.
    + intros n [|i] Hn; rewrite count_reports_app, Hrep1.
      * rewrite Nat.add_0_r, Hrep2' by lia. simpl.
        rewrite app_nil_r, Nat.add_0_r.
        rewrite (bool_decide_ext (j = j ∧ is_main element ∧ n ∈ _uniqueElements)
                   (is_main element)); [done|naive_solver].
      * replace (j + S i) with (S j + i) by lia. rewrite Hrep2 by done.
        rewrite (bool_decide_eq_false_2 (j = S j + i ∧ _)) by (intros [? _]; lia).
        change (take (S i) (element :: elements)) with (element :: take i elements).
        change ((element :: elements) !! S i) with (elements !! i).
        cbn [andb Nat.add]. rewrite Hdict1, field_values_cons, <- app_assoc.
        rewrite (bool_decide_ext (is_main element ∧ n ∈ _uniqueElements)
                   (is_main element)); [done|naive_solver].
    + intros n j0 Hj0. rewrite count_reports_app, Hrep1, Hrep2' by lia.
      rewrite (bool_decide_eq_false_2 (j = j0 ∧ _)) by (intros [? _]; lia).
      done.
    + intros n Hn. rewrite Hdict2, Hdict1, field_values_cons, <- app_assoc by done.
      rewrite (bool_decide_ext (is_main element ∧ n ∈ _uniqueElements)
                 (is_main element)); [done|naive_solver].
Qed.

Lemma initial_uniqueDict_lookup n :
  initial_uniqueDict !!! ("Element_" +:+ n) = [].
Proof.
  unfold initial_uniqueDict. simpl.
  destruct (decide (n = "webLink")) as [->|]; [done|].
  rewrite lookup_total_insert_ne
    by (intros Heq; apply (inj (String.app "Element_")) in Heq; done).
  destruct (decide (n = "mainAbbreviation")) as [->|]; [done|].
  by rewrite lookup_total_insert_ne
    by (intros Heq; apply (inj (String.app "Element_")) in Heq; done).
Qed.

(** [__validate] on an instance whose records all show a record ID: it
    returns, leaves the instance as it is, and its log holds one report
    of a missing compulsory element for each record and field that misses
    it, and one report of a repeated value for each record and unique
    field whose value an earlier record carries. *)
Lemma validate_spec self tree :
  _XMLTree self = Some tree →
  ET.bool tree = true →
  IDs_resolve (ET.children tree) →
  ∃ log,
    __validate checkXMLNoText checkXMLNoTail checkXMLNoAttributes
      checkXMLNoSubelements self = (self, (log, inr ()))
    ∧ (∀ n j, count_reports (reports_missing n j) log =
              match ET.children tree !! j with
              | Some element =>
                  if bool_decide (is_main element ∧ n ∈ _compulsoryElements
                                  ∧ ET.find element n = None)
                  then 1 else 0
              | None => 0
              end)
    ∧ (∀ n j, n ∈ _uniqueElements →
              count_reports (reports_repeat n j) log =
              match ET.children tree !! j with
              | Some element =>
                  if bool_decide (is_main element)
                     && is_repeated element n
                          (field_values n (take j (ET.children tree)))
                  then 1 else 0
              | None => 0
              end).
Proof.
  intros Htree Hbool HIDs.
  destruct (validate_elements_spec (ET.children tree) 0 initial_uniqueDict HIDs)
    as (log & ud & Hrun & Hmiss & _ & Hrep & _ & _).
  unfold __validate, validate_tree.
  cbv [mbind M_bind W_bind read lift mret M_ret W_ret assert].
  cbn [fst snd]. rewrite Htree. cbn [fst snd]. rewrite Hbool. cbn [fst snd].
  rewrite Hrun. cbn [fst snd].
  destruct (has_stray_text (ET.tail tree)) as [tail|];
    cbn [fst snd logging app]; eexists; (split; [reflexivity|]); split.
  - intros n j. rewrite count_reports_app. specialize (Hmiss n j).
    simpl in Hmiss. rewrite Hmiss. unfold count_reports; simpl. lia.
  - intros n j Hn. rewrite count_reports_app. specialize (Hrep n j Hn).
    simpl in Hrep. rewrite Hrep, initial_uniqueDict_lookup.
    unfold count_reports; simpl. lia.
  - intros n j. rewrite app_nil_r. apply (Hmiss n j).
  - intros n j Hn. rewrite app_nil_r.
    specialize (Hrep n j Hn). simpl in Hrep.
    by rewrite Hrep, initial_uniqueDict_lookup.
Qed.

End Validation.

(** ** The indexer *)

Lemma get_fields_ok element :
  has_compulsory element → get_fields element = ([], inr (fields_of element)).
Proof.
  intros ([a Ha] & [b Hb] & [c Hc]).
  unfold get_fields, fields_of, find_text, optional_text.
  by rewrite Ha, Hb, Hc.
Qed.

Lemma get_fields_raises element :
  ¬ has_compulsory element → get_fields element = ([], inl AttributeError).
Proof.
  intros Hno. unfold get_fields, find_text.
  destruct (ET.find element "mainAbbreviation") as [a|] eqn:Ha; [|done].
  destruct (ET.find element "versionName") as [b|] eqn:Hb; [|done].
  destruct (ET.find element "languageCode") as [c|] eqn:Hc; [|done].
  destruct Hno. unfold has_compulsory. rewrite Ha, Hb, Hc. eauto.
Qed.

Lemma import_element_ok element t :
  has_compulsory element →
  import_element element t = ([], inr (put_fields (fields_of element) t)).
Proof. intros H. unfold import_element. by rewrite get_fields_ok. Qed.

Lemma import_element_raises element t :
  ¬ has_compulsory element → import_element element t = ([], inl AttributeError).
Proof. intros H. unfold import_element. by rewrite get_fields_raises. Qed.

Lemma import_elements_ok elements :
  ∀ t, Forall has_compulsory elements →
       for_each elements import_element t
       = ([], inr (tables_of (fields_of <$> elements) t)).
Proof.
  induction elements as [|element elements IH]; intros t Hall; [done|].
  apply Forall_cons in Hall as [Hhere Hall].
  cbn [for_each]. rewrite import_element_ok by done.
  cbv [mbind W_bind mret W_ret]. cbn [fst snd].
  by rewrite IH.
Qed.

Lemma import_elements_raises elements :
  ∀ t, ¬ Forall has_compulsory elements →
       for_each elements import_element t = ([], inl AttributeError).
Proof.
  induction elements as [|element elements IH]; intros t Hnot.
  - destruct Hnot. constructor.
  - cbn [for_each].
    destruct (decide (has_compulsory element)) as [Hhere|Hhere].
    + rewrite import_element_ok by done.
      cbv [mbind W_bind mret W_ret]. cbn [fst snd].
      rewrite IH; [done|]. intros Hall. apply Hnot. by constructor.
    + by rewrite import_element_raises.
Qed.

(** The tables of the loop, one container at a time. *)
Lemma tables_of_myAbbrevList fs :
  ∀ t, myAbbrevList (tables_of fs t) = myAbbrevList t ++ (mainAbbreviation <$> fs).
Proof.
  induction fs as [|f fs IH]; intros t; simpl; [by rewrite app_nil_r|].
  by rewrite IH; simpl; rewrite <- app_assoc.
Qed.

Lemma tables_of_myAbbrevDict fs :
  ∀ t, myAbbrevDict (tables_of fs t)
       = foldl (λ d f, <[mainAbbreviation f := abbrev_entry f]> d)
               (myAbbrevDict t) fs.
Proof. induction fs as [|f fs IH]; intros t; simpl; [done|]. by rewrite IH. Qed.

Lemma tables_of_myNameDict fs :
  ∀ t, myNameDict (tables_of fs t)
       = foldl (group_into (λ _, true) versionName name_entry) (myNameDict t) fs.
Proof. induction fs as [|f fs IH]; intros t; simpl; [done|]. by rewrite IH. Qed.

Lemma tables_of_myLanguageDict fs :
  ∀ t, myLanguageDict (tables_of fs t)
       = foldl (group_into (λ _, true) languageCode language_entry)
               (myLanguageDict t) fs.
Proof. induction fs as [|f fs IH]; intros t; simpl; [done|]. by rewrite IH. Qed.

Lemma tables_of_myPublisherDict fs :
  ∀ t, myPublisherDict (tables_of fs t)
       = foldl (group_into (truthy ∘ publisherName) publisherName publisher_entry)
               (myPublisherDict t) fs.
Proof. induction fs as [|f fs IH]; intros t; simpl; [done|]. by rewrite IH. Qed.

Lemma tables_of_myLicenseDict fs :
  ∀ t, myLicenseDict (tables_of fs t)
       = foldl (group_into (truthy ∘ licence) licence licence_entry)
               (myLicenseDict t) fs.
Proof. induction fs as [|f fs IH]; intros t; simpl; [done|]. by rewrite IH. Qed.

Lemma tables_of_myWebLinkDict fs :
  ∀ t, myWebLinkDict (tables_of fs t)
       = foldl (group_into (truthy ∘ webLink) webLink webLink_entry)
               (myWebLinkDict t) fs.
Proof. induction fs as [|f fs IH]; intros t; simpl; [done|]. by rewrite IH. Qed.

(** A grouped index holds, under each key, the entries of the records that
    qualify for it, in the order of the records, after what it held. *)
Lemma group_into_lookup qualifies key entry fs k :
  ∀ d, foldl (group_into qualifies key entry) d fs !! k
       = match qualifying qualifies key k fs with
         | [] => d !! k
         | members => Some (d !!! k ++ (entry <$> members))
         end.
Proof.
  unfold qualifying.
  induction fs as [|f fs IH]; intros d; [done|].
  simpl. rewrite IH. clear IH. unfold group_into, append_to.
  rewrite filter_cons.
  destruct (qualifies f) eqn:Hq.
  - destruct (decide (key f = k)) as [<-|Hne].
    + rewrite decide_True by done.
      rewrite lookup_insert_eq, lookup_total_insert_eq.
      destruct (filter _ fs); simpl; [done|]. by rewrite <- app_assoc.
    + rewrite decide_False by naive_solver.
      by rewrite lookup_insert_ne, lookup_total_insert_ne.
  - rewrite decide_False; [done|]. intros [? _]; congruence.
Qed.

Lemma group_into_empty qualifies key entry fs k :
  foldl (group_into qualifies key entry) ∅ fs !! k
  = bucket (entry <$> qualifying qualifies key k fs).
Proof.
  rewrite group_into_lookup. rewrite lookup_empty, lookup_total_empty.
  by destruct (qualifying _ _ _ _).
Qed.

(** The abbreviations dict holds, under each key, the entry of the last
    record that carries it. *)
Lemma abbrev_dict_lookup fs k :
  ∀ d : gmap PyStr Entry,
    foldl (λ d f, <[mainAbbreviation f := abbrev_entry f]> d) d fs !! k
    = match last (filter (λ f, mainAbbreviation f = k) fs) with
      | Some f => Some (abbrev_entry f)
      | None => d !! k
      end.
Proof.
  induction fs as [|f fs IH]; intros d; [done|].
  simpl. rewrite IH. clear IH. rewrite filter_cons.
  destruct (decide (mainAbbreviation f = k)) as [<-|Hne].
  - rewrite lookup_insert_eq.
    destruct (filter _ fs) as [|g gs] eqn:Hfs; [done|].
    change (f :: g :: gs) with ([f] ++ g :: gs).
    rewrite last_app. by destruct (last (g :: gs)) eqn:Hlast.
  - by rewrite lookup_insert_ne.
Qed.

Lemma abbrev_dict_dom fs :
  ∀ d : gmap PyStr Entry,
    dom (foldl (λ d f, <[mainAbbreviation f := abbrev_entry f]> d) d fs)
    = dom d ∪ list_to_set (mainAbbreviation <$> fs).
Proof.
  induction fs as [|f fs IH]; intros d; simpl.
  - set_solver.
  - rewrite IH, dom_insert_L. set_solver.
Qed.

Lemma abbrev_dict_size fs :
  NoDup (mainAbbreviation <$> fs) →
  size (foldl (λ d f, <[mainAbbreviation f := abbrev_entry f]> d)
              (∅ : gmap PyStr Entry) fs) = length fs.
Proof.
  intros Hnodup. rewrite <- size_dom, abbrev_dict_dom, dom_empty_L.
  rewrite (left_id_L ∅ (∪)). by rewrite size_list_to_set, length_fmap.
Qed.

(** *** Sorting *)

Global Instance pystr_le_total : Total pystr_le.
Proof.
  intros [x|] [y|]; simpl; auto.
  destruct (total String.le x y); auto.
Qed.

Global Instance pystr_le_trans : Transitive pystr_le.
Proof.
  intros [x|] [y|] [z|]; simpl; try done. apply transitivity.
Qed.

Lemma sorted_ok l :
  sortable l → sorted l = ([], inr (merge_sort pystr_le l)).
Proof.
  intros [Hshort|Hnone]; unfold sorted.
  - assert ((1 <? length l) = false) as -> by by apply Nat.ltb_ge. done.
  - rewrite (bool_decide_eq_false_2 (None ∈ l)) by done.
    by rewrite andb_false_r.
Qed.

Lemma sorted_raises l :
  ¬ sortable l → sorted l = ([], inl TypeError).
Proof.
  intros Hnot. unfold sorted, sortable in *.
  assert ((1 <? length l) = true) as -> by (apply Nat.ltb_lt; lia).
  rewrite bool_decide_eq_true_2; [done|].
  destruct (decide (None ∈ l)); [done|]. destruct Hnot. by right.
Qed.

(** *** [importDataToPython] as a whole *)

(** On an instance that holds an importable tree and no data sets yet, the
    method computes the data sets of the records, stores them and returns
    them, without logging. *)
Lemma importDataToPython_fresh self tree :
  _XMLTree self = Some tree →
  __DataSets self = None →
  importable tree →
  importDataToPython self
  = (set___DataSets (datasets_of (records tree)) self,
     ([], inr (datasets_of (records tree)))).
Proof.
  intros Htree Hnone (Hbool & Hall & Hsort).
  unfold importDataToPython.
  cbv [mbind M_bind read lift mret M_ret W_ret update assert].
  cbn [fst snd]. rewrite Htree. cbn [fst snd]. rewrite Hbool. cbn [fst snd].
  rewrite Hnone. cbn [fst snd].
  rewrite import_elements_ok by done. cbn [fst snd].
  fold (records tree).
  rewrite sorted_ok; [done|].
  rewrite tables_of_myAbbrevList. simpl.
  by rewrite list_fmap_compose in Hsort.
Qed.

(** On any other tree the first call raises, and stores nothing. *)
Lemma importDataToPython_raises self tree :
  _XMLTree self = Some tree →
  __DataSets self = None →
  ¬ importable tree →
  ∃ e, importDataToPython self = (self, ([], inl e)).
Proof.
  intros Htree Hnone Hnot.
  unfold importDataToPython.
  cbv [mbind M_bind read lift mret M_ret W_ret update assert].
  cbn [fst snd]. rewrite Htree. cbn [fst snd].
  destruct (ET.bool tree) eqn:Hbool; cbn [fst snd]; [|by eexists].
  rewrite Hnone. cbn [fst snd].
  destruct (decide (Forall has_compulsory (ET.children tree))) as [Hall|Hall].
  - rewrite import_elements_ok by done. cbn [fst snd].
    rewrite sorted_raises; [by eexists|].
    intros Hsort. apply Hnot. split_and!; [done..|].
    rewrite tables_of_myAbbrevList in Hsort. simpl in Hsort.
    by rewrite list_fmap_compose.
  - rewrite import_elements_raises by done. by eexists.
Qed.

(** With data sets in store the method returns them and does nothing else. *)
Lemma importDataToPython_cached self tree datasets :
  _XMLTree self = Some tree →
  ET.bool tree = true →
  __DataSets self = Some datasets →
  importDataToPython self = (self, ([], inr datasets)).
Proof.
  intros Htree Hbool Hsome. unfold importDataToPython.
  cbv [mbind M_bind read lift mret M_ret W_ret update assert].
  cbn [fst snd]. rewrite Htree. cbn [fst snd]. rewrite Hbool. cbn [fst snd].
  by rewrite Hsome.
Qed.

(** *** Entries *)

Lemma add_if_lookup_ne key value entry k :
  key ≠ k → add_if key value entry !! k = entry !! k.
Proof.
  intros Hne. unfold add_if. destruct (truthy value); [|done].
  by rewrite lookup_insert_ne.
Qed.

Lemma add_if_present key value entry :
  add_if key (present value) entry = add_if key value entry.
Proof. unfold add_if, present. by destruct (truthy value) eqn:Hv; [rewrite Hv|]. Qed.

Lemma add_if_blank_free key value entry :
  blank_free entry → blank_free (add_if key value entry).
Proof.
  intros Hentry k v Hk. unfold add_if.
  destruct (truthy value) eqn:Hvalue; [|by apply Hentry].
  destruct (decide (key = k)) as [->|Hne].
  - rewrite lookup_insert_eq. by intros [= <-].
  - rewrite lookup_insert_ne by done. by apply Hentry.
Qed.

Lemma full_entry_blank_free f : blank_free (full_entry f).
Proof.
  intros k v Hk. unfold full_entry.
  rewrite !lookup_insert_ne, lookup_singleton_ne; [done|..];
    intros <-; revert Hk; by apply (bool_decide_unpack _).
Qed.

Lemma abbrev_entry_blank_free f : blank_free (abbrev_entry f).
Proof.
  unfold abbrev_entry. do 3 apply add_if_blank_free.
  intros k v Hk. rewrite lookup_insert_ne, lookup_singleton_ne; [done|..];
    intros <-; revert Hk; by apply (bool_decide_unpack _).
Qed.

Lemma name_entry_blank_free f : blank_free (name_entry f).
Proof.
  unfold name_entry. do 3 apply add_if_blank_free.
  intros k v Hk. rewrite lookup_insert_ne, lookup_singleton_ne; [done|..];
    intros <-; revert Hk; by apply (bool_decide_unpack _).
Qed.

Lemma language_entry_blank_free f : blank_free (language_entry f).
Proof.
  unfold language_entry. do 3 apply add_if_blank_free.
  intros k v Hk. rewrite lookup_insert_ne, lookup_singleton_ne; [done|..];
    intros <-; revert Hk; by apply (bool_decide_unpack _).
Qed.

Lemma publisher_entry_blank_free f : blank_free (publisher_entry f).
Proof.
  unfold publisher_entry. do 2 apply add_if_blank_free. apply full_entry_blank_free.
Qed.

Lemma licence_entry_blank_free f : blank_free (licence_entry f).
Proof.
  unfold licence_entry. do 2 apply add_if_blank_free. apply full_entry_blank_free.
Qed.

Lemma webLink_entry_blank_free f : blank_free (webLink_entry f).
Proof.
  unfold webLink_entry. do 2 apply add_if_blank_free. apply full_entry_blank_free.
Qed.

Lemma abbrev_entry_versionName f :
  abbrev_entry f !! "versionName" = Some (versionName f).
Proof.
  unfold abbrev_entry. rewrite !add_if_lookup_ne by done.
  by rewrite lookup_insert_ne, lookup_singleton_eq.
Qed.

Lemma abbrev_entry_languageCode f :
  abbrev_entry f !! "languageCode" = Some (languageCode f).
Proof.
  unfold abbrev_entry. rewrite !add_if_lookup_ne by done.
  by rewrite lookup_insert_eq.
Qed.

Lemma filter_none {A} (P : A → Prop) `{∀ x, Decision (P x)} (l : list A) :
  (∀ x, x ∈ l → ¬ P x) → filter P l = [].
Proof.
  induction l as [|x l IH]; intros Hnone; [done|].
  rewrite filter_cons_False by (apply Hnone; left).
  apply IH. intros y Hy. apply Hnone. by right.
Qed.

(** The entry of a record is found under its abbreviation when no later
    record carries the same abbreviation. *)
Lemma abbrev_dict_last (before : list Fields) (f : Fields) (after : list Fields)
    (d : gmap PyStr Entry) :
  mainAbbreviation f ∉ (mainAbbreviation <$> after) →
  foldl (λ d f, <[mainAbbreviation f := abbrev_entry f]> d) d
        (before ++ f :: after) !! mainAbbreviation f
  = Some (abbrev_entry f).
Proof.
  intros Hlast. rewrite abbrev_dict_lookup, filter_app, filter_cons_True by done.
  assert (filter (λ g, mainAbbreviation g = mainAbbreviation f) after = []) as ->.
  { apply filter_none. intros g Hg Heq.
    apply Hlast. rewrite <- Heq. by apply list_elem_of_fmap_2. }
  by rewrite last_snoc.
Qed.

(** *** Blank optional fields *)

Lemma truthy_present value : truthy (present value) = truthy value.
Proof. unfold present. by destruct (truthy value) eqn:Hv. Qed.

Lemma put_fields_blank_as_absent f t :
  put_fields (blank_as_absent f) t = put_fields f t.
Proof.
  unfold put_fields, abbrev_entry, name_entry, language_entry, publisher_entry,
    licence_entry, webLink_entry, full_entry, blank_as_absent.
  cbn [mainAbbreviation versionName languageCode publisherName licence webLink].
  rewrite !add_if_present, !truthy_present.
  unfold present.
  by destruct (truthy (publisherName f)), (truthy (licence f)),
    (truthy (webLink f)).
Qed.

Lemma tables_of_blank_as_absent (fs : list Fields) :
  ∀ t, tables_of (blank_as_absent <$> fs) t = tables_of fs t.
Proof.
  induction fs as [|f fs IH]; intros t; [done|].
  simpl. by rewrite put_fields_blank_as_absent, IH.
Qed.

Lemma datasets_of_blank_as_absent (fs : list Fields) :
  datasets_of (blank_as_absent <$> fs) = datasets_of fs.
Proof. unfold datasets_of. by rewrite tables_of_blank_as_absent. Qed.

Lemma mainAbbreviation_blank_as_absent (fs : list Fields) :
  mainAbbreviation <$> (blank_as_absent <$> fs) = mainAbbreviation <$> fs.
Proof. rewrite <- list_fmap_compose. by apply list_fmap_ext. Qed.

(** The views of the data sets, read key by key. *)
Lemma datasets_of_AbbreviationsList fs :
  AbbreviationsList (datasets_of fs) = merge_sort pystr_le (mainAbbreviation <$> fs).
Proof. unfold datasets_of. simpl. by rewrite tables_of_myAbbrevList. Qed.

Lemma datasets_of_AbbreviationsDict fs :
  AbbreviationsDict (datasets_of fs)
  = foldl (λ d f, <[mainAbbreviation f := abbrev_entry f]> d) ∅ fs.
Proof. unfold datasets_of. simpl. by rewrite tables_of_myAbbrevDict. Qed.

Lemma datasets_of_NamesDict fs k :
  NamesDict (datasets_of fs) !! k
  = bucket (name_entry <$> qualifying (λ _, true) versionName k fs).
Proof.
  unfold datasets_of. simpl. by rewrite tables_of_myNameDict, group_into_empty.
Qed.

Lemma datasets_of_LanguageDict fs k :
  LanguageDict (datasets_of fs) !! k
  = bucket (language_entry <$> qualifying (λ _, true) languageCode k fs).
Proof.
  unfold datasets_of. simpl. by rewrite tables_of_myLanguageDict, group_into_empty.
Qed.

Lemma datasets_of_PublisherDict fs k :
  PublisherDict (datasets_of fs) !! k
  = bucket (publisher_entry
            <$> qualifying (truthy ∘ publisherName) publisherName k fs).
Proof.
  unfold datasets_of. simpl. by rewrite tables_of_myPublisherDict, group_into_empty.
Qed.

Lemma datasets_of_LicenceDict fs k :
  LicenceDict (datasets_of fs) !! k
  = bucket (licence_entry <$> qualifying (truthy ∘ licence) licence k fs).
Proof.
  unfold datasets_of. simpl. by rewrite tables_of_myLicenseDict, group_into_empty.
Qed.

Lemma datasets_of_WebLinkDict fs k :
  WebLinkDict (datasets_of fs) !! k
  = bucket (webLink_entry <$> qualifying (truthy ∘ webLink) webLink k fs).
Proof.
  unfold datasets_of. simpl. by rewrite tables_of_myWebLinkDict, group_into_empty.
Qed.

Lemma bucket_Some entries entries' :
  bucket entries = Some entries' → entries' = entries.
Proof. destruct entries; [done|]. by intros [= <-]. Qed.

Lemma qualifying_blank_key (field : Fields → PyStr) k fs :
  truthy k = false → qualifying (truthy ∘ field) field k fs = [].
Proof.
  intros Hk. apply filter_none.
  intros f _ [Htruthy <-]. simpl in Htruthy. congruence.
Qed.

Lemma importable_nonempty tree : importable tree → ET.children tree ≠ [].
Proof.
  intros (Hbool & _). unfold ET.bool, ET.len in Hbool.
  by destruct (ET.children tree).
Qed.

(** ** Running a method step by step *)

Lemma prepend_nil {A} (r : Converter * W A) : prepend [] r = r.
Proof. by destruct r as [self [log res]]. Qed.

Lemma prepend_prepend {A} log1 log2 (r : Converter * W A) :
  prepend log1 (prepend log2 r) = prepend (log1 ++ log2) r.
Proof. unfold prepend. cbn [fst snd]. by rewrite app_assoc. Qed.

Lemma final_prepend {A} log (r : Converter * W A) : final (prepend log r) = final r.
Proof. done. Qed.

Lemma result_prepend {A} log (r : Converter * W A) :
  result (prepend log r) = result r.
Proof. done. Qed.

Lemma logged_prepend {A} log (r : Converter * W A) :
  logged (prepend log r) = log ++ logged r.
Proof. done. Qed.

Lemma run_bind {A B} (m : M A) (f : A → M B) self :
  (m ≫= f) self
  = match result (m self) with
    | inl e => (final (m self), (logged (m self), inl e))
    | inr a => prepend (logged (m self)) (f a (final (m self)))
    end.
Proof. reflexivity. Qed.

Lemma run_bind_returns {A B} (m : M A) (f : A → M B) self self' log a :
  m self = (self', (log, inr a)) → (m ≫= f) self = prepend log (f a self').
Proof. intros Hm. rewrite run_bind, Hm. reflexivity. Qed.

Lemma run_bind_raises {A B} (m : M A) (f : A → M B) self self' log e :
  m self = (self', (log, inl e)) → (m ≫= f) self = (self', (log, inl e)).
Proof. intros Hm. rewrite run_bind, Hm. reflexivity. Qed.

Lemma run_update {B} (g : Converter → Converter) (f : unit → M B) self :
  (update g ≫= f) self = f () (g self).
Proof. rewrite (run_bind_returns _ _ self (g self) [] ()) by done. apply prepend_nil. Qed.

Lemma run_read {A B} (field : Converter → A) (f : A → M B) self :
  (read field ≫= f) self = f (field self) self.
Proof.
  rewrite (run_bind_returns _ _ self self [] (field self)) by done.
  apply prepend_nil.
Qed.

Lemma run_assert {B} (b : bool) (f : unit → M B) self :
  (lift (assert b) ≫= f) self
  = if b then f () self else (self, ([], inl AssertionError)).
Proof.
  destruct b.
  - rewrite (run_bind_returns _ _ self self [] ()) by done. apply prepend_nil.
  - by rewrite (run_bind_raises _ _ self self [] AssertionError).
Qed.

Lemma run_emit {B} (records : list LogRecord) (f : unit → M B) self :
  (lift (emit records) ≫= f) self = prepend records (f () self).
Proof. by rewrite (run_bind_returns _ _ self self records ()). Qed.

Lemma run_logging {B} level message (f : unit → M B) self :
  (lift (logging level message) ≫= f) self
  = prepend [Log level message] (f () self).
Proof. by rewrite (run_bind_returns _ _ self self [Log level message] ()). Qed.

Lemma run_try {A B} (r : Exception + A) (f : A → M B) self :
  (lift (try r) ≫= f) self
  = match r with
    | inl e => (self, ([], inl e))
    | inr a => f a self
    end.
Proof.
  destruct r as [e|a].
  - by rewrite (run_bind_raises _ _ self self [] e).
  - rewrite (run_bind_returns _ _ self self [] a) by done. apply prepend_nil.
Qed.

(** ** The loader *)

Section LoaderFacts.

Context (parse : string → Element) (strictCheckingFlag : bool)
        (checkXMLNoText checkXMLNoTail checkXMLNoAttributes
         checkXMLNoSubelements : Element → string → list string).

Abbreviation load' :=
  (__load parse checkXMLNoText checkXMLNoTail checkXMLNoAttributes).
Abbreviation loadAndValidate' :=
  (loadAndValidate parse strictCheckingFlag checkXMLNoText checkXMLNoTail
                   checkXMLNoAttributes checkXMLNoSubelements).

(** What [load_header] does, case by case. *)
Lemma load_header_run header self :
  load_header checkXMLNoText checkXMLNoTail checkXMLNoAttributes header self
  = prepend (check_bare checkXMLNoText checkXMLNoTail checkXMLNoAttributes
               header "header")
      (if 1 <? ET.len header then
         (self, ([Log INFO UnexpectedElementsInHeader], inr ()))
       else if ET.len header =? 0 then
         (self, ([Log INFO MissingWorkElementInHeader], inr ()))
       else
         match ET.children header with
         | [] => (self, ([], inl IndexError))
         | work :: _ =>
             prepend (check_bare checkXMLNoText checkXMLNoTail
                        checkXMLNoAttributes work "work in header")
               (if bool_decide (ET.tag work = "work") then
                  match find_text work "version" with
                  | inl e => (self, ([], inl e))
                  | inr version =>
                      match find_text work "date" with
                      | inl e => (set_PROGRAM_VERSION version self, ([], inl e))
                      | inr date =>
                          match find_text work "title" with
                          | inl e =>
                              (set_dateString date
                                 (set_PROGRAM_VERSION version self), ([], inl e))
                          | inr title =>
                              (set_titleString title
                                 (set_dateString date
                                    (set_PROGRAM_VERSION version self)),
                               ([], inr ()))
                          end
                      end
                  end
                else
                  (self, ([Log WARNING MissingWorkElementInHeader], inr ())))
         end).
Proof.
  unfold load_header. rewrite run_emit. f_equal.
  destruct (1 <? ET.len header); [done|].
  destruct (ET.len header =? 0); [done|].
  destruct (ET.children header) as [|work others]; [done|].
  rewrite run_emit. f_equal.
  case_bool_decide; [|done].
  rewrite run_try. destruct (find_text work "version") as [e|version]; [done|].
  rewrite run_update, run_try.
  destruct (find_text work "date") as [e|date]; [done|].
  rewrite run_update, run_try.
  by destruct (find_text work "title") as [e|title].
Qed.

(** What [__load] does on a fresh instance, once the root is parsed and has
    children. *)
Lemma load_run path self :
  path ≠ "" →
  _XMLTree self = None →
  ET.bool (parse path) = true →
  load' path self
  = let root := parse path in
    let self1 := set__XMLTree root (set___XMLFileOrFilepath path self) in
    if bool_decide (ET.tag root = _treeTag) then
      match ET.children root with
      | [] => (self1, ([], inl IndexError))
      | header :: _ =>
          let r :=
            if bool_decide (ET.tag header = _headerTag)
            then load_header checkXMLNoText checkXMLNoTail checkXMLNoAttributes
                   header (set__XMLTree (ET.remove root 0)
                             (set_XMLheader header self1))
            else (self1, ([Log WARNING (MissingHeaderElement _headerTag)], inr ()))
          in
          match result r with
          | inl e => r
          | inr _ => (final r, (logged r ++ tail_after_header header, inr ()))
          end
      end
    else (self1, ([Log ERROR (ExpectedToLoad _treeTag (ET.tag root))], inr ())).
Proof.
  intros Hpath Htree Hbool. unfold __load.
  rewrite run_assert, (bool_decide_eq_false_2 (path = "")) by done.
  cbn [negb]. rewrite run_update, run_read.
  cbn [set___XMLFileOrFilepath _XMLTree]. rewrite Htree.
  rewrite run_assert, run_update, run_assert, Hbool.
  cbn zeta. case_bool_decide; [|done].
  destruct (ET.children (parse path)) as [|header rest]; [done|].
  rewrite run_bind. unfold tail_after_header.
  case_bool_decide.
  - rewrite run_update, run_update.
    destruct (load_header _ _ _ header _) as [self2 [log [e|[]]]];
      unfold result, final, logged; cbn [fst snd]; [done|].
    by destruct (has_stray_text _).
  - unfold result, final, logged. cbn [fst snd lift logging].
    by destruct (has_stray_text _).
Qed.

(** A root whose tag is not the expected one: an error is logged, the
    whole tree is kept, and [__load] returns. *)
Lemma load_other_tag path self :
  path ≠ "" →
  _XMLTree self = None →
  ET.bool (parse path) = true →
  ET.tag (parse path) ≠ _treeTag →
  load' path self
  = (set__XMLTree (parse path) (set___XMLFileOrFilepath path self),
     ([Log ERROR (ExpectedToLoad _treeTag (ET.tag (parse path)))], inr ())).
Proof.
  intros Hpath Htree Hbool Htag. unfold __load.
  cbv [mbind M_bind W_bind read lift mret M_ret W_ret update assert logging].
  cbn [fst snd]. rewrite (bool_decide_eq_false_2 (path = "")) by done.
  cbn [fst snd negb set___XMLFileOrFilepath _XMLTree]. rewrite Htree.
  cbn [fst snd]. rewrite Hbool. cbn [fst snd].
  rewrite (bool_decide_eq_false_2 (ET.tag (parse path) = _treeTag)) by done.
  reflexivity.
Qed.

(** A second call on a loaded instance. *)
Lemma loadAndValidate_again self tree loaded source :
  _XMLTree self = Some tree →
  __XMLFileOrFilepath self = Some loaded →
  loadAndValidate' source self
  = (self,
     (match source with
      | Some given => if bool_decide (given ≠ loaded)
                      then [Log ERROR (AlreadyLoaded given)] else []
      | None => []
      end, inr ())).
Proof.
  intros Htree Hpath. unfold loadAndValidate.
  cbv [mbind M_bind W_bind read lift mret M_ret W_ret update assert logging].
  cbn [fst snd]. rewrite Htree. cbn [fst snd].
  destruct source as [given|]; [|done].
  cbn [fst snd]. rewrite Hpath. cbn [fst snd].
  by case_bool_decide.
Qed.

(** Whatever [__load] does after it has parsed a root with children, the
    instance then holds the source and the tree with every record, and the
    data sets are untouched. *)
Lemma load_keeps_records path self :
  path ≠ "" →
  _XMLTree self = None →
  ET.bool (parse path) = true →
  _XMLTree (final (load' path self)) = Some (loaded_tree (parse path))
  ∧ __XMLFileOrFilepath (final (load' path self)) = Some path
  ∧ __DataSets (final (load' path self)) = __DataSets self.
Proof.
  intros Hpath Htree Hbool. rewrite load_run by done. unfold loaded_tree. cbn zeta.
  case_bool_decide; [|by destruct (ET.children _)].
  destruct (ET.children (parse path)) as [|header rest]; [done|].
  case_bool_decide; [|done]. rewrite load_header_run. cbn [andb].
  unfold result, final, logged, prepend.
  destruct (1 <? ET.len header); [done|].
  destruct (ET.len header =? 0); [done|].
  destruct (ET.children header) as [|work ?]; [done|].
  case_bool_decide; [|done].
  destruct (find_text work "version"); [done|].
  destruct (find_text work "date"); [done|].
  by destruct (find_text work "title").
Qed.

(** A header that is missing, or that has not exactly one child, or whose
    only child is not a work element: [__load] returns, the header fields
    of the instance stay as they were, and the log holds a warning or an
    information about it. *)
Lemma load_tolerates_header path self :
  path ≠ "" →
  _XMLTree self = None →
  ET.bool (parse path) = true →
  ET.tag (parse path) = _treeTag →
  (∀ work, ¬ header_with_work (parse path) work) →
  result (load' path self) = inr ()
  ∧ titleString (final (load' path self)) = titleString self
  ∧ PROGRAM_VERSION (final (load' path self)) = PROGRAM_VERSION self
  ∧ dateString (final (load' path self)) = dateString self
  ∧ Exists is_notice (logged (load' path self)).
Proof.
  intros Hpath Htree Hbool Htag Hheader. rewrite load_run by done. cbn zeta.
  rewrite bool_decide_eq_true_2 by done.
  destruct (ET.children (parse path)) as [|header rest] eqn:Hchildren.
  { unfold ET.bool, ET.len in Hbool. by rewrite Hchildren in Hbool. }
  case_bool_decide as Hhead.
  - rewrite load_header_run. unfold ET.len.
    destruct (ET.children header) as [|work [|more others]] eqn:Hwork;
      cbn [length Nat.ltb Nat.leb Nat.eqb].
    + unfold result, final, logged, prepend. cbn [fst snd]. split_and!; try done.
      rewrite ?Exists_app, ?Exists_cons; simpl; tauto.
    + case_bool_decide as Hworktag.
      { destruct (Hheader work). by exists header, rest. }
      unfold result, final, logged, prepend. cbn [fst snd]. split_and!; try done.
      rewrite ?Exists_app, ?Exists_cons; simpl; tauto.
    + unfold result, final, logged, prepend. cbn [fst snd]. split_and!; try done.
      rewrite ?Exists_app, ?Exists_cons; simpl; tauto.
  - unfold result, final, logged. cbn [fst snd]. split_and!; try done.
    rewrite ?Exists_app, ?Exists_cons; simpl; tauto.
Qed.

(** A header with a work element that carries version, date and title:
    [__load] returns with the three values in the instance. *)
Lemma load_reads_header path self work version date title :
  path ≠ "" →
  _XMLTree self = None →
  ET.bool (parse path) = true →
  ET.tag (parse path) = _treeTag →
  header_with_work (parse path) work →
  find_text work "version" = inr version →
  find_text work "date" = inr date →
  find_text work "title" = inr title →
  result (load' path self) = inr ()
  ∧ PROGRAM_VERSION (final (load' path self)) = version
  ∧ dateString (final (load' path self)) = date
  ∧ titleString (final (load' path self)) = title.
Proof.
  intros Hpath Htree Hbool Htag (header & rest & Hchildren & Hhead & Hwork & Hworktag)
    Hversion Hdate Htitle.
  rewrite load_run by done. cbn zeta.
  rewrite bool_decide_eq_true_2, Hchildren, bool_decide_eq_true_2 by done.
  rewrite load_header_run. unfold ET.len. rewrite Hwork.
  cbn [length Nat.ltb Nat.leb Nat.eqb].
  rewrite bool_decide_eq_true_2, Hversion, Hdate, Htitle by done.
  done.
Qed.

(** A header with a work element that lacks the version, the date or the
    title: [__load] raises [AttributeError]. *)
Lemma load_raises_on_incomplete_work path self work name :
  path ≠ "" →
  _XMLTree self = None →
  ET.bool (parse path) = true →
  ET.tag (parse path) = _treeTag →
  header_with_work (parse path) work →
  name ∈ ["version"; "date"; "title"] →
  ET.find work name = None →
  result (load' path self) = inl AttributeError.
Proof.
  intros Hpath Htree Hbool Htag (header & rest & Hchildren & Hhead & Hwork & Hworktag)
    Hname Hmissing.
  rewrite load_run by done. cbn zeta.
  rewrite bool_decide_eq_true_2, Hchildren, bool_decide_eq_true_2 by done.
  rewrite load_header_run. unfold ET.len. rewrite Hwork.
  cbn [length Nat.ltb Nat.leb Nat.eqb].
  rewrite bool_decide_eq_true_2 by done. unfold find_text.
  repeat (apply elem_of_cons in Hname as [->|Hname]);
    [| | |by apply elem_of_nil in Hname]; rewrite ?Hmissing.
  - done.
  - by destruct (ET.find work "version").
  - destruct (ET.find work "version"); [|done].
    by destruct (ET.find work "date").
Qed.

(** The first call of [loadAndValidate] runs [__load] on the given source,
    or on the default one, and then [__validate] when the strictness flag is
    set. *)
Lemma loadAndValidate_first source self :
  _XMLTree self = None →
  loadAndValidate' source self
  = (load' (default default_filepath source)
     ≫= λ _, if strictCheckingFlag
              then __validate checkXMLNoText checkXMLNoTail checkXMLNoAttributes
                     checkXMLNoSubelements
              else mret ()) self.
Proof.
  intros Htree. unfold loadAndValidate.
  cbv [mbind M_bind read mret M_ret W_ret]. cbn [fst snd].
  rewrite Htree. cbn [fst snd app].
  by destruct (load' _ self) as [self' [log [e|[]]]].
Qed.

(** [__load] stores its source before it stores a tree. *)
Lemma load_source path self :
  _XMLTree self = None →
  is_Some (_XMLTree (final (load' path self))) →
  __XMLFileOrFilepath (final (load' path self)) = Some path.
Proof.
  intros Htree. unfold __load.
  rewrite run_assert. case_bool_decide as Hpath; cbn [negb].
  { unfold final. cbn [fst]. rewrite Htree. by intros [? ?]. }
  intros _. rewrite run_update, run_read.
  cbn [set___XMLFileOrFilepath _XMLTree]. rewrite Htree.
  rewrite run_assert, run_update, run_assert.
  destruct (ET.bool (parse path)) eqn:Hbool; [|done].
  pose proof (load_keeps_records path self Hpath Htree Hbool) as (_ & Hsource & _).
  revert Hsource. unfold __load.
  rewrite run_assert, (bool_decide_eq_false_2 (path = "")) by done.
  cbn [negb]. rewrite run_update, run_read.
  cbn [set___XMLFileOrFilepath _XMLTree]. rewrite Htree.
  by rewrite run_assert, run_update, run_assert, Hbool.
Qed.

(** [__validate] only reads the instance. *)
Lemma validate_final self :
  final (__validate checkXMLNoText checkXMLNoTail checkXMLNoAttributes
           checkXMLNoSubelements self) = self.
Proof.
  unfold __validate, final.
  cbv [mbind M_bind read lift mret M_ret W_ret]. cbn [fst snd].
  by destruct (_XMLTree self).
Qed.

(** [importDataToPython] changes nothing but the data sets. *)
Lemma importDataToPython_final self :
  _XMLTree (final (importDataToPython self)) = _XMLTree self
  ∧ __XMLFileOrFilepath (final (importDataToPython self)) = __XMLFileOrFilepath self.
Proof.
  unfold importDataToPython, final.
  cbv [mbind M_bind W_bind read lift mret M_ret W_ret update assert raise].
  cbn [fst snd]. destruct (_XMLTree self) as [tree|] eqn:Htree; [|done].
  cbn [fst snd]. destruct (ET.bool tree); cbn [fst snd]; [|done].
  destruct (__DataSets self); cbn [fst snd]; [done|].
  destruct (for_each _ _ _) as [log1 [e|t]]; cbn [fst snd]; [done|].
  by destruct (sorted _) as [log2 [e|l]].
Qed.

(** Every instance that holds a tree holds the source of the tree. *)
Lemma reachable_has_source self :
  reachable parse strictCheckingFlag checkXMLNoText checkXMLNoTail
            checkXMLNoAttributes checkXMLNoSubelements self →
  is_Some (_XMLTree self) → is_Some (__XMLFileOrFilepath self).
Proof.
  induction 1 as [|source self Hreach IH|self Hreach IH].
  - by intros [? ?].
  - destruct (_XMLTree self) as [tree|] eqn:Htree.
    + assert (final (loadAndValidate' source self) = self) as ->; [|by rewrite Htree].
      unfold loadAndValidate, final.
      cbv [mbind M_bind W_bind read lift mret M_ret W_ret logging raise].
      cbn [fst snd]. rewrite Htree. cbn [fst snd].
      destruct source as [given|]; [|done]. cbn [fst snd].
      destruct (__XMLFileOrFilepath self); [|done]. cbn [fst snd].
      by case_bool_decide.
    + rewrite loadAndValidate_first by done.
      pose proof (load_source (default default_filepath source) self Htree) as Hsource.
      unfold final in *. cbv [mbind M_bind]. cbn [fst snd].
      destruct (load' _ self) as [self' [log [e|[]]]]; cbn [fst snd] in *.
      * intros Hsome. rewrite Hsource by done. by eexists.
      * destruct strictCheckingFlag.
        -- pose proof (validate_final self') as Hfinal. unfold final in Hfinal.
           rewrite Hfinal. intros Hsome. rewrite Hsource by done. by eexists.
        -- cbv [mret M_ret]. cbn [fst snd].
           intros Hsome. rewrite Hsource by done. by eexists.
  - destruct (importDataToPython_final self) as [-> ->]. done.
Qed.

(** [__load] never touches the data sets. *)
Lemma load_datasets path self :
  __DataSets (final (load' path self)) = __DataSets self.
Proof.
  unfold __load.
  rewrite run_assert. case_bool_decide as Hpath; cbn [negb]; [done|].
  rewrite run_update, run_read. cbn [set___XMLFileOrFilepath _XMLTree].
  rewrite run_assert.
  assert (∀ self', __DataSets self' = __DataSets self →
            __DataSets
              (final
                 ((update (set__XMLTree (parse path))
                   ≫= λ _, lift (assert (ET.bool (parse path)))
                   ≫= λ _,
                     if bool_decide (ET.tag (parse path) = _treeTag)
                     then
                       match ET.children (parse path) with
                       | [] => lift (raise IndexError)
                       | header :: _ =>
                           (if bool_decide (ET.tag header = _headerTag)
                            then
                              update (set_XMLheader header)
                              ≫= λ _, update (set__XMLTree (ET.remove (parse path) 0))
                              ≫= λ _, load_header checkXMLNoText checkXMLNoTail
                                        checkXMLNoAttributes header
                            else lift (logging WARNING (MissingHeaderElement _headerTag)))
                           ≫= λ _,
                             match has_stray_text (ET.tail header) with
                             | Some tail =>
                                 lift (logging ERROR (UnexpectedTailAfterHeader tail))
                             | None => mret ()
                             end
                       end
                     else lift (logging ERROR
                                  (ExpectedToLoad _treeTag (ET.tag (parse path)))))
                    self')) = __DataSets self) as Hrest.
  { intros self' Hsame. rewrite run_update, run_assert.
    destruct (ET.bool (parse path)); [|done].
    case_bool_decide; [|done].
    destruct (ET.children (parse path)) as [|header rest]; [done|].
    rewrite run_bind. case_bool_decide.
    - rewrite run_update, run_update, load_header_run.
      unfold result, final, logged, prepend.
      destruct (1 <? ET.len header); cbn [fst snd].
      { by destruct (has_stray_text _). }
      destruct (ET.len header =? 0); cbn [fst snd].
      { by destruct (has_stray_text _). }
      destruct (ET.children header) as [|work ?]; cbn [fst snd]; [done|].
      case_bool_decide; cbn [fst snd].
      + destruct (find_text work "version"); cbn [fst snd]; [done|].
        destruct (find_text work "date"); cbn [fst snd]; [done|].
        destruct (find_text work "title"); cbn [fst snd]; [done|].
        by destruct (has_stray_text _).
      + by destruct (has_stray_text _).
    - unfold result, final, logged. cbn [fst snd lift logging].
      by destruct (has_stray_text _). }
  destruct (_XMLTree self) as [t|].
  - destruct (ET.len t =? 0); [|done]. by apply Hrest.
  - by apply Hrest.
Qed.

(** On an instance that holds a tree, [loadAndValidate] changes nothing. *)
Lemma loadAndValidate_again_final source self :
  is_Some (_XMLTree self) → final (loadAndValidate' source self) = self.
Proof.
  intros [tree Htree]. unfold loadAndValidate, final.
  cbv [mbind M_bind W_bind read lift mret M_ret W_ret logging raise].
  cbn [fst snd]. rewrite Htree. cbn [fst snd].
  destruct source as [given|]; [|done]. cbn [fst snd].
  destruct (__XMLFileOrFilepath self); [|done]. cbn [fst snd].
  by case_bool_decide.
Qed.

(** [loadAndValidate] never touches the data sets. *)
Lemma loadAndValidate_datasets source self :
  __DataSets (final (loadAndValidate' source self)) = __DataSets self.
Proof.
  destruct (_XMLTree self) as [tree|] eqn:Htree.
  - by rewrite loadAndValidate_again_final by (by rewrite Htree).
  - rewrite loadAndValidate_first by done.
    pose proof (load_datasets (default default_filepath source) self) as Hload.
    unfold final in *. cbv [mbind M_bind]. cbn [fst snd].
    destruct (load' _ self) as [self' [log [e|[]]]]; cbn [fst snd] in *; [done|].
    destruct strictCheckingFlag.
    + pose proof (validate_final self') as Hfinal. unfold final in Hfinal.
      by rewrite Hfinal.
    + done.
Qed.

(** The data sets that an instance has in store are those of its tree. *)
Lemma reachable_cache_consistent self :
  reachable parse strictCheckingFlag checkXMLNoText checkXMLNoTail
            checkXMLNoAttributes checkXMLNoSubelements self →
  cache_consistent self.
Proof.
  induction 1 as [|source self Hreach IH|self Hreach IH].
  - done.
  - destruct (_XMLTree self) as [tree|] eqn:Htree.
    + by rewrite loadAndValidate_again_final by (by rewrite Htree).
    + unfold cache_consistent in *. rewrite loadAndValidate_datasets.
      destruct (__DataSets self); [|done].
      destruct IH as (tree & Hsome & _). congruence.
  - unfold cache_consistent in IH.
    destruct (__DataSets self) as [datasets|] eqn:Hcache.
    + destruct IH as (tree & Htree & Himportable & ->).
      rewrite (importDataToPython_cached self tree (datasets_of (records tree)))
        by (done || apply Himportable).
      unfold final, cache_consistent. cbn [fst]. rewrite Hcache. eauto.
    + destruct (_XMLTree self) as [tree|] eqn:Htree.
      * destruct (decide (importable tree)) as [Himportable|Hnot].
        -- rewrite (importDataToPython_fresh self tree) by done.
           unfold final, cache_consistent. cbn [fst set___DataSets __DataSets _XMLTree].
           eauto.
        -- destruct (importDataToPython_raises self tree Htree Hcache Hnot)
             as [e ->].
           unfold final, cache_consistent. cbn [fst]. by rewrite Hcache.
      * assert (importDataToPython self = (self, ([], inl AssertionError))) as ->.
        { unfold importDataToPython.
          cbv [mbind M_bind W_bind read lift mret M_ret W_ret raise].
          cbn [fst snd]. by rewrite Htree. }
        unfold final, cache_consistent. cbn [fst]. by rewrite Hcache.
Qed.

(** On every instance that holds an importable tree, [importDataToPython]
    returns the data sets of its records and logs nothing. *)
Lemma importDataToPython_reachable self tree :
  reachable parse strictCheckingFlag checkXMLNoText checkXMLNoTail
            checkXMLNoAttributes checkXMLNoSubelements self →
  _XMLTree self = Some tree →
  importable tree →
  result (importDataToPython self) = inr (datasets_of (records tree))
  ∧ logged (importDataToPython self) = [].
Proof.
  intros Hreach Htree Himportable.
  apply reachable_cache_consistent in Hreach. unfold cache_consistent in Hreach.
  destruct (__DataSets self) as [datasets|] eqn:Hcache.
  - destruct Hreach as (tree' & Htree' & _ & ->).
    assert (tree' = tree) as -> by congruence.
    by rewrite (importDataToPython_cached self tree (datasets_of (records tree)))
      by (done || apply Himportable).
  - by rewrite (importDataToPython_fresh self tree).
Qed.

(** On every instance whose tree is not importable, it raises, logs nothing
    and leaves the instance as it is. *)
Lemma importDataToPython_reachable_raises self tree :
  reachable parse strictCheckingFlag checkXMLNoText checkXMLNoTail
            checkXMLNoAttributes checkXMLNoSubelements self →
  _XMLTree self = Some tree →
  ¬ importable tree →
  ∃ e, importDataToPython self = (self, ([], inl e)).
Proof.
  intros Hreach Htree Hnot.
  apply reachable_cache_consistent in Hreach. unfold cache_consistent in Hreach.
  destruct (__DataSets self) as [datasets|] eqn:Hcache.
  - destruct Hreach as (tree' & Htree' & Himportable & _).
    assert (tree' = tree) as -> by congruence. done.
  - by apply (importDataToPython_raises self tree).
Qed.

End LoaderFacts.

(** *** What [importDataToPython] changes *)

(** The instance after [importDataToPython], field by field. *)
Lemma importDataToPython_frame self :
  let r := importDataToPython self in
  logged r = []
  ∧ _XMLTree (final r) = _XMLTree self
  ∧ __XMLFileOrFilepath (final r) = __XMLFileOrFilepath self
  ∧ XMLheader (final r) = XMLheader self
  ∧ titleString (final r) = titleString self
  ∧ PROGRAM_VERSION (final r) = PROGRAM_VERSION self
  ∧ dateString (final r) = dateString self
  ∧ __DataSets (final r) = match result r with
                           | inr datasets => Some datasets
                           | inl _ => __DataSets self
                           end.
Proof.
  destruct (_XMLTree self) as [tree|] eqn:Htree.
  - destruct (ET.bool tree) eqn:Hbool.
    + destruct (__DataSets self) as [datasets|] eqn:Hcache.
      * by rewrite (importDataToPython_cached self tree datasets).
      * destruct (decide (importable tree)) as [Himportable|Hnot].
        -- by rewrite (importDataToPython_fresh self tree).
        -- destruct (importDataToPython_raises self tree Htree Hcache Hnot)
             as [e ->].
           by cbn.
    + unfold importDataToPython. rewrite run_read, Htree.
      rewrite run_assert, Hbool. by cbn.
  - unfold importDataToPython. rewrite run_read, Htree. by cbn.
Qed.


(** ** More on the loader *)

Section LoaderEdges.

Context (parse : string → Element) (strictCheckingFlag : bool)
        (checkXMLNoText checkXMLNoTail checkXMLNoAttributes
         checkXMLNoSubelements : Element → string → list string).

(** A root without children: the source and the empty tree are stored
    before the assertion fails. *)
Lemma load_childless path self :
  path ≠ "" →
  _XMLTree self = None →
  ET.bool (parse path) = false →
  __load parse checkXMLNoText checkXMLNoTail checkXMLNoAttributes path self
  = (set__XMLTree (parse path) (set___XMLFileOrFilepath path self),
     ([], inl AssertionError)).
Proof.
  intros Hpath Htree Hbool. unfold __load.
  cbv [mbind M_bind W_bind read lift mret M_ret W_ret update assert logging raise].
  cbn [fst snd]. rewrite (bool_decide_eq_false_2 (path = "")) by done.
  cbn [fst snd negb set___XMLFileOrFilepath _XMLTree]. rewrite Htree.
  cbn [fst snd]. rewrite Hbool. reflexivity.
Qed.

(** An empty source: the assertion fails before anything is stored. *)
Lemma load_empty_source self :
  __load parse checkXMLNoText checkXMLNoTail checkXMLNoAttributes "" self
  = (self, ([], inl AssertionError)).
Proof. reflexivity. Qed.

End LoaderEdges.

(** ** More on validation *)

Lemma count_reports_XMLCheck_any p reports :
  (∀ s, p (XMLCheck s) = false) → count_reports p (XMLCheck <$> reports) = 0.
Proof.
  intros Hp. apply count_reports_none, Forall_fmap, Forall_forall.
  intros s _. apply Hp.
Qed.

Lemma Forall_bind_intro {A B} (P : B → Prop) (f : A → list B) (l : list A) :
  (∀ x, Forall P (f x)) → Forall P (l ≫= f).
Proof.
  intros Hf. induction l as [|x l IH]; [constructor|].
  change (Forall P (f x ++ (l ≫= f))). apply Forall_app. by split.
Qed.

(** No record of a piece of log is selected: the pieces are taken apart
    down to single records, on which the test is computed. *)
Ltac silent :=
  repeat match goal with
         | |- Forall _ (_ ++ _) => apply Forall_app; split
         | |- Forall _ (_ ≫= _) => apply Forall_bind_intro; intros
         | |- Forall _ (_ <$> _) =>
             apply Forall_fmap, Forall_true; intros; reflexivity
         | |- Forall _ (match ?x with _ => _ end) => destruct x
         | |- Forall _ [] => constructor
         | |- Forall _ (_ :: _) => constructor; [reflexivity|]
         end.

(** A loop over distinct names in which only the turn of one name adds to
    a count. *)
Lemma count_reports_names p (f : string → list LogRecord) (n : string) (v : nat)
    (names : list string) :
  NoDup names →
  (∀ x, count_reports p (f x) = if bool_decide (x = n) then v else 0) →
  count_reports p (names ≫= f) = if bool_decide (n ∈ names) then v else 0.
Proof.
  intros Hnodup Hf. induction Hnodup as [|x names Hx Hnames IH].
  - rewrite bool_decide_eq_false_2; [done|]. inversion 1.
  - change (count_reports p (f x ++ (names ≫= f))
            = if bool_decide (n ∈ x :: names) then v else 0).
    rewrite count_reports_app, Hf, IH.
    destruct (decide (x = n)) as [->|Hne].
    + rewrite bool_decide_eq_true_2 by done.
      rewrite (bool_decide_eq_false_2 (n ∈ names)) by done.
      rewrite bool_decide_eq_true_2 by by left. lia.
    + rewrite bool_decide_eq_false_2 by done. simpl.
      rewrite (bool_decide_ext (n ∈ x :: names) (n ∈ names)); [done|].
      rewrite elem_of_cons. naive_solver.
Qed.

Lemma NoDup_optionalElements : NoDup _optionalElements.
Proof. apply (bool_decide_unpack _). by vm_compute. Qed.

Section ValidationRuns.

Context (checkXMLNoText checkXMLNoTail checkXMLNoAttributes
         checkXMLNoSubelements : Element → string → list string).

Abbreviation element_log' :=
  (element_log checkXMLNoText checkXMLNoTail checkXMLNoAttributes
               checkXMLNoSubelements).
Abbreviation elements_log' :=
  (elements_log checkXMLNoText checkXMLNoTail checkXMLNoAttributes
                checkXMLNoSubelements).

(** The dict of the values seen does not depend on what is logged. *)
Lemma check_unique_elements_dict element ID j ID' j' uniqueDict :
  (check_unique_elements element ID j uniqueDict).2
  = (check_unique_elements element ID' j' uniqueDict).2.
Proof.
  unfold check_unique_elements. generalize (@nil LogRecord) at 1.
  generalize (@nil LogRecord). revert uniqueDict.
  induction _uniqueElements as [|x names IH]; intros uniqueDict log log'; [done|].
  simpl. unfold check_unique_element at 2 4.
  destruct (ET.find element x); simpl; apply IH.
Qed.

(** One turn of the loop, on an element whose record ID is found. *)
Lemma validate_element_run element j uniqueDict :
  (is_main element → is_Some (ET.find element "referenceAbbreviation")) →
  validate_element checkXMLNoText checkXMLNoTail checkXMLNoAttributes
    checkXMLNoSubelements element j uniqueDict
  = (element_log' element j uniqueDict, inr (next_uniqueDict element uniqueDict)).
Proof.
  intros HID. unfold validate_element, element_log, next_uniqueDict, is_main in *.
  case_bool_decide as Hmain.
  - destruct (HID Hmain) as [r Hr].
    unfold validate_main_element, find_text, optional_text. rewrite Hr.
    change (check_unique_attributes element j uniqueDict)
      with (@nil LogRecord, uniqueDict).
    cbv [mbind W_bind mret W_ret report emit try logging].
    cbn [fst snd is_empty _compulsoryAttributes _optionalAttributes
         _compulsoryElements _optionalElements andb].
    f_equal.
    + change (check_compulsory_attributes element j) with (@nil LogRecord).
      change (check_optional_attributes element j) with (@nil LogRecord).
      cbn [app]. by rewrite <- !app_assoc, !app_nil_r.
    + f_equal. apply check_unique_elements_dict.
  - cbv [mbind W_bind mret W_ret report emit try logging].
    cbn [fst snd app]. by rewrite app_nil_r.
Qed.

(** One turn of the loop, on a record without the element that its ID is
    read from. *)
Lemma validate_element_raises element j uniqueDict :
  is_main element →
  ET.find element "referenceAbbreviation" = None →
  (validate_element checkXMLNoText checkXMLNoTail checkXMLNoAttributes
     checkXMLNoSubelements element j uniqueDict).2 = inl AttributeError.
Proof.
  intros Hmain Hnone. unfold validate_element, is_main in *.
  rewrite bool_decide_eq_true_2 by done.
  unfold validate_main_element, find_text. rewrite Hnone.
  cbv [mbind W_bind mret W_ret report emit try logging].
  cbn [fst snd is_empty _compulsoryAttributes _optionalAttributes
       _compulsoryElements _optionalElements andb]. done.
Qed.

(** The loop, when every record ID is found. *)
Lemma validate_elements_run elements :
  ∀ j uniqueDict,
    IDs_resolve elements →
    ∃ uniqueDict',
      validate_elements checkXMLNoText checkXMLNoTail checkXMLNoAttributes
        checkXMLNoSubelements j elements uniqueDict
      = (elements_log' j elements uniqueDict, inr uniqueDict').
Proof.
  induction elements as [|element elements IH]; intros j uniqueDict HIDs.
  - by exists uniqueDict.
  - apply Forall_cons in HIDs as [HID HIDs].
    destruct (IH (S j) (next_uniqueDict element uniqueDict) HIDs) as [ud' Hrest].
    exists ud'. cbn [validate_elements elements_log].
    rewrite validate_element_run by done.
    cbv [mbind W_bind]. cbn [fst snd]. by rewrite Hrest.
Qed.

(** The loop, when some record ID is not found. *)
Lemma validate_elements_raises elements :
  ∀ j uniqueDict,
    ¬ IDs_resolve elements →
    (validate_elements checkXMLNoText checkXMLNoTail checkXMLNoAttributes
       checkXMLNoSubelements j elements uniqueDict).2 = inl AttributeError.
Proof.
  induction elements as [|element elements IH]; intros j uniqueDict Hnot.
  - destruct Hnot. constructor.
  - cbn [validate_elements].
    destruct (decide (is_main element
                      → is_Some (ET.find element "referenceAbbreviation")))
      as [HID|HID].
    + rewrite validate_element_run by done.
      cbv [mbind W_bind]. cbn [fst snd]. apply IH.
      intros HIDs. apply Hnot. by constructor.
    + assert (is_main element
              ∧ ET.find element "referenceAbbreviation" = None) as [Hmain Hnone].
      { destruct (decide (is_main element)) as [Hmain|Hmain]; [|tauto].
        split; [done|]. destruct (ET.find element _) eqn:Hfind; [|done].
        destruct HID. eauto. }
      pose proof (validate_element_raises element j uniqueDict Hmain Hnone) as Hr.
      cbv [mbind W_bind].
      destruct (validate_element _ _ _ _ element j uniqueDict) as [log [e|ud]];
        cbn [fst snd] in *; congruence.
Qed.

(** A count that one record number alone adds to, over the whole loop. *)
Lemma count_elements_log p (value : Element → nat) (j0 : nat) :
  (∀ element j uniqueDict,
     count_reports p (element_log' element j uniqueDict)
     = if bool_decide (j = j0) then value element else 0) →
  ∀ elements j uniqueDict,
    count_reports p (elements_log' j elements uniqueDict)
    = if bool_decide (j ≤ j0)
      then from_option value 0 (elements !! (j0 - j)) else 0.
Proof.
  intros Hone. induction elements as [|element elements IH]; intros j uniqueDict.
  - by destruct (bool_decide _).
  - cbn [elements_log]. rewrite count_reports_app, Hone, IH.
    destruct (decide (j = j0)) as [->|Hne].
    + rewrite (bool_decide_eq_true_2 (j0 = j0)) by done.
      rewrite (bool_decide_eq_true_2 (j0 ≤ j0)) by lia.
      rewrite (bool_decide_eq_false_2 (S j0 ≤ j0)) by lia.
      replace (j0 - j0) with 0 by lia. simpl. lia.
    + rewrite (bool_decide_eq_false_2 (j = j0)) by done.
      destruct (decide (j ≤ j0)) as [Hle|Hgt].
      * rewrite !bool_decide_eq_true_2 by lia.
        replace (j0 - j) with (S (j0 - S j)) by lia. done.
      * by rewrite !bool_decide_eq_false_2 by lia.
Qed.

(** [__validate] as a whole, when every record ID is found. *)
Lemma validate_run self tree :
  _XMLTree self = Some tree →
  ET.bool tree = true →
  IDs_resolve (ET.children tree) →
  __validate checkXMLNoText checkXMLNoTail checkXMLNoAttributes
    checkXMLNoSubelements self
  = (self,
     (elements_log' 0 (ET.children tree) initial_uniqueDict
      ++ match has_stray_text (ET.tail tree) with
         | Some tail => [Log ERROR (UnexpectedTailAfterTree tail (ET.tag tree))]
         | None => []
         end, inr ())).
Proof.
  intros Htree Hbool HIDs.
  destruct (validate_elements_run (ET.children tree) 0 initial_uniqueDict HIDs)
    as [ud Hrun].
  unfold __validate, validate_tree.
  cbv [mbind M_bind W_bind read lift mret M_ret W_ret assert].
  cbn [fst snd]. rewrite Htree. cbn [fst snd]. rewrite Hbool. cbn [fst snd].
  rewrite Hrun. cbn [fst snd].
  by destruct (has_stray_text (ET.tail tree)).
Qed.

(** [__validate] as a whole, when some record ID is not found. *)
Lemma validate_raises self tree :
  _XMLTree self = Some tree →
  ET.bool tree = true →
  ¬ IDs_resolve (ET.children tree) →
  result (__validate checkXMLNoText checkXMLNoTail checkXMLNoAttributes
            checkXMLNoSubelements self) = inl AttributeError.
Proof.
  intros Htree Hbool Hnot.
  pose proof (validate_elements_raises (ET.children tree) 0 initial_uniqueDict Hnot)
    as Hraise.
  unfold __validate, validate_tree, result.
  cbv [mbind M_bind W_bind read lift mret M_ret W_ret assert].
  cbn [fst snd]. rewrite Htree. cbn [fst snd]. rewrite Hbool. cbn [fst snd].
  by rewrite Hraise.
Qed.


(** No record of a piece of log is selected, for a count. *)
Ltac count_silent :=
  apply count_reports_none;
  unfold check_additional_attributes, check_compulsory_elements,
    check_optional_elements, check_additional_elements, check_leaf,
    tail_after_element;
  silent.

Lemma count_unique_elements_silent p element ID j uniqueDict :
  (∀ text n ID j, p (Log ERROR (ElementRepeated text n ID j)) = false) →
  count_reports p (check_unique_elements element ID j uniqueDict).1 = 0.
Proof.
  intros Hp. unfold check_unique_elements, _uniqueElements. cbn [foldl].
  unfold check_unique_element.
  destruct (ET.find element "mainAbbreviation"); cbn [fst snd app];
    destruct (ET.find element "webLink"); cbn [fst snd app];
    repeat case_bool_decide; unfold count_reports; simpl; by rewrite ?Hp.
Qed.

(** Blank compulsory elements, in the loop over the compulsory names. *)
Lemma count_blank_in_compulsory element ID j n j0 :
  count_reports (reports_blank_compulsory n j0)
    (check_compulsory_elements checkXMLNoTail checkXMLNoAttributes
       checkXMLNoSubelements element ID j)
  = if bool_decide (n ∈ _compulsoryElements)
    then if bool_decide (j = j0) && is_blank element n then 1 else 0
    else 0.
Proof.
  unfold check_compulsory_elements, check_leaf.
  apply count_reports_names; [apply NoDup_compulsoryElements|].
  intros x. unfold is_blank.
  destruct (decide (x = n)) as [->|Hne].
  - rewrite (bool_decide_eq_true_2 (n = n)) by done.
    destruct (ET.find element n) as [found|]; [|by rewrite andb_false_r].
    rewrite count_reports_app, count_reports_XMLCheck_any by done.
    destruct (truthy (ET.text found)); [by rewrite andb_false_r|].
    unfold count_reports. simpl. rewrite andb_true_r.
    rewrite (bool_decide_ext (n = n ∧ j = j0) (j = j0)) by tauto.
    by destruct (bool_decide _).
  - rewrite (bool_decide_eq_false_2 (x = n)) by done.
    destruct (ET.find element x) as [found|]; [|done].
    rewrite count_reports_app, count_reports_XMLCheck_any by done.
    destruct (truthy (ET.text found)); [done|].
    unfold count_reports. simpl.
    by rewrite bool_decide_eq_false_2 by tauto.
Qed.


(** Blank optional elements, in the loop over the optional names. *)
Lemma count_blank_in_optional element ID j n j0 :
  count_reports (reports_blank_optional n j0)
    (check_optional_elements checkXMLNoTail checkXMLNoAttributes
       checkXMLNoSubelements element ID j)
  = if bool_decide (n ∈ _optionalElements)
    then if bool_decide (j = j0) && is_blank element n then 1 else 0
    else 0.
Proof.
  unfold check_optional_elements, check_leaf.
  apply count_reports_names; [apply NoDup_optionalElements|].
  intros x. unfold is_blank.
  destruct (decide (x = n)) as [->|Hne].
  - rewrite (bool_decide_eq_true_2 (n = n)) by done.
    destruct (ET.find element n) as [found|]; [|by rewrite andb_false_r].
    rewrite count_reports_app, count_reports_XMLCheck_any by done.
    destruct (truthy (ET.text found)); [by rewrite andb_false_r|].
    unfold count_reports. simpl. rewrite andb_true_r.
    rewrite (bool_decide_ext (n = n ∧ j = j0) (j = j0)) by tauto.
    by destruct (bool_decide _).
  - rewrite (bool_decide_eq_false_2 (x = n)) by done.
    destruct (ET.find element x) as [found|]; [|done].
    rewrite count_reports_app, count_reports_XMLCheck_any by done.
    destruct (truthy (ET.text found)); [done|].
    unfold count_reports. simpl.
    by rewrite bool_decide_eq_false_2 by tauto.
Qed.

(** Additional elements, in the loop over the children. *)
Lemma count_additional_in_children element ID j tag j0 :
  count_reports (reports_additional tag j0) (check_additional_elements element ID j)
  = if bool_decide (j = j0 ∧ tag ∉ _compulsoryElements ∧ tag ∉ _optionalElements)
    then length (children_tagged tag element) else 0.
Proof.
  unfold check_additional_elements, children_tagged.
  induction (ET.children element) as [|child children IH].
  - by destruct (bool_decide _).
  - match goal with |- count_reports ?p ((?x :: ?l) ≫= ?f) = ?rhs =>
      change (count_reports p (f x ++ (l ≫= f)) = rhs) end.
    rewrite count_reports_app, IH. clear IH. rewrite filter_cons.
    destruct (decide (ET.tag child = tag)) as [<-|Hne].
    + destruct (decide (j = j0 ∧ ET.tag child ∉ _compulsoryElements
                        ∧ ET.tag child ∉ _optionalElements)) as [(-> & H1 & H2)|Hno].
      * rewrite !bool_decide_eq_true_2 by done. unfold count_reports. simpl.
        by rewrite bool_decide_eq_true_2.
      * rewrite (bool_decide_eq_false_2 (j = j0 ∧ _)) by done.
        destruct (_ && _) eqn:Hboth; [|done].
        apply andb_true_iff in Hboth as [H1%bool_decide_eq_true H2%bool_decide_eq_true].
        unfold count_reports. simpl. rewrite bool_decide_eq_false_2; [done|].
        intros [_ ->]. by apply Hno.
    + assert (count_reports (reports_additional tag j0)
                (if bool_decide (ET.tag child ∉ _compulsoryElements)
                    && bool_decide (ET.tag child ∉ _optionalElements)
                 then [Log WARNING (AdditionalElement (ET.tag child)
                                      (ET.text child) ID j)]
                 else []) = 0) as ->; [|done].
      destruct (_ && _); [|done]. unfold count_reports. simpl.
      by rewrite bool_decide_eq_false_2 by tauto.
Qed.

(** The checks of one element: what they add to four counts. *)
Lemma count_blank_compulsory_element element j uniqueDict n j0 :
  count_reports (reports_blank_compulsory n j0) (element_log' element j uniqueDict)
  = if bool_decide (j = j0)
    then if bool_decide (is_main element ∧ n ∈ _compulsoryElements)
            && is_blank element n
         then 1 else 0
    else 0.
Proof.
  unfold element_log. case_bool_decide as Hmain.
  - rewrite !count_reports_app, !count_reports_XMLCheck_any by done.
    rewrite count_unique_elements_silent by done.
    rewrite count_blank_in_compulsory.
    assert (count_reports (reports_blank_compulsory n j0)
              (check_additional_attributes element j) = 0) as -> by count_silent.
    assert (∀ ID, count_reports (reports_blank_compulsory n j0)
              (check_optional_elements checkXMLNoTail checkXMLNoAttributes
                 checkXMLNoSubelements element ID j) = 0) as ->
      by (intros; count_silent).
    assert (∀ ID, count_reports (reports_blank_compulsory n j0)
              (check_additional_elements element ID j) = 0) as ->
      by (intros; count_silent).
    assert (count_reports (reports_blank_compulsory n j0)
              (tail_after_element element j) = 0) as -> by count_silent.
    rewrite (bool_decide_ext (is_main element ∧ n ∈ _compulsoryElements)
               (n ∈ _compulsoryElements)) by tauto.
    destruct (bool_decide (n ∈ _compulsoryElements)), (bool_decide (j = j0)),
      (is_blank element n); simpl; lia.
  - rewrite count_reports_app.
    assert (count_reports (reports_blank_compulsory n j0)
              (tail_after_element element j) = 0) as -> by count_silent.
    rewrite (bool_decide_eq_false_2 (is_main element ∧ _)) by tauto.
    by destruct (bool_decide _).
Qed.

Lemma count_blank_optional_element element j uniqueDict n j0 :
  count_reports (reports_blank_optional n j0) (element_log' element j uniqueDict)
  = if bool_decide (j = j0)
    then if bool_decide (is_main element ∧ n ∈ _optionalElements)
            && is_blank element n
         then 1 else 0
    else 0.
Proof.
  unfold element_log. case_bool_decide as Hmain.
  - rewrite !count_reports_app, !count_reports_XMLCheck_any by done.
    rewrite count_unique_elements_silent by done.
    rewrite count_blank_in_optional.
    assert (count_reports (reports_blank_optional n j0)
              (check_additional_attributes element j) = 0) as -> by count_silent.
    assert (∀ ID, count_reports (reports_blank_optional n j0)
              (check_compulsory_elements checkXMLNoTail checkXMLNoAttributes
                 checkXMLNoSubelements element ID j) = 0) as ->
      by (intros; count_silent).
    assert (∀ ID, count_reports (reports_blank_optional n j0)
              (check_additional_elements element ID j) = 0) as ->
      by (intros; count_silent).
    assert (count_reports (reports_blank_optional n j0)
              (tail_after_element element j) = 0) as -> by count_silent.
    rewrite (bool_decide_ext (is_main element ∧ n ∈ _optionalElements)
               (n ∈ _optionalElements)) by tauto.
    destruct (bool_decide (n ∈ _optionalElements)), (bool_decide (j = j0)),
      (is_blank element n); simpl; lia.
  - rewrite count_reports_app.
    assert (count_reports (reports_blank_optional n j0)
              (tail_after_element element j) = 0) as -> by count_silent.
    rewrite (bool_decide_eq_false_2 (is_main element ∧ _)) by tauto.
    by destruct (bool_decide _).
Qed.

Lemma count_additional_element element j uniqueDict tag j0 :
  count_reports (reports_additional tag j0) (element_log' element j uniqueDict)
  = if bool_decide (j = j0)
    then if bool_decide (is_main element ∧ tag ∉ _compulsoryElements
                         ∧ tag ∉ _optionalElements)
         then length (children_tagged tag element) else 0
    else 0.
Proof.
  unfold element_log. case_bool_decide as Hmain.
  - rewrite !count_reports_app, !count_reports_XMLCheck_any by done.
    rewrite count_unique_elements_silent by done.
    rewrite count_additional_in_children.
    assert (count_reports (reports_additional tag j0)
              (check_additional_attributes element j) = 0) as -> by count_silent.
    assert (∀ ID, count_reports (reports_additional tag j0)
              (check_compulsory_elements checkXMLNoTail checkXMLNoAttributes
                 checkXMLNoSubelements element ID j) = 0) as ->
      by (intros; count_silent).
    assert (∀ ID, count_reports (reports_additional tag j0)
              (check_optional_elements checkXMLNoTail checkXMLNoAttributes
                 checkXMLNoSubelements element ID j) = 0) as ->
      by (intros; count_silent).
    assert (count_reports (reports_additional tag j0)
              (tail_after_element element j) = 0) as -> by count_silent.
    destruct (decide (j = j0)) as [->|Hne].
    + rewrite (bool_decide_eq_true_2 (j0 = j0)) by done.
      rewrite (bool_decide_ext (j0 = j0 ∧ tag ∉ _compulsoryElements
                                ∧ tag ∉ _optionalElements)
                 (is_main element ∧ tag ∉ _compulsoryElements
                  ∧ tag ∉ _optionalElements)) by tauto.
      destruct (bool_decide _); lia.
    + rewrite (bool_decide_eq_false_2 (j = j0)) by done.
      by rewrite bool_decide_eq_false_2 by tauto.
  - rewrite count_reports_app.
    assert (count_reports (reports_additional tag j0)
              (tail_after_element element j) = 0) as -> by count_silent.
    rewrite (bool_decide_eq_false_2 (is_main element ∧ _)) by tauto.
    by destruct (bool_decide _).
Qed.

Lemma count_unexpected_element element j uniqueDict j0 :
  count_reports (reports_unexpected j0) (element_log' element j uniqueDict)
  = if bool_decide (j = j0)
    then if bool_decide (is_main element) then 0 else 1
    else 0.
Proof.
  unfold element_log. case_bool_decide as Hmain.
  - rewrite !count_reports_app, !count_reports_XMLCheck_any by done.
    rewrite count_unique_elements_silent by done.
    assert (count_reports (reports_unexpected j0)
              (check_additional_attributes element j) = 0) as -> by count_silent.
    assert (∀ ID, count_reports (reports_unexpected j0)
              (check_compulsory_elements checkXMLNoTail checkXMLNoAttributes
                 checkXMLNoSubelements element ID j) = 0) as ->
      by (intros; count_silent).
    assert (∀ ID, count_reports (reports_unexpected j0)
              (check_optional_elements checkXMLNoTail checkXMLNoAttributes
                 checkXMLNoSubelements element ID j) = 0) as ->
      by (intros; count_silent).
    assert (∀ ID, count_reports (reports_unexpected j0)
              (check_additional_elements element ID j) = 0) as ->
      by (intros; count_silent).
    assert (count_reports (reports_unexpected j0)
              (tail_after_element element j) = 0) as -> by count_silent.
    by destruct (bool_decide _).
  - rewrite count_reports_app.
    assert (count_reports (reports_unexpected j0)
              (tail_after_element element j) = 0) as -> by count_silent.
    unfold count_reports. simpl.
    destruct (bool_decide (j = j0)); simpl; lia.
Qed.

(** The checks of an element that is no record say nothing about fields. *)
Lemma count_on_fields_other element j uniqueDict j0 :
  ¬ is_main element →
  count_reports (reports_on_fields j0) (element_log' element j uniqueDict) = 0.
Proof.
  intros Hmain. unfold element_log.
  rewrite bool_decide_eq_false_2 by done.
  by count_silent.
Qed.


(** The checks of a record say nothing about the fields of another record
    number. *)
Lemma count_on_fields_elsewhere element j uniqueDict j0 :
  j ≠ j0 →
  count_reports (reports_on_fields j0) (element_log' element j uniqueDict) = 0.
Proof.
  intros Hne. unfold element_log.
  assert (∀ ID, count_reports (reports_on_fields j0)
            (check_unique_elements element ID j uniqueDict).1 = 0) as Hunique.
  { intros ID. unfold check_unique_elements, _uniqueElements. cbn [foldl].
    unfold check_unique_element.
    destruct (ET.find element "mainAbbreviation"); cbn [fst snd app];
      destruct (ET.find element "webLink"); cbn [fst snd app];
      repeat case_bool_decide; unfold count_reports; simpl;
      by rewrite ?bool_decide_eq_false_2. }
  case_bool_decide as Hmain; [|by count_silent].
  rewrite !count_reports_app, !count_reports_XMLCheck_any, Hunique by done.
  assert (count_reports (reports_on_fields j0)
            (check_additional_attributes element j) = 0) as -> by count_silent.
  assert (count_reports (reports_on_fields j0)
            (tail_after_element element j) = 0) as -> by count_silent.
  assert (∀ ID, count_reports (reports_on_fields j0)
            (check_compulsory_elements checkXMLNoTail checkXMLNoAttributes
               checkXMLNoSubelements element ID j) = 0) as ->.
  { intros ID. unfold check_compulsory_elements, check_leaf.
    apply count_reports_bind. intros x _.
    destruct (ET.find element x) as [found|].
    - rewrite count_reports_app, count_reports_XMLCheck_any by done.
      destruct (truthy _); [done|]. unfold count_reports. simpl.
      by rewrite bool_decide_eq_false_2.
    - unfold count_reports. simpl. by rewrite bool_decide_eq_false_2. }
  assert (∀ ID, count_reports (reports_on_fields j0)
            (check_optional_elements checkXMLNoTail checkXMLNoAttributes
               checkXMLNoSubelements element ID j) = 0) as ->.
  { intros ID. unfold check_optional_elements, check_leaf.
    apply count_reports_bind. intros x _.
    destruct (ET.find element x) as [found|]; [|done].
    rewrite count_reports_app, count_reports_XMLCheck_any by done.
    destruct (truthy _); [done|]. unfold count_reports. simpl.
    by rewrite bool_decide_eq_false_2. }
  assert (∀ ID, count_reports (reports_on_fields j0)
            (check_additional_elements element ID j) = 0) as ->; [|done].
  intros ID. unfold check_additional_elements.
  apply count_reports_bind. intros x _.
  destruct (_ && _); [|done]. unfold count_reports. simpl.
  by rewrite bool_decide_eq_false_2.
Qed.

Lemma count_on_fields_skip elements :
  ∀ j uniqueDict j0,
    (∀ element, j ≤ j0 → elements !! (j0 - j) = Some element → ¬ is_main element) →
    count_reports (reports_on_fields j0) (elements_log' j elements uniqueDict) = 0.
Proof.
  induction elements as [|element elements IH]; intros j uniqueDict j0 Hother;
    [done|].
  cbn [elements_log]. rewrite count_reports_app, IH.
  - destruct (decide (j = j0)) as [->|Hne].
    + rewrite count_on_fields_other; [done|].
      apply Hother; [done|]. by replace (j0 - j0) with 0 by lia.
    + by rewrite count_on_fields_elsewhere.
  - intros element' Hle Hlookup. apply Hother; [lia|].
    by replace (j0 - j) with (S (j0 - S j)) by lia.
Qed.

(** A count to which the check of the tail of the tree adds nothing, over
    the log of [__validate]. *)
Lemma count_validate_log p self tree :
  _XMLTree self = Some tree →
  ET.bool tree = true →
  IDs_resolve (ET.children tree) →
  (∀ tail tag, p (Log ERROR (UnexpectedTailAfterTree tail tag)) = false) →
  count_reports p
    (logged (__validate checkXMLNoText checkXMLNoTail checkXMLNoAttributes
               checkXMLNoSubelements self))
  = count_reports p (elements_log' 0 (ET.children tree) initial_uniqueDict).
Proof.
  intros Htree Hbool HIDs Hp. rewrite (validate_run self tree) by done.
  unfold logged. cbn [fst snd]. rewrite count_reports_app.
  destruct (has_stray_text _); [|done].
  unfold count_reports at 2. simpl. rewrite Hp. simpl. lia.
Qed.

(** Attributes: the schema declares none, so each one draws a warning. *)
Lemma count_attributes_in_keys element j j0 :
  count_reports (reports_attribute j0) (check_additional_attributes element j)
  = if bool_decide (j = j0) then length (ET.keys element) else 0.
Proof.
  unfold check_additional_attributes.
  induction (ET.keys element) as [|attributeName names IH].
  - by destruct (bool_decide _).
  - match goal with |- count_reports ?p ((?x :: ?l) ≫= ?f) = ?rhs =>
      change (count_reports p (f x ++ (l ≫= f)) = rhs) end.
    rewrite count_reports_app, IH. clear IH.
    rewrite !bool_decide_eq_true_2 by apply not_elem_of_nil.
    unfold count_reports. simpl. by destruct (bool_decide (j = j0)).
Qed.

Lemma count_attributes_element element j uniqueDict j0 :
  count_reports (reports_attribute j0) (element_log' element j uniqueDict)
  = if bool_decide (j = j0)
    then if bool_decide (is_main element) then length (ET.keys element) else 0
    else 0.
Proof.
  unfold element_log. case_bool_decide as Hmain.
  - rewrite !count_reports_app, !count_reports_XMLCheck_any by done.
    rewrite count_unique_elements_silent by done.
    rewrite count_attributes_in_keys.
    assert (∀ ID, count_reports (reports_attribute j0)
              (check_compulsory_elements checkXMLNoTail checkXMLNoAttributes
                 checkXMLNoSubelements element ID j) = 0) as ->
      by (intros; count_silent).
    assert (∀ ID, count_reports (reports_attribute j0)
              (check_optional_elements checkXMLNoTail checkXMLNoAttributes
                 checkXMLNoSubelements element ID j) = 0) as ->
      by (intros; count_silent).
    assert (∀ ID, count_reports (reports_attribute j0)
              (check_additional_elements element ID j) = 0) as ->
      by (intros; count_silent).
    assert (count_reports (reports_attribute j0)
              (tail_after_element element j) = 0) as -> by count_silent.
    destruct (bool_decide (j = j0)); lia.
  - rewrite count_reports_app.
    assert (count_reports (reports_attribute j0)
              (tail_after_element element j) = 0) as -> by count_silent.
    by destruct (bool_decide (j = j0)).
Qed.





End ValidationRuns.

Lemma nonempty_bool (tree : Element) j element :
  ET.children tree !! j = Some element → ET.bool tree = true.
Proof. unfold ET.bool, ET.len. by destruct (ET.children tree). Qed.

Global Instance IDs_resolve_dec elements : Decision (IDs_resolve elements).
Proof. unfold IDs_resolve, is_main. apply _. Defined.

(** A validation that returns has found the ID of every record. *)
Lemma validate_returns
    (checkXMLNoText checkXMLNoTail checkXMLNoAttributes checkXMLNoSubelements
     : Element → string → list string)
    (self : Converter) (tree : Element) :
  _XMLTree self = Some tree →
  result (__validate checkXMLNoText checkXMLNoTail checkXMLNoAttributes
            checkXMLNoSubelements self) = inr () →
  ET.bool tree = true ∧ IDs_resolve (ET.children tree).
Proof.
  intros Htree Hresult.
  destruct (ET.bool tree) eqn:Hbool.
  - split; [done|].
    destruct (decide (IDs_resolve (ET.children tree))) as [|Hnot]; [done|].
    rewrite (validate_raises checkXMLNoText checkXMLNoTail checkXMLNoAttributes
               checkXMLNoSubelements self tree Htree Hbool Hnot) in Hresult.
    discriminate.
  - unfold __validate in Hresult. rewrite run_read, Htree in Hresult.
    unfold lift, assert, result in Hresult. rewrite Hbool in Hresult.
    discriminate.
Qed.


(** ** Facts about the sample documents *)

Lemma loaded_reachable (root : Element) :
  reachable (λ _, root) false no_reports no_reports no_reports no_reports
            (loaded root).
Proof. apply reachable_loadAndValidate, reachable_init. Defined.

Lemma sample_importable :
  importable (document [WEB; KJV]).
Proof.
  split_and!.
  - done.
  - by apply (bool_decide_unpack _).
  - right. by apply (bool_decide_unpack _).
Defined.

(** ** The pipeline: load, validate, index *)

(** *** Load *)

(** C3, as the code has it: a root element whose tag is not the expected
    catalogue tag does not make the load fail.  When the root has a child,
    [__load] logs one error that shows the expected and the found tag and
    returns; when it has none, the assertion that comes before the test of
    the tag fails, and [__load] raises [AssertionError] with nothing
    logged.  Either way the whole parsed tree is in the instance, and
    [loadAndValidate] does the same when the strictness flag is off. *)
Theorem C3_other_root_tag_is_logged_not_raised
    (parse : string → Element)
    (checkXMLNoText checkXMLNoTail checkXMLNoAttributes checkXMLNoSubelements
     : Element → string → list string)
    (path : string) (self : Converter) :
  path ≠ "" →
  _XMLTree self = None →
  ET.tag (parse path) ≠ _treeTag →
  let outcome :=
    (set__XMLTree (parse path) (set___XMLFileOrFilepath path self),
     if ET.bool (parse path)
     then ([Log ERROR (ExpectedToLoad _treeTag (ET.tag (parse path)))], inr ())
     else ([], inl AssertionError)) in
  __load parse checkXMLNoText checkXMLNoTail checkXMLNoAttributes path self
  = outcome
  ∧ loadAndValidate parse false checkXMLNoText checkXMLNoTail
      checkXMLNoAttributes checkXMLNoSubelements (Some path) self
    = outcome.
Proof.
  intros Hpath Htree Htag outcome.
  assert (__load parse checkXMLNoText checkXMLNoTail checkXMLNoAttributes
            path self = outcome) as Hload.
  { subst outcome. destruct (ET.bool (parse path)) eqn:Hbool.
    - by apply load_other_tag.
    - by apply load_childless. }
  split; [done|].
  unfold loadAndValidate. rewrite run_read, Htree.
  cbn [default from_option id]. rewrite run_bind, Hload.
  subst outcome. unfold result, final, logged. cbn [fst snd].
  by destruct (ET.bool (parse path)).
Qed.

Lemma C3_witness :
  let root := ET.mkElement "BibleBooksCodes" [] None None [KJV] in
  let empty := ET.mkElement "BibleBooksCodes" [] None None [] in
  loadAndValidate (λ _, root) false no_reports no_reports no_reports no_reports
                  (Some "BibleVersionCodes.xml") __init__
  = (set__XMLTree root (set___XMLFileOrFilepath "BibleVersionCodes.xml" __init__),
     ([Log ERROR (ExpectedToLoad "BibleVersionCodes" "BibleBooksCodes")], inr ()))
  ∧ loadAndValidate (λ _, empty) false no_reports no_reports no_reports
                    no_reports (Some "BibleVersionCodes.xml") __init__
    = (set__XMLTree empty
         (set___XMLFileOrFilepath "BibleVersionCodes.xml" __init__),
       ([], inl AssertionError)).
Proof.
  intros root empty. split.
  - apply (C3_other_root_tag_is_logged_not_raised
             (λ _, root) no_reports no_reports no_reports no_reports
             "BibleVersionCodes.xml" __init__); done.
  - apply (C3_other_root_tag_is_logged_not_raised
             (λ _, empty) no_reports no_reports no_reports no_reports
             "BibleVersionCodes.xml" __init__); done.
Defined.

(** C3 as stated fails: on a document whose root is tagged
    [BibleBooksCodes] the load returns normally and the instance holds the
    whole tree. *)
Lemma C3_counterexample :
  let root := ET.mkElement "BibleBooksCodes" [] None None [KJV; WEB] in
  ET.tag root ≠ _treeTag
  ∧ result (load_sample root false) = inr ()
  ∧ _XMLTree (final (load_sample root false)) = Some root.
Proof. by vm_compute. Qed.

(** C9 at a header whose work element has no version: the load raises
    [AttributeError] when it reads the version, the header fields stay as
    they were and nothing is logged. *)
Theorem C9_work_without_version_aborts_the_load :
  let root := document [header_without_version; KJV; WEB] in
  result (load_sample root false) = inl AttributeError
  ∧ logged (load_sample root false) = []
  ∧ titleString (final (load_sample root false)) = Some ""
  ∧ dateString (final (load_sample root false)) = Some "".
Proof. by vm_compute. Qed.

(** C7: second calls change nothing.  On every instance that holds a
    tree, [loadAndValidate] leaves the instance as it is, returns, and logs
    one error exactly when a source is given that differs from the one the
    tree was loaded from.  And when [importDataToPython] has returned data
    sets once, a second call returns the same data sets, logs nothing and
    leaves the instance as it is; the stored data sets are returned whatever
    the tree holds by then, so nothing is computed again. *)
Theorem C7_second_calls_change_nothing
    (parse : string → Element) (strictCheckingFlag : bool)
    (checkXMLNoText checkXMLNoTail checkXMLNoAttributes checkXMLNoSubelements
     : Element → string → list string)
    (self : Converter) (tree : Element) :
  reachable parse strictCheckingFlag checkXMLNoText checkXMLNoTail
            checkXMLNoAttributes checkXMLNoSubelements self →
  _XMLTree self = Some tree →
  (∃ loaded,
     __XMLFileOrFilepath self = Some loaded
     ∧ ∀ source,
         loadAndValidate parse strictCheckingFlag checkXMLNoText checkXMLNoTail
           checkXMLNoAttributes checkXMLNoSubelements source self
         = (self,
            (match source with
             | Some given => if bool_decide (given ≠ loaded)
                             then [Log ERROR (AlreadyLoaded given)] else []
             | None => []
             end, inr ())))
  ∧ (∀ datasets,
       result (importDataToPython self) = inr datasets →
       let self' := final (importDataToPython self) in
       importDataToPython self' = (self', ([], inr datasets))
       ∧ ∀ tree', ET.bool tree' = true →
                  importDataToPython (set__XMLTree tree' self')
                  = (set__XMLTree tree' self', ([], inr datasets))).
Proof.
  intros Hreach Htree. split.
  - destruct (reachable_has_source _ _ _ _ _ _ self Hreach) as [loaded Hpath].
    { by rewrite Htree. }
    exists loaded. split; [done|].
    intros source. by eapply loadAndValidate_again.
  - intros datasets Hfirst self'.
    assert (ET.bool tree = true ∧ __DataSets self' = Some datasets
            ∧ _XMLTree self' = Some tree) as (Hbool & Hstored & Htree').
    { subst self'. revert Hfirst. unfold importDataToPython, result, final.
      cbv [mbind M_bind W_bind read lift mret M_ret W_ret update assert raise].
      cbn [fst snd]. rewrite Htree. cbn [fst snd].
      destruct (ET.bool tree); cbn [fst snd]; [|done].
      destruct (__DataSets self) as [cached|] eqn:Hcached; cbn [fst snd].
      - intros [= ->]. done.
      - destruct (for_each _ _ _) as [log1 [e|t]]; cbn [fst snd]; [done|].
        destruct (sorted _) as [log2 [e|l]]; cbn [fst snd]; [done|].
        intros [= <-]. done. }
    split.
    + by eapply importDataToPython_cached.
    + intros tree' Hbool'. by eapply importDataToPython_cached.
Qed.

Lemma C7_witness :
  let root := document [sample_header; KJV; WEB] in
  let self := final (loadAndValidate (λ _, root) false no_reports no_reports
                       no_reports no_reports None __init__) in
  loadAndValidate (λ _, root) false no_reports no_reports no_reports
    no_reports (Some "other.xml") self
  = (self, ([Log ERROR (AlreadyLoaded "other.xml")], inr ())).
Proof.
  intros root self.
  destruct (C7_second_calls_change_nothing
              (λ _, root) false no_reports no_reports no_reports no_reports
              self (document [KJV; WEB]))
    as [(loaded & Hpath & Hagain) _].
  - apply reachable_loadAndValidate, reachable_init.
  - reflexivity.
  - rewrite Hagain. injection Hpath as <-. reflexivity.
Defined.


(** With the name [referenceAbbreviation] unbound, as the module leaves it,
    a call of the helper raises [NameError] before it reads or writes the
    dict. *)
Lemma addToAllCodesDict_unbound givenUCAbbreviation abbrevType d :
  addToAllCodesDict None givenUCAbbreviation abbrevType d = ([], inl NameError).
Proof. reflexivity. Qed.

(** *** Index *)

(** C4: the list of abbreviations and the sizes of the views.  On every
    instance whose tree is importable (its records all carry the compulsory
    elements and abbreviations that [sorted] can compare),
    [importDataToPython] returns data sets in which [AbbreviationsList] is sorted and holds exactly the
    abbreviations of the records, repeated ones as often as they occur; and
    when no abbreviation is repeated, the records, [AbbreviationsList] and
    [AbbreviationsDict] are equally many. *)
Theorem C4_abbreviation_list_is_sorted_and_complete
    (parse : string → Element) (strictCheckingFlag : bool)
    (checkXMLNoText checkXMLNoTail checkXMLNoAttributes checkXMLNoSubelements
     : Element → string → list string)
    (self : Converter) (tree : Element) :
  reachable parse strictCheckingFlag checkXMLNoText checkXMLNoTail
            checkXMLNoAttributes checkXMLNoSubelements self →
  _XMLTree self = Some tree →
  importable tree →
  ∃ datasets,
    result (importDataToPython self) = inr datasets
    ∧ StronglySorted pystr_le (AbbreviationsList datasets)
    ∧ AbbreviationsList datasets ≡ₚ (mainAbbreviation <$> records tree)
    ∧ (NoDup (mainAbbreviation <$> records tree) →
       length (ET.children tree) = length (AbbreviationsList datasets)
       ∧ length (AbbreviationsList datasets) = size (AbbreviationsDict datasets)).
Proof.
  intros Hreach Htree Himportable.
  exists (datasets_of (records tree)).
  rewrite (proj1 (importDataToPython_reachable _ _ _ _ _ _ self tree
                    Hreach Htree Himportable)).
  rewrite datasets_of_AbbreviationsList, datasets_of_AbbreviationsDict.
  split_and!.
  - done.
  - apply StronglySorted_merge_sort; apply _.
  - apply merge_sort_Permutation.
  - intros Hnodup. rewrite abbrev_dict_size by done.
    rewrite (Permutation_length (merge_sort_Permutation pystr_le _)).
    unfold records. by rewrite !length_fmap.
Qed.

Lemma C4_witness :
  ∃ datasets,
    result (importDataToPython (loaded (document [sample_header; WEB; KJV])))
    = inr datasets
    ∧ StronglySorted pystr_le (AbbreviationsList datasets)
    ∧ AbbreviationsList datasets
      ≡ₚ (mainAbbreviation <$> records (document [WEB; KJV]))
    ∧ (NoDup (mainAbbreviation <$> records (document [WEB; KJV])) →
       length (ET.children (document [WEB; KJV]))
       = length (AbbreviationsList datasets)
       ∧ length (AbbreviationsList datasets) = size (AbbreviationsDict datasets)).
Proof.
  apply (C4_abbreviation_list_is_sorted_and_complete
           _ _ _ _ _ _ (loaded (document [sample_header; WEB; KJV]))
           (document [WEB; KJV]) (loaded_reachable _) eq_refl sample_importable).
Defined.

(** C5, as the code has it: the name of a record is found again under its
    abbreviation when no later record carries the same abbreviation, and so
    for every record when the abbreviations are all different. *)
Theorem C5_last_record_round_trips
    (parse : string → Element) (strictCheckingFlag : bool)
    (checkXMLNoText checkXMLNoTail checkXMLNoAttributes checkXMLNoSubelements
     : Element → string → list string)
    (self : Converter) (tree : Element) :
  reachable parse strictCheckingFlag checkXMLNoText checkXMLNoTail
            checkXMLNoAttributes checkXMLNoSubelements self →
  _XMLTree self = Some tree →
  importable tree →
  ∃ datasets,
    result (importDataToPython self) = inr datasets
    ∧ ∀ (before : list Fields) (f : Fields) (after : list Fields),
        records tree = before ++ f :: after →
        mainAbbreviation f ∉ (mainAbbreviation <$> after) →
        ∃ entry,
          AbbreviationsDict datasets !! mainAbbreviation f = Some entry
          ∧ entry !! "versionName" = Some (versionName f)
          ∧ entry !! "languageCode" = Some (languageCode f).
Proof.
  intros Hreach Htree Himportable.
  exists (datasets_of (records tree)).
  rewrite (proj1 (importDataToPython_reachable _ _ _ _ _ _ self tree
                    Hreach Htree Himportable)).
  split; [done|].
  intros before f after Hsplit Hlast. exists (abbrev_entry f).
  rewrite datasets_of_AbbreviationsDict, Hsplit.
  rewrite abbrev_dict_last by done.
  by rewrite abbrev_entry_versionName, abbrev_entry_languageCode.
Qed.

Lemma C5_witness :
  ∃ datasets,
    result (importDataToPython (loaded (document [sample_header; WEB; KJV])))
    = inr datasets
    ∧ ∀ (before : list Fields) (f : Fields) (after : list Fields),
        records (document [WEB; KJV]) = before ++ f :: after →
        mainAbbreviation f ∉ (mainAbbreviation <$> after) →
        ∃ entry,
          AbbreviationsDict datasets !! mainAbbreviation f = Some entry
          ∧ entry !! "versionName" = Some (versionName f)
          ∧ entry !! "languageCode" = Some (languageCode f).
Proof.
  apply (C5_last_record_round_trips
           _ _ _ _ _ _ (loaded (document [sample_header; WEB; KJV]))
           (document [WEB; KJV]) (loaded_reachable _) eq_refl sample_importable).
Defined.

(** C5 as stated fails: with two records under the abbreviation KJV, the
    name found under KJV is that of the second record, not that of the
    first. *)
Lemma C5_counterexample :
  let self := loaded (document [sample_header; KJV; KJV_again]) in
  ∃ datasets entry,
    result (importDataToPython self) = inr datasets
    ∧ fields_of KJV ∈ records (document [KJV; KJV_again])
    ∧ AbbreviationsDict datasets !! mainAbbreviation (fields_of KJV) = Some entry
    ∧ entry !! "versionName" = Some (Some "Authorized Version")
    ∧ entry !! "versionName" ≠ Some (versionName (fields_of KJV)).
Proof.
  intros self. eexists _, _. split_and!.
  - by vm_compute.
  - by left.
  - by vm_compute.
  - by vm_compute.
  - by vm_compute.
Qed.

(** The entries that the code builds are the entries of the
    specification. *)
Lemma name_entry_spec f : name_entry f = entry_for "versionName" f.
Proof.
  destruct f as [a n l [[|c1 s1]|] [[|c2 s2]|] [[|c3 s3]|]]; reflexivity.
Qed.

Lemma language_entry_spec f : language_entry f = entry_for "languageCode" f.
Proof.
  destruct f as [a n l [[|c1 s1]|] [[|c2 s2]|] [[|c3 s3]|]]; reflexivity.
Qed.

Lemma publisher_entry_spec f :
  truthy (publisherName f) = true →
  publisher_entry f = entry_for "publisherName" f.
Proof.
  destruct f as [a n l [[|c1 s1]|] [[|c2 s2]|] [[|c3 s3]|]];
    (discriminate || reflexivity).
Qed.

Lemma licence_entry_spec f :
  truthy (licence f) = true → licence_entry f = entry_for "licence" f.
Proof.
  destruct f as [a n l [[|c1 s1]|] [[|c2 s2]|] [[|c3 s3]|]];
    (discriminate || reflexivity).
Qed.

Lemma webLink_entry_spec f :
  truthy (webLink f) = true → webLink_entry f = entry_for "webLink" f.
Proof.
  destruct f as [a n l [[|c1 s1]|] [[|c2 s2]|] [[|c3 s3]|]];
    (discriminate || reflexivity).
Qed.

(** A view that the loop fills holds every member. *)
Lemma holds_every_member_intro (view : gmap PyStr (list Entry)) keyName
    (key : Fields → PyStr) (qualifies : Fields → bool) (entry : Fields → Entry)
    (fs : list Fields) :
  (∀ k, view !! k = bucket (entry <$> qualifying qualifies key k fs)) →
  (∀ f, qualifies f = true → entry f = entry_for keyName f) →
  holds_every_member view keyName key qualifies fs.
Proof.
  intros Hview Hentry.
  assert (∀ k, view !! k
               = bucket (entry_for keyName <$> qualifying qualifies key k fs))
    as Hspec.
  { intros k. rewrite Hview. f_equal. apply Forall_fmap_ext_1.
    apply Forall_forall. intros f Hf.
    apply list_elem_of_filter in Hf as [[Hq _] _]. by apply Hentry. }
  split; [done|].
  intros f Hf Hq.
  assert (f ∈ qualifying qualifies key (key f) fs) as Hmember
    by by apply list_elem_of_filter.
  exists (entry_for keyName <$> qualifying qualifies key (key f) fs). split.
  - rewrite Hspec. destruct (qualifying _ _ _ _); [|done].
    by apply elem_of_nil in Hmember.
  - by apply list_elem_of_fmap_2.
Qed.

(** C6: the grouped indexes.  In each of the five grouped views, what is
    found under a key is the list of the entries of the records that
    qualify for the key, one entry for each such record and in the order
    of the records, so that every record that qualifies has its entry
    under its key, and a key is in the view exactly when a record
    qualifies for it.  The entry of a record holds its fields by name,
    without the field that is the key of the view and without optional
    fields that are blank.  Every record qualifies for its name and its
    language code, and for its publisher, licence and web link when that
    value is neither missing nor blank. *)
Theorem C6_grouped_indexes_hold_every_member
    (parse : string → Element) (strictCheckingFlag : bool)
    (checkXMLNoText checkXMLNoTail checkXMLNoAttributes checkXMLNoSubelements
     : Element → string → list string)
    (self : Converter) (tree : Element) :
  reachable parse strictCheckingFlag checkXMLNoText checkXMLNoTail
            checkXMLNoAttributes checkXMLNoSubelements self →
  _XMLTree self = Some tree →
  importable tree →
  ∃ datasets,
    result (importDataToPython self) = inr datasets
    ∧ holds_every_member (NamesDict datasets) "versionName" versionName
        (λ _, true) (records tree)
    ∧ holds_every_member (LanguageDict datasets) "languageCode" languageCode
        (λ _, true) (records tree)
    ∧ holds_every_member (PublisherDict datasets) "publisherName" publisherName
        (truthy ∘ publisherName) (records tree)
    ∧ holds_every_member (LicenceDict datasets) "licence" licence
        (truthy ∘ licence) (records tree)
    ∧ holds_every_member (WebLinkDict datasets) "webLink" webLink
        (truthy ∘ webLink) (records tree).
Proof.
  intros Hreach Htree Himportable.
  exists (datasets_of (records tree)).
  rewrite (proj1 (importDataToPython_reachable _ _ _ _ _ _ self tree
                    Hreach Htree Himportable)).
  split; [done|]. split_and!.
  - apply (holds_every_member_intro _ _ _ _ name_entry);
      [apply datasets_of_NamesDict|intros; apply name_entry_spec].
  - apply (holds_every_member_intro _ _ _ _ language_entry);
      [apply datasets_of_LanguageDict|intros; apply language_entry_spec].
  - apply (holds_every_member_intro _ _ _ _ publisher_entry);
      [apply datasets_of_PublisherDict|intros; by apply publisher_entry_spec].
  - apply (holds_every_member_intro _ _ _ _ licence_entry);
      [apply datasets_of_LicenceDict|intros; by apply licence_entry_spec].
  - apply (holds_every_member_intro _ _ _ _ webLink_entry);
      [apply datasets_of_WebLinkDict|intros; by apply webLink_entry_spec].
Qed.

Lemma C6_witness :
  ∃ datasets,
    result (importDataToPython (loaded (document [sample_header; WEB; KJV])))
    = inr datasets
    ∧ LanguageDict datasets !! Some "en"
      = Some [ {[ "mainAbbreviation" := Some "WEB";
                  "versionName" := Some "World English Bible";
                  "licence" := Some "Public Domain" ]};
               {[ "mainAbbreviation" := Some "KJV";
                  "versionName" := Some "King James Version";
                  "licence" := Some "Public Domain" ]} ]
    ∧ ∃ entries,
        LicenceDict datasets !! Some "Public Domain" = Some entries
        ∧ ({[ "mainAbbreviation" := Some "KJV";
              "versionName" := Some "King James Version";
              "languageCode" := Some "en" ]} : Entry) ∈ entries.
Proof.
  destruct (C6_grouped_indexes_hold_every_member
              _ _ _ _ _ _ (loaded (document [sample_header; WEB; KJV]))
              (document [WEB; KJV]) (loaded_reachable _) eq_refl sample_importable)
    as (datasets & Hresult & _ & [Hlanguage _] & _ & [_ Hlicence] & _).
  exists datasets. split; [exact Hresult|]. split.
  - rewrite (Hlanguage (Some "en")). reflexivity.
  - destruct (Hlicence (fields_of KJV)) as (entries & Hentries & Hmember).
    + right. left.
    + reflexivity.
    + exists entries. split; [exact Hentries|].
      assert (entry_for "licence" (fields_of KJV)
              = ({[ "mainAbbreviation" := Some "KJV";
                    "versionName" := Some "King James Version";
                    "languageCode" := Some "en" ]} : Entry)) as <-
        by reflexivity.
      exact Hmember.
Defined.

(** C10: blank optional fields.  In the data sets that
    [importDataToPython] returns, no entry of any view stores an optional
    field with a blank value, and a blank value is no key of the publisher,
    licence and web link views; and a catalogue whose records give the same
    values once blank optional fields are read as missing ones gets the same
    data sets. *)
Theorem C10_blank_optional_field_is_as_absent
    (parse : string → Element) (strictCheckingFlag : bool)
    (checkXMLNoText checkXMLNoTail checkXMLNoAttributes checkXMLNoSubelements
     : Element → string → list string)
    (self : Converter) (tree : Element) :
  reachable parse strictCheckingFlag checkXMLNoText checkXMLNoTail
            checkXMLNoAttributes checkXMLNoSubelements self →
  _XMLTree self = Some tree →
  importable tree →
  ∃ datasets,
    result (importDataToPython self) = inr datasets
    ∧ (∀ k, truthy k = false →
            PublisherDict datasets !! k = None
            ∧ LicenceDict datasets !! k = None
            ∧ WebLinkDict datasets !! k = None)
    ∧ (∀ k entry, AbbreviationsDict datasets !! k = Some entry → blank_free entry)
    ∧ (∀ view k entries entry,
         view ∈ [NamesDict datasets; LanguageDict datasets;
                 PublisherDict datasets; LicenceDict datasets;
                 WebLinkDict datasets] →
         view !! k = Some entries → entry ∈ entries → blank_free entry)
    ∧ (∀ self' tree',
         reachable parse strictCheckingFlag checkXMLNoText checkXMLNoTail
                   checkXMLNoAttributes checkXMLNoSubelements self' →
         _XMLTree self' = Some tree' →
         Forall has_compulsory (ET.children tree') →
         blank_as_absent <$> records tree' = blank_as_absent <$> records tree →
         result (importDataToPython self') = inr datasets).
Proof.
  intros Hreach Htree Himportable.
  exists (datasets_of (records tree)).
  rewrite (proj1 (importDataToPython_reachable _ _ _ _ _ _ self tree
                    Hreach Htree Himportable)).
  split_and!.
  - done.
  - intros k Hk.
    rewrite datasets_of_PublisherDict, datasets_of_LicenceDict,
      datasets_of_WebLinkDict.
    by rewrite !qualifying_blank_key.
  - intros k entry. rewrite datasets_of_AbbreviationsDict, abbrev_dict_lookup.
    destruct (last _) as [f|]; [|done].
    intros [= <-]. apply abbrev_entry_blank_free.
  - intros view k entries entry Hview Hentries Hentry.
    repeat (apply elem_of_cons in Hview as [->|Hview]);
      [| | | | |by apply elem_of_nil in Hview];
      [rewrite datasets_of_NamesDict in Hentries
      |rewrite datasets_of_LanguageDict in Hentries
      |rewrite datasets_of_PublisherDict in Hentries
      |rewrite datasets_of_LicenceDict in Hentries
      |rewrite datasets_of_WebLinkDict in Hentries];
      apply bucket_Some in Hentries as ->;
      apply list_elem_of_fmap in Hentry as (f & -> & _);
      auto using name_entry_blank_free, language_entry_blank_free,
        publisher_entry_blank_free, licence_entry_blank_free,
        webLink_entry_blank_free.
  - intros self' tree' Hreach' Htree' Hall' Hsame.
    assert (importable tree') as Himportable'.
    { destruct Himportable as (Hbool & _ & Hsort).
      assert (length (ET.children tree') = length (ET.children tree)) as Hlen.
      { apply (f_equal length) in Hsame. unfold records in Hsame.
        by rewrite !length_fmap in Hsame. }
      split_and!; [|done|].
      - unfold ET.bool, ET.len in *. by rewrite Hlen.
      - rewrite list_fmap_compose in Hsort |- * . fold (records tree) in Hsort.
        fold (records tree').
        rewrite <- (mainAbbreviation_blank_as_absent (records tree')), Hsame.
        by rewrite mainAbbreviation_blank_as_absent. }
    rewrite (proj1 (importDataToPython_reachable _ _ _ _ _ _ self' tree'
                      Hreach' Htree' Himportable')).
    f_equal.
    by rewrite <- (datasets_of_blank_as_absent (records tree')), Hsame,
      datasets_of_blank_as_absent.
Qed.

Lemma C10_witness :
  ∃ datasets,
    result (importDataToPython (loaded_from "blank.xml")) = inr datasets
    ∧ PublisherDict datasets !! None = None
    ∧ result (importDataToPython (loaded_from "absent.xml")) = inr datasets.
Proof.
  destruct (C10_blank_optional_field_is_as_absent
              two_sources false no_reports no_reports no_reports no_reports
              (loaded_from "blank.xml") (document [WEB_blank_publisher; KJV]))
    as (datasets & Hresult & Hkeys & _ & _ & Hsame).
  - apply reachable_loadAndValidate, reachable_init.
  - reflexivity.
  - split_and!.
    + done.
    + by apply (bool_decide_unpack _).
    + right. by apply (bool_decide_unpack _).
  - exists datasets. split; [exact Hresult|]. split.
    + apply (Hkeys None eq_refl).
    + apply (Hsame (loaded_from "absent.xml") (document [WEB; KJV])).
      * apply reachable_loadAndValidate, reachable_init.
      * reflexivity.
      * by apply (bool_decide_unpack _).
      * reflexivity.
Defined.

(** *** Validation *)

(** C1, as the code has it: a record without one of its compulsory
    elements.  The record is in the tree.  A validation that runs to its
    end leaves the instance as it is, and its log holds exactly one error
    that reports this element as missing in this record number.
    [importDataToPython] reads the compulsory elements without a guard: on
    such a catalogue it raises [AttributeError], logs nothing and builds no
    view. *)
Theorem C1_missing_compulsory_element
    (parse : string → Element) (strictCheckingFlag : bool)
    (checkXMLNoText checkXMLNoTail checkXMLNoAttributes checkXMLNoSubelements
     : Element → string → list string)
    (self : Converter) (tree : Element) (j : nat) (element : Element)
    (elementName : string) :
  _XMLTree self = Some tree →
  ET.children tree !! j = Some element →
  elementName ∈ _compulsoryElements →
  ET.find element elementName = None →
  (is_main element →
   result (__validate checkXMLNoText checkXMLNoTail checkXMLNoAttributes
             checkXMLNoSubelements self) = inr () →
   final (__validate checkXMLNoText checkXMLNoTail checkXMLNoAttributes
            checkXMLNoSubelements self) = self
   ∧ count_reports (reports_missing elementName j)
       (logged (__validate checkXMLNoText checkXMLNoTail checkXMLNoAttributes
                  checkXMLNoSubelements self)) = 1)
  ∧ (reachable parse strictCheckingFlag checkXMLNoText checkXMLNoTail
               checkXMLNoAttributes checkXMLNoSubelements self →
     importDataToPython self = (self, ([], inl AttributeError))).
Proof.
  intros Htree Hj Hname Hmissing.
  assert (ET.bool tree = true) as Hbool.
  { unfold ET.bool, ET.len. by destruct (ET.children tree). }
  assert (¬ Forall has_compulsory (ET.children tree)) as Hnot.
  { intros Hall. apply (Forall_lookup_1 _ _ _ _ Hall) in Hj.
    destruct Hj as (Ha & Hb & Hc).
    repeat (apply elem_of_cons in Hname as [->|Hname]);
      [rewrite Hmissing in Ha; by apply is_Some_None in Ha
      |rewrite Hmissing in Hb; by apply is_Some_None in Hb
      |rewrite Hmissing in Hc; by apply is_Some_None in Hc
      |by apply elem_of_nil in Hname]. }
  split.
  - intros Hmain Hresult.
    destruct (validate_returns _ _ _ _ self tree Htree Hresult) as [_ HIDs].
    destruct (validate_spec checkXMLNoText checkXMLNoTail checkXMLNoAttributes
                checkXMLNoSubelements self tree Htree Hbool HIDs)
      as (log & Hrun & Hmiss & _).
    rewrite Hrun. unfold final, logged. cbn [fst snd]. split; [done|].
    rewrite Hmiss, Hj. by rewrite bool_decide_eq_true_2.
  - intros Hreach.
    assert (__DataSets self = None) as Hfresh.
    { apply reachable_cache_consistent in Hreach.
      unfold cache_consistent in Hreach.
      destruct (__DataSets self); [|done].
      destruct Hreach as (tree' & Htree' & (_ & Hall & _) & _).
      assert (tree' = tree) as -> by congruence. done. }
    unfold importDataToPython.
    rewrite run_read, Htree, run_assert, Hbool, run_read, Hfresh.
    apply (run_bind_raises _ _ self self [] AttributeError).
    unfold lift. by rewrite import_elements_raises.
Qed.

Lemma C1_witness :
  let self := loaded (document [sample_header; with_ID "KJV" KJV;
                                with_ID "KJV2" KJV_without_language]) in
  count_reports (reports_missing "languageCode" 1)
    (logged (__validate no_reports no_reports no_reports no_reports self)) = 1
  ∧ importDataToPython self = (self, ([], inl AttributeError)).
Proof.
  intros self.
  destruct (C1_missing_compulsory_element
              (λ _, document [sample_header; with_ID "KJV" KJV;
                              with_ID "KJV2" KJV_without_language])
              false no_reports no_reports no_reports no_reports self
              (document [with_ID "KJV" KJV; with_ID "KJV2" KJV_without_language])
              1 (with_ID "KJV2" KJV_without_language) "languageCode")
    as [Hvalidate Himport].
  - reflexivity.
  - reflexivity.
  - by apply (bool_decide_unpack _).
  - reflexivity.
  - split.
    + apply Hvalidate; [reflexivity|by vm_compute].
    + apply Himport, loaded_reachable.
Defined.

(** C1 as stated fails: on a catalogue whose second record has no language
    code, the record is in the loaded tree, but [importDataToPython] raises
    [AttributeError] instead of returning views that hold the record, and
    the load with strict checking raises too, with an empty log. *)
Lemma C1_counterexample :
  let root := document [sample_header; KJV; KJV_without_language] in
  _XMLTree (loaded root) = Some (document [KJV; KJV_without_language])
  ∧ result (importDataToPython (loaded root)) = inl AttributeError
  ∧ result (load_sample root true) = inl AttributeError
  ∧ logged (load_sample root true) = [].
Proof. by vm_compute. Qed.




(** ** More about [__load] *)

(** X1: what [__load] stores.  Once the source is parsed to a root with
    children, the instance holds the source and a tree with every record
    of the root, whatever the header turns out to be and even when reading
    it raises: the tree is the root, without its first child when the root
    has the expected tag and that child is the header.  The data sets are
    untouched, and [__len__] then returns the number of children of that
    tree. *)
Theorem X1_load_keeps_every_record
    (parse : string → Element)
    (checkXMLNoText checkXMLNoTail checkXMLNoAttributes
     : Element → string → list string)
    (path : string) (self : Converter) :
  path ≠ "" →
  _XMLTree self = None →
  ET.bool (parse path) = true →
  let self' :=
    final (__load parse checkXMLNoText checkXMLNoTail checkXMLNoAttributes
             path self) in
  _XMLTree self' = Some (loaded_tree (parse path))
  ∧ __XMLFileOrFilepath self' = Some path
  ∧ __DataSets self' = __DataSets self
  ∧ __len__ self' = (self', ([], inr (ET.len (loaded_tree (parse path))))).
Proof.
  intros Hpath Htree Hbool self'.
  destruct (load_keeps_records parse checkXMLNoText checkXMLNoTail
              checkXMLNoAttributes path self Hpath Htree Hbool)
    as (Hkept & Hsource & Hdatasets).
  fold self' in Hkept, Hsource, Hdatasets. split_and!; [done..|].
  unfold __len__. cbv [mbind M_bind read mret M_ret W_ret]. cbn [fst snd].
  by rewrite Hkept.
Qed.

Lemma X1_witness :
  let root := document [header_without_version; KJV; WEB] in
  let self' := final (__load (λ _, root) no_reports no_reports no_reports
                        "codes.xml" __init__) in
  _XMLTree self' = Some (document [KJV; WEB])
  ∧ __XMLFileOrFilepath self' = Some "codes.xml"
  ∧ __DataSets self' = None
  ∧ __len__ self' = (self', ([], inr 2)).
Proof.
  intros root self'.
  apply (X1_load_keeps_every_record (λ _, root) no_reports no_reports no_reports
           "codes.xml" __init__); done.
Defined.

(** X2: a header that [__load] tolerates.  When the root has the expected
    tag and its first child is not a header, or is a header that has no
    child, several children, or one child that is not a work element,
    [__load] returns, leaves title, version and date of the instance as
    they were, and logs a warning or an information about the header. *)
Theorem X2_load_tolerates_a_header_without_work
    (parse : string → Element)
    (checkXMLNoText checkXMLNoTail checkXMLNoAttributes
     : Element → string → list string)
    (path : string) (self : Converter) :
  path ≠ "" →
  _XMLTree self = None →
  ET.bool (parse path) = true →
  ET.tag (parse path) = _treeTag →
  (∀ work, ¬ header_with_work (parse path) work) →
  let r := __load parse checkXMLNoText checkXMLNoTail checkXMLNoAttributes
             path self in
  result r = inr ()
  ∧ titleString (final r) = titleString self
  ∧ PROGRAM_VERSION (final r) = PROGRAM_VERSION self
  ∧ dateString (final r) = dateString self
  ∧ Exists is_notice (logged r).
Proof.
  intros Hpath Htree Hbool Htag Hheader r.
  by apply load_tolerates_header.
Qed.

Lemma X2_witness :
  let root := document [KJV; WEB] in
  let r := __load (λ _, root) no_reports no_reports no_reports
             "codes.xml" __init__ in
  result r = inr ()
  ∧ titleString (final r) = Some ""
  ∧ PROGRAM_VERSION (final r) = Some ""
  ∧ dateString (final r) = Some ""
  ∧ Exists is_notice (logged r).
Proof.
  intros root r.
  apply (X2_load_tolerates_a_header_without_work
           (λ _, root) no_reports no_reports no_reports "codes.xml" __init__);
    try done.
  intros work (header & rest & Hchildren & Hheader & _).
  injection Hchildren as <- _. discriminate Hheader.
Defined.

(** X3: a complete header.  When the root has the expected tag and its
    first child is a header whose only child is a work element with a
    version, a date and a title, [__load] returns and the instance holds
    the texts of these three elements. *)
Theorem X3_load_reads_a_complete_header
    (parse : string → Element)
    (checkXMLNoText checkXMLNoTail checkXMLNoAttributes
     : Element → string → list string)
    (path : string) (self : Converter) (work : Element)
    (version date title : PyStr) :
  path ≠ "" →
  _XMLTree self = None →
  ET.bool (parse path) = true →
  ET.tag (parse path) = _treeTag →
  header_with_work (parse path) work →
  find_text work "version" = inr version →
  find_text work "date" = inr date →
  find_text work "title" = inr title →
  let r := __load parse checkXMLNoText checkXMLNoTail checkXMLNoAttributes
             path self in
  result r = inr ()
  ∧ PROGRAM_VERSION (final r) = version
  ∧ dateString (final r) = date
  ∧ titleString (final r) = title.
Proof.
  intros Hpath Htree Hbool Htag Hheader Hversion Hdate Htitle r.
  by eapply load_reads_header.
Qed.

Lemma X3_witness :
  let root := document [sample_header; KJV; WEB] in
  let r := __load (λ _, root) no_reports no_reports no_reports
             "codes.xml" __init__ in
  result r = inr ()
  ∧ PROGRAM_VERSION (final r) = Some "0.01"
  ∧ dateString (final r) = Some "2022-05-18"
  ∧ titleString (final r) = Some "Bible version codes".
Proof.
  intros root r.
  apply (X3_load_reads_a_complete_header
           (λ _, root) no_reports no_reports no_reports "codes.xml" __init__
           (ET.mkElement "work" [] None None
              [leaf "version" "0.01"; leaf "date" "2022-05-18";
               leaf "title" "Bible version codes"])); try done.
  by eexists _, _.
Defined.

(** X4: a work element that lacks one of the three.  When the header has a
    work element as its only child and the work element has no version, no
    date or no title, [__load] raises [AttributeError]; the tree, with its
    records and without the header, is in the instance all the same. *)
Theorem X4_load_raises_on_an_incomplete_work_element
    (parse : string → Element)
    (checkXMLNoText checkXMLNoTail checkXMLNoAttributes
     : Element → string → list string)
    (path : string) (self : Converter) (work : Element) (name : string) :
  path ≠ "" →
  _XMLTree self = None →
  ET.bool (parse path) = true →
  ET.tag (parse path) = _treeTag →
  header_with_work (parse path) work →
  name ∈ ["version"; "date"; "title"] →
  ET.find work name = None →
  let r := __load parse checkXMLNoText checkXMLNoTail checkXMLNoAttributes
             path self in
  result r = inl AttributeError
  ∧ _XMLTree (final r) = Some (ET.remove (parse path) 0).
Proof.
  intros Hpath Htree Hbool Htag Hheader Hname Hmissing r. split.
  - by eapply load_raises_on_incomplete_work.
  - destruct (load_keeps_records parse checkXMLNoText checkXMLNoTail
                checkXMLNoAttributes path self Hpath Htree Hbool) as (Hkept & _).
    subst r. rewrite Hkept. unfold loaded_tree.
    destruct Hheader as (header & rest & -> & Hhead & _).
    by rewrite !bool_decide_eq_true_2.
Qed.

Lemma X4_witness :
  let root := document [header_without_version; KJV; WEB] in
  let r := __load (λ _, root) no_reports no_reports no_reports
             "codes.xml" __init__ in
  result r = inl AttributeError
  ∧ _XMLTree (final r) = Some (ET.remove root 0).
Proof.
  intros root r.
  apply (X4_load_raises_on_an_incomplete_work_element
           (λ _, root) no_reports no_reports no_reports "codes.xml" __init__
           (ET.mkElement "work" [] None None
              [leaf "date" "2022-05-18"; leaf "title" "Bible version codes"])
           "version"); try done.
  - by eexists _, _.
  - by left.
Defined.

(** X5: a document without any child element.  The first
    [loadAndValidate] raises [AssertionError] and logs nothing, but the
    source and the empty tree are in the instance by then.  So the instance
    counts as loaded: every later [loadAndValidate] returns without loading
    anything and leaves the instance as it is, and [importDataToPython],
    [__validate] raise [AssertionError] on it. *)
Theorem X5_a_childless_document_blocks_the_instance
    (parse : string → Element) (strictCheckingFlag : bool)
    (checkXMLNoText checkXMLNoTail checkXMLNoAttributes checkXMLNoSubelements
     : Element → string → list string)
    (source : option string) (self : Converter) :
  _XMLTree self = None →
  default default_filepath source ≠ "" →
  ET.bool (parse (default default_filepath source)) = false →
  let r := loadAndValidate parse strictCheckingFlag checkXMLNoText
             checkXMLNoTail checkXMLNoAttributes checkXMLNoSubelements
             source self in
  r = (set__XMLTree (parse (default default_filepath source))
         (set___XMLFileOrFilepath (default default_filepath source) self),
       ([], inl AssertionError))
  ∧ (∀ source',
       final (loadAndValidate parse strictCheckingFlag checkXMLNoText
                checkXMLNoTail checkXMLNoAttributes checkXMLNoSubelements
                source' (final r)) = final r
       ∧ result (loadAndValidate parse strictCheckingFlag checkXMLNoText
                   checkXMLNoTail checkXMLNoAttributes checkXMLNoSubelements
                   source' (final r)) = inr ())
  ∧ importDataToPython (final r) = (final r, ([], inl AssertionError))
  ∧ __validate checkXMLNoText checkXMLNoTail checkXMLNoAttributes
      checkXMLNoSubelements (final r) = (final r, ([], inl AssertionError)).
Proof.
  intros Htree Hpath Hbool r.
  assert (r = (set__XMLTree (parse (default default_filepath source))
                 (set___XMLFileOrFilepath (default default_filepath source) self),
               ([], inl AssertionError))) as Hr.
  { subst r. rewrite loadAndValidate_first by done.
    cbv [mbind M_bind]. by rewrite load_childless. }
  split; [done|]. rewrite Hr. unfold final. cbn [fst]. split_and!.
  - intros source'.
    rewrite (loadAndValidate_again parse strictCheckingFlag checkXMLNoText
               checkXMLNoTail checkXMLNoAttributes checkXMLNoSubelements _
               (parse (default default_filepath source))
               (default default_filepath source) source') by done.
    done.
  - unfold importDataToPython.
    cbv [mbind M_bind W_bind read lift mret M_ret W_ret assert raise].
    cbn [fst snd set__XMLTree _XMLTree]. by rewrite Hbool.
  - unfold __validate.
    cbv [mbind M_bind W_bind read lift mret M_ret W_ret assert raise].
    cbn [fst snd set__XMLTree _XMLTree]. by rewrite Hbool.
Qed.

Lemma X5_witness :
  let r := loadAndValidate (λ _, childless) true no_reports no_reports
             no_reports no_reports None __init__ in
  result r = inl AssertionError
  ∧ importDataToPython (final r) = (final r, ([], inl AssertionError)).
Proof.
  intros r.
  destruct (X5_a_childless_document_blocks_the_instance
              (λ _, childless) true no_reports no_reports no_reports no_reports
              None __init__) as (Hr & _ & Himport & _);
    [reflexivity|discriminate|reflexivity|].
  split; [|exact Himport]. fold r in Hr. by rewrite Hr.
Defined.

(** ** More about [__validate] *)

(** X6: what it takes for [__validate] to return.  [__validate] leaves
    the instance as it is, and it returns only when the tree has a child
    and every record has an element [referenceAbbreviation], the element
    that the record ID is read from: with a record that has none,
    validation does not run to its end. *)
Theorem X6_validation_needs_the_ID_of_every_record
    (checkXMLNoText checkXMLNoTail checkXMLNoAttributes checkXMLNoSubelements
     : Element → string → list string)
    (self : Converter) (tree : Element) :
  _XMLTree self = Some tree →
  let r := __validate checkXMLNoText checkXMLNoTail checkXMLNoAttributes
             checkXMLNoSubelements self in
  final r = self
  ∧ (result r = inr () → ET.bool tree = true ∧ IDs_resolve (ET.children tree))
  ∧ ∀ element, element ∈ ET.children tree → is_main element →
               ET.find element "referenceAbbreviation" = None →
               result r ≠ inr ().
Proof.
  intros Htree r. subst r. split_and!.
  - apply validate_final.
  - by apply validate_returns.
  - intros element Hin Hmain Hnone Hresult.
    destruct (validate_returns _ _ _ _ self tree Htree Hresult) as [_ HIDs].
    unfold IDs_resolve in HIDs. rewrite Forall_forall in HIDs.
    destruct (HIDs element Hin Hmain) as [found Hfound]. congruence.
Qed.

Lemma X6_witness :
  let self := loaded (document [sample_header; KJV; WEB]) in
  let r := __validate no_reports no_reports no_reports no_reports self in
  final r = self ∧ result r ≠ inr ().
Proof.
  intros self r.
  destruct (X6_validation_needs_the_ID_of_every_record
              no_reports no_reports no_reports no_reports self
              (document [KJV; WEB]) eq_refl) as (Hfinal & _ & Hnone).
  split; [exact Hfinal|].
  apply (Hnone KJV); [left|reflexivity|reflexivity].
Defined.

(** X7: blank elements.  When validation returns, its log holds for a
    record and a compulsory element exactly one warning that the element is
    blank when the record has the element with no text or an empty text, and
    none otherwise; and likewise, with its own warning, for an optional
    element. *)
Theorem X7_validation_warns_once_about_a_blank_element
    (checkXMLNoText checkXMLNoTail checkXMLNoAttributes checkXMLNoSubelements
     : Element → string → list string)
    (self : Converter) (tree : Element) (j : nat) (element : Element) :
  _XMLTree self = Some tree →
  IDs_resolve (ET.children tree) →
  ET.children tree !! j = Some element →
  is_main element →
  let log := logged (__validate checkXMLNoText checkXMLNoTail
                       checkXMLNoAttributes checkXMLNoSubelements self) in
  (∀ n, n ∈ _compulsoryElements →
        count_reports (reports_blank_compulsory n j) log
        = if is_blank element n then 1 else 0)
  ∧ (∀ n, n ∈ _optionalElements →
          count_reports (reports_blank_optional n j) log
          = if is_blank element n then 1 else 0).
Proof.
  intros Htree HIDs Hj Hmain log. subst log.
  pose proof (nonempty_bool tree j element Hj) as Hbool. split.
  - intros n Hn. rewrite (count_validate_log _ _ _ _ _ self tree) by done.
    rewrite (count_elements_log _ _ _ _ _
               (λ e, if bool_decide (is_main e ∧ n ∈ _compulsoryElements)
                        && is_blank e n then 1 else 0) j)
      by (intros; apply count_blank_compulsory_element).
    rewrite bool_decide_eq_true_2 by lia.
    replace (j - 0) with j by lia. rewrite Hj. simpl.
    by rewrite bool_decide_eq_true_2.
  - intros n Hn. rewrite (count_validate_log _ _ _ _ _ self tree) by done.
    rewrite (count_elements_log _ _ _ _ _
               (λ e, if bool_decide (is_main e ∧ n ∈ _optionalElements)
                        && is_blank e n then 1 else 0) j)
      by (intros; apply count_blank_optional_element).
    rewrite bool_decide_eq_true_2 by lia.
    replace (j - 0) with j by lia. rewrite Hj. simpl.
    by rewrite bool_decide_eq_true_2.
Qed.

Lemma X7_witness :
  let self := loaded (document [sample_header; with_ID "1" KJV;
                                with_ID "2" WEB_blank_publisher]) in
  let log := logged (__validate no_reports no_reports no_reports no_reports self) in
  count_reports (reports_blank_optional "publisherName" 1) log = 1
  ∧ count_reports (reports_blank_optional "licence" 1) log = 0.
Proof.
  intros self log.
  destruct (X7_validation_warns_once_about_a_blank_element
              no_reports no_reports no_reports no_reports self
              (document [with_ID "1" KJV; with_ID "2" WEB_blank_publisher]) 1
              (with_ID "2" WEB_blank_publisher)) as [_ Hoptional].
  - reflexivity.
  - unfold IDs_resolve, is_main. by apply (bool_decide_unpack _).
  - reflexivity.
  - reflexivity.
  - split.
    + apply (Hoptional "publisherName"). by apply (bool_decide_unpack _).
    + apply (Hoptional "licence"). by apply (bool_decide_unpack _).
Defined.

Lemma count_additional_in_record
    (checkXMLNoText checkXMLNoTail checkXMLNoAttributes checkXMLNoSubelements
     : Element → string → list string)
    (self : Converter) (tree : Element) (j : nat) (element : Element)
    (tag : string) :
  _XMLTree self = Some tree →
  IDs_resolve (ET.children tree) →
  ET.children tree !! j = Some element →
  is_main element →
  count_reports (reports_additional tag j)
    (logged (__validate checkXMLNoText checkXMLNoTail checkXMLNoAttributes
               checkXMLNoSubelements self))
  = if bool_decide (tag ∈ _compulsoryElements ∨ tag ∈ _optionalElements)
    then 0 else length (children_tagged tag element).
Proof.
  intros Htree HIDs Hj Hmain.
  pose proof (nonempty_bool tree j element Hj) as Hbool.
  rewrite (count_validate_log _ _ _ _ _ self tree) by done.
  rewrite (count_elements_log _ _ _ _ _
             (λ e, if bool_decide (is_main e ∧ tag ∉ _compulsoryElements
                                   ∧ tag ∉ _optionalElements)
                   then length (children_tagged tag e) else 0) j)
    by (intros; apply count_additional_element).
  rewrite bool_decide_eq_true_2 by lia.
  replace (j - 0) with j by lia. rewrite Hj. simpl.
  destruct (decide (tag ∈ _compulsoryElements ∨ tag ∈ _optionalElements)).
  - rewrite bool_decide_eq_false_2 by tauto. by rewrite bool_decide_eq_true_2.
  - rewrite bool_decide_eq_true_2 by tauto. by rewrite bool_decide_eq_false_2.
Qed.

(** X8: additional elements.  When validation returns, its log holds for a
    record and a tag that is declared neither compulsory nor optional one
    warning for each child of the record that carries the tag, and none for
    a declared tag. *)
Theorem X8_validation_warns_about_each_additional_element
    (checkXMLNoText checkXMLNoTail checkXMLNoAttributes checkXMLNoSubelements
     : Element → string → list string)
    (self : Converter) (tree : Element) (j : nat) (element : Element)
    (tag : string) :
  _XMLTree self = Some tree →
  IDs_resolve (ET.children tree) →
  ET.children tree !! j = Some element →
  is_main element →
  count_reports (reports_additional tag j)
    (logged (__validate checkXMLNoText checkXMLNoTail checkXMLNoAttributes
               checkXMLNoSubelements self))
  = if bool_decide (tag ∈ _compulsoryElements ∨ tag ∈ _optionalElements)
    then 0 else length (children_tagged tag element).
Proof. apply count_additional_in_record. Qed.

Lemma X8_witness :
  let self := loaded (document [sample_header; with_ID "1" KJV; with_ID "2" WEB]) in
  count_reports (reports_additional "referenceAbbreviation" 1)
    (logged (__validate no_reports no_reports no_reports no_reports self)) = 1.
Proof.
  intros self.
  apply (X8_validation_warns_about_each_additional_element
           no_reports no_reports no_reports no_reports self
           (document [with_ID "1" KJV; with_ID "2" WEB]) 1 (with_ID "2" WEB)
           "referenceAbbreviation").
  - reflexivity.
  - unfold IDs_resolve, is_main. by apply (bool_decide_unpack _).
  - reflexivity.
  - reflexivity.
Defined.

(** X9: children that are no records.  When validation returns, its log
    holds for a child of the tree whose tag is not the tag of a record
    exactly one warning about an unexpected element, and no diagnostic
    about any field of it: neither its elements nor their uniqueness are
    checked.  For a record it holds no such warning. *)
Theorem X9_validation_skips_a_child_that_is_no_record
    (checkXMLNoText checkXMLNoTail checkXMLNoAttributes checkXMLNoSubelements
     : Element → string → list string)
    (self : Converter) (tree : Element) (j : nat) (element : Element) :
  _XMLTree self = Some tree →
  IDs_resolve (ET.children tree) →
  ET.children tree !! j = Some element →
  let log := logged (__validate checkXMLNoText checkXMLNoTail
                       checkXMLNoAttributes checkXMLNoSubelements self) in
  count_reports (reports_unexpected j) log
  = (if bool_decide (is_main element) then 0 else 1)
  ∧ (¬ is_main element → count_reports (reports_on_fields j) log = 0).
Proof.
  intros Htree HIDs Hj log. subst log.
  pose proof (nonempty_bool tree j element Hj) as Hbool. split.
  - rewrite (count_validate_log _ _ _ _ _ self tree) by done.
    rewrite (count_elements_log _ _ _ _ _
               (λ e, if bool_decide (is_main e) then 0 else 1) j)
      by (intros; apply count_unexpected_element).
    rewrite bool_decide_eq_true_2 by lia.
    replace (j - 0) with j by lia. by rewrite Hj.
  - intros Hmain. rewrite (count_validate_log _ _ _ _ _ self tree) by done.
    apply count_on_fields_skip. intros element' _.
    replace (j - 0) with j by lia. rewrite Hj. by intros [= <-].
Qed.

Lemma X9_witness :
  let self := loaded (document [sample_header; with_ID "1" KJV;
                                leaf "BibleVersionCode" "WEB"]) in
  let log := logged (__validate no_reports no_reports no_reports no_reports self) in
  count_reports (reports_unexpected 1) log = 1
  ∧ count_reports (reports_on_fields 1) log = 0.
Proof.
  intros self log.
  destruct (X9_validation_skips_a_child_that_is_no_record
              no_reports no_reports no_reports no_reports self
              (document [with_ID "1" KJV; leaf "BibleVersionCode" "WEB"]) 1
              (leaf "BibleVersionCode" "WEB")) as [Hcount Hfields].
  - reflexivity.
  - unfold IDs_resolve, is_main. by apply (bool_decide_unpack _).
  - reflexivity.
  - split; [exact Hcount|]. apply Hfields. discriminate.
Defined.

(** X10: a validation that returns is never silent about a record.  When
    [__validate] returns, its log holds for every record of the tree at
    least one warning that the element [referenceAbbreviation] of this
    record is an additional element: the element that the record ID is
    read from is not one that the schema declares. *)
Theorem X10_validation_is_never_silent_about_a_record
    (checkXMLNoText checkXMLNoTail checkXMLNoAttributes checkXMLNoSubelements
     : Element → string → list string)
    (self : Converter) (tree : Element) (j : nat) (element : Element) :
  _XMLTree self = Some tree →
  ET.children tree !! j = Some element →
  is_main element →
  let r := __validate checkXMLNoText checkXMLNoTail checkXMLNoAttributes
             checkXMLNoSubelements self in
  result r = inr () →
  1 ≤ count_reports (reports_additional "referenceAbbreviation" j) (logged r).
Proof.
  intros Htree Hj Hmain r Hresult. subst r.
  destruct (validate_returns _ _ _ _ self tree Htree Hresult) as [Hbool HIDs].
  rewrite (count_additional_in_record _ _ _ _ self tree j element) by done.
  rewrite bool_decide_eq_false_2
    by (intros [H|H]; revert H; by apply (bool_decide_unpack _)).
  destruct (Forall_lookup_1 _ _ _ _ HIDs Hj Hmain) as [found Hfound].
  unfold children_tagged. unfold ET.find in Hfound.
  apply find_some in Hfound as [Hin Htag].
  apply bool_decide_eq_true in Htag.
  apply list_elem_of_In in Hin.
  assert (found ∈ filter (λ child, ET.tag child = "referenceAbbreviation")
                    (ET.children element)) as Hmember
    by by apply list_elem_of_filter.
  destruct (filter _ _); [by apply elem_of_nil in Hmember|simpl; lia].
Qed.

Lemma X10_witness :
  let self := loaded (document [sample_header; with_ID "1" KJV; with_ID "2" WEB]) in
  let r := __validate no_reports no_reports no_reports no_reports self in
  1 ≤ count_reports (reports_additional "referenceAbbreviation" 1) (logged r).
Proof.
  intros self r.
  apply (X10_validation_is_never_silent_about_a_record
           no_reports no_reports no_reports no_reports self
           (document [with_ID "1" KJV; with_ID "2" WEB]) 1 (with_ID "2" WEB)).
  - reflexivity.
  - reflexivity.
  - reflexivity.
  - by vm_compute.
Defined.

(** X21: attributes of a record.  The schema declares no attribute, so when
    validation returns, its log holds for a record as many warnings about an
    additional attribute as the record has attributes. *)
Theorem X21_validation_warns_about_every_attribute
    (checkXMLNoText checkXMLNoTail checkXMLNoAttributes checkXMLNoSubelements
     : Element → string → list string)
    (self : Converter) (tree : Element) (j : nat) (element : Element) :
  _XMLTree self = Some tree →
  IDs_resolve (ET.children tree) →
  ET.children tree !! j = Some element →
  is_main element →
  count_reports (reports_attribute j)
    (logged (__validate checkXMLNoText checkXMLNoTail checkXMLNoAttributes
               checkXMLNoSubelements self))
  = length (ET.keys element).
Proof.
  intros Htree HIDs Hj Hmain.
  pose proof (nonempty_bool tree j element Hj) as Hbool.
  rewrite (count_validate_log _ _ _ _ _ self tree) by done.
  rewrite (count_elements_log _ _ _ _ _
             (λ e, if bool_decide (is_main e) then length (ET.keys e) else 0) j)
    by (intros; apply count_attributes_element).
  rewrite bool_decide_eq_true_2 by lia.
  replace (j - 0) with j by lia. rewrite Hj. simpl.
  by rewrite bool_decide_eq_true_2.
Qed.

Lemma X21_witness :
  let record :=
    ET.mkElement "BibleVersionCodes" [("status", "draft"); ("lang", "en")]
                 None None (ET.children (with_ID "1" KJV)) in
  let self := loaded (document [sample_header; record]) in
  count_reports (reports_attribute 0)
    (logged (__validate no_reports no_reports no_reports no_reports self)) = 2.
Proof.
  intros record self.
  apply (X21_validation_warns_about_every_attribute
           no_reports no_reports no_reports no_reports self (document [record])
           0 record).
  - reflexivity.
  - unfold IDs_resolve, is_main. by apply (bool_decide_unpack _).
  - reflexivity.
  - reflexivity.
Defined.

(** ** More about [importDataToPython] *)

(** When a reachable instance returns data sets, they are those of its
    tree. *)
Lemma importDataToPython_returns
    (parse : string → Element) (strictCheckingFlag : bool)
    (checkXMLNoText checkXMLNoTail checkXMLNoAttributes checkXMLNoSubelements
     : Element → string → list string)
    (self : Converter) (datasets : DataSets) :
  reachable parse strictCheckingFlag checkXMLNoText checkXMLNoTail
            checkXMLNoAttributes checkXMLNoSubelements self →
  result (importDataToPython self) = inr datasets →
  ∃ tree, _XMLTree self = Some tree ∧ importable tree
          ∧ datasets = datasets_of (records tree).
Proof.
  intros Hreach Hresult.
  destruct (_XMLTree self) as [tree|] eqn:Htree.
  - exists tree. split; [done|].
    destruct (decide (importable tree)) as [Himportable|Hnot].
    + split; [done|].
      pose proof (proj1 (importDataToPython_reachable _ _ _ _ _ _ self tree
                           Hreach Htree Himportable)) as Hsame.
      congruence.
    + destruct (importDataToPython_reachable_raises _ _ _ _ _ _ self tree
                  Hreach Htree Hnot) as [e He].
      rewrite He in Hresult. discriminate.
  - unfold importDataToPython in Hresult. rewrite run_read, Htree in Hresult.
    discriminate.
Qed.

(** *** Counting keys *)

Lemma size_list_to_set_le (l : list PyStr) :
  size (list_to_set l : gset PyStr) ≤ length l
  ∧ (size (list_to_set l : gset PyStr) = length l ↔ NoDup l).
Proof.
  induction l as [|x l [IHle IHeq]]; simpl.
  - split; [done|]. split; [constructor|done].
  - destruct (decide (x ∈ l)) as [Hin|Hout].
    + assert ({[x]} ∪ list_to_set l = (list_to_set l : gset PyStr)) as ->
        by set_solver.
      split; [lia|]. split; [lia|].
      intros Hnodup. apply NoDup_cons in Hnodup as [Hout _]. done.
    + rewrite size_union by set_solver. rewrite size_singleton.
      split; [lia|]. rewrite NoDup_cons. split.
      * intros Hsize. split; [done|]. apply IHeq. lia.
      * intros [_ Hnodup]. apply IHeq in Hnodup. lia.
Qed.

(** *** Entries of the grouped views *)

Lemma entries_in_append_to key entry d :
  entries_in (append_to key entry d) = S (entries_in d).
Proof.
  unfold entries_in, append_to.
  destruct (d !! key) as [entries|] eqn:Hkey.
  - rewrite (lookup_total_correct _ _ _ Hkey).
    rewrite <- (insert_delete_id d key entries Hkey) at 2.
    rewrite <- insert_delete_eq.
    rewrite map_fold_insert_L; [|intros; lia|apply lookup_delete_eq].
    rewrite (map_fold_insert_L _ _ key entries);
      [|intros; lia|apply lookup_delete_eq].
    rewrite length_app. simpl. lia.
  - assert (d !!! key = []) as ->.
    { unfold lookup_total, map_lookup_total. by rewrite Hkey. }
    rewrite map_fold_insert_L; [done|intros; lia|done].
Qed.

Lemma entries_in_group_into qualifies key entry (fs : list Fields) :
  ∀ d, entries_in (foldl (group_into qualifies key entry) d fs)
       = entries_in d + length (filter (λ f, qualifies f = true) fs).
Proof.
  induction fs as [|f fs IH]; intros d; simpl; [lia|].
  rewrite IH. unfold group_into. rewrite filter_cons.
  destruct (qualifies f) eqn:Hq.
  - rewrite decide_True by done. rewrite entries_in_append_to. simpl. lia.
  - rewrite decide_False by done. done.
Qed.

Lemma filter_all {A} (l : list A) : filter (λ _, true = true) l = l.
Proof. induction l as [|x l IH]; [done|]. rewrite filter_cons_True by done. by f_equal. Qed.

(** *** An entry stands for its record *)

Lemma decode_abbrev_entry f :
  decoded "mainAbbreviation" (mainAbbreviation f) (abbrev_entry f) = blank_as_absent f.
Proof.
  destruct f as [a n l [[|c1 s1]|] [[|c2 s2]|] [[|c3 s3]|]]; reflexivity.
Qed.

Lemma decode_name_entry f :
  decoded "versionName" (versionName f) (name_entry f) = blank_as_absent f.
Proof.
  destruct f as [a n l [[|c1 s1]|] [[|c2 s2]|] [[|c3 s3]|]]; reflexivity.
Qed.

Lemma decode_language_entry f :
  decoded "languageCode" (languageCode f) (language_entry f) = blank_as_absent f.
Proof.
  destruct f as [a n l [[|c1 s1]|] [[|c2 s2]|] [[|c3 s3]|]]; reflexivity.
Qed.

Lemma decode_publisher_entry f :
  truthy (publisherName f) = true →
  decoded "publisherName" (publisherName f) (publisher_entry f) = blank_as_absent f.
Proof.
  destruct f as [a n l [[|c1 s1]|] [[|c2 s2]|] [[|c3 s3]|]]; (done || reflexivity).
Qed.

Lemma decode_licence_entry f :
  truthy (licence f) = true →
  decoded "licence" (licence f) (licence_entry f) = blank_as_absent f.
Proof.
  destruct f as [a n l [[|c1 s1]|] [[|c2 s2]|] [[|c3 s3]|]]; (done || reflexivity).
Qed.

Lemma decode_webLink_entry f :
  truthy (webLink f) = true →
  decoded "webLink" (webLink f) (webLink_entry f) = blank_as_absent f.
Proof.
  destruct f as [a n l [[|c1 s1]|] [[|c2 s2]|] [[|c3 s3]|]]; (done || reflexivity).
Qed.

(** A record that qualifies is given back by the view. *)
Lemma recovers_member (view : gmap PyStr (list Entry)) qualifies
    (key : Fields → PyStr) (entry : Fields → Entry) keyName
    (fs : list Fields) (f : Fields) :
  (∀ k, view !! k = bucket (entry <$> qualifying qualifies key k fs)) →
  f ∈ fs → qualifies f = true →
  decoded keyName (key f) (entry f) = blank_as_absent f →
  recovers view keyName (key f) f.
Proof.
  intros Hview Hf Hq Hdecode.
  assert (f ∈ qualifying qualifies key (key f) fs) as Hmember
    by by apply list_elem_of_filter.
  exists (entry <$> qualifying qualifies key (key f) fs), (entry f).
  split_and!.
  - rewrite Hview. destruct (qualifying _ _ _ _); [|done].
    by apply elem_of_nil in Hmember.
  - by apply list_elem_of_fmap_2.
  - done.
Qed.

(** X11: how a first import ends.  With no data sets in store,
    [importDataToPython] ends in a fixed order of failures: with
    [AssertionError] when there is no tree or the tree has no child, else
    with [AttributeError] when some child lacks a compulsory element, else
    with [TypeError] when two or more abbreviations are to be sorted and one
    of them is [None]; each time nothing is logged and the instance is
    unchanged.  In every other case it returns the data sets of the records
    and stores them. *)
Theorem X11_a_first_import_fails_in_a_fixed_order (self : Converter) :
  __DataSets self = None →
  match import_failure (_XMLTree self) with
  | Some e => importDataToPython self = (self, ([], inl e))
  | None =>
      ∃ tree, _XMLTree self = Some tree
              ∧ importDataToPython self
                = (set___DataSets (datasets_of (records tree)) self,
                   ([], inr (datasets_of (records tree))))
  end.
Proof.
  intros Hcache. unfold import_failure.
  destruct (_XMLTree self) as [tree|] eqn:Htree.
  - destruct (ET.bool tree) eqn:Hbool; cbn [negb].
    + case_bool_decide as Hall; cbn [negb].
      * case_bool_decide as Hsort; cbn [negb].
        -- exists tree. split; [done|].
           apply importDataToPython_fresh; [done|done|].
           split_and!; [done|done|]. by rewrite list_fmap_compose.
        -- unfold importDataToPython.
           rewrite run_read, Htree, run_assert, Hbool, run_read, Hcache.
           rewrite (run_bind_returns _ _ self self []
                      (tables_of (fields_of <$> ET.children tree) empty_tables))
             by (unfold lift; by rewrite import_elements_ok).
           rewrite prepend_nil.
           apply (run_bind_raises _ _ self self [] TypeError).
           unfold lift. rewrite sorted_raises; [done|].
           rewrite tables_of_myAbbrevList. simpl. exact Hsort.
      * unfold importDataToPython.
        rewrite run_read, Htree, run_assert, Hbool, run_read, Hcache.
        apply (run_bind_raises _ _ self self [] AttributeError).
        unfold lift. by rewrite import_elements_raises.
    + unfold importDataToPython.
      by rewrite run_read, Htree, run_assert, Hbool.
  - unfold importDataToPython. by rewrite run_read, Htree.
Qed.

Lemma X11_witness :
  importDataToPython (loaded (document [sample_header; KJV_without_language; WEB]))
  = (loaded (document [sample_header; KJV_without_language; WEB]),
     ([], inl AttributeError)).
Proof.
  apply (X11_a_first_import_fails_in_a_fixed_order
           (loaded (document [sample_header; KJV_without_language; WEB]))).
  reflexivity.
Defined.

(** X12: what [importDataToPython] leaves alone.  On every instance the
    method logs nothing and changes no attribute other than the data sets;
    when it returns, the data sets in store are the ones it returned, and
    when it raises they are as before. *)
Theorem X12_import_only_changes_the_data_sets (self : Converter) :
  let r := importDataToPython self in
  logged r = []
  ∧ _XMLTree (final r) = _XMLTree self
  ∧ __XMLFileOrFilepath (final r) = __XMLFileOrFilepath self
  ∧ XMLheader (final r) = XMLheader self
  ∧ titleString (final r) = titleString self
  ∧ PROGRAM_VERSION (final r) = PROGRAM_VERSION self
  ∧ dateString (final r) = dateString self
  ∧ __DataSets (final r) = match result r with
                           | inr datasets => Some datasets
                           | inl _ => __DataSets self
                           end.
Proof. apply importDataToPython_frame. Qed.

(** X13: the data sets in store are never stale.  On every instance that
    calls of [loadAndValidate] and [importDataToPython] lead to, data sets
    in store are the data sets of the records of the tree in store, and a
    further [importDataToPython] returns them. *)
Theorem X13_stored_data_sets_belong_to_the_stored_tree
    (parse : string → Element) (strictCheckingFlag : bool)
    (checkXMLNoText checkXMLNoTail checkXMLNoAttributes checkXMLNoSubelements
     : Element → string → list string)
    (self : Converter) (datasets : DataSets) :
  reachable parse strictCheckingFlag checkXMLNoText checkXMLNoTail
            checkXMLNoAttributes checkXMLNoSubelements self →
  __DataSets self = Some datasets →
  ∃ tree, _XMLTree self = Some tree
          ∧ importable tree
          ∧ datasets = datasets_of (records tree)
          ∧ importDataToPython self = (self, ([], inr datasets)).
Proof.
  intros Hreach Hcache.
  apply reachable_cache_consistent in Hreach. unfold cache_consistent in Hreach.
  rewrite Hcache in Hreach. destruct Hreach as (tree & Htree & Himportable & ->).
  exists tree. split_and!; [done..|].
  apply (importDataToPython_cached self tree); [done| |done].
  by destruct Himportable.
Qed.

Lemma X13_witness :
  ∃ tree,
    _XMLTree (final (importDataToPython (loaded (document [sample_header; WEB; KJV]))))
    = Some tree
    ∧ importable tree
    ∧ datasets_of (records (document [WEB; KJV])) = datasets_of (records tree)
    ∧ importDataToPython
        (final (importDataToPython (loaded (document [sample_header; WEB; KJV]))))
      = (final (importDataToPython (loaded (document [sample_header; WEB; KJV]))),
         ([], inr (datasets_of (records (document [WEB; KJV]))))).
Proof.
  apply (X13_stored_data_sets_belong_to_the_stored_tree
           (λ _, document [sample_header; WEB; KJV]) false
           no_reports no_reports no_reports no_reports).
  - apply reachable_importDataToPython, reachable_loadAndValidate, reachable_init.
  - rewrite (importDataToPython_fresh _ (document [WEB; KJV])); [done..|].
    split_and!; [done|by apply (bool_decide_unpack _)|].
    right. by apply (bool_decide_unpack _).
Defined.

(** X14: the keys of [AbbreviationsDict].  When the import returns, the
    keys of [AbbreviationsDict] are the members of [AbbreviationsList]; the
    dict is never larger than the list, and it is as large exactly when no
    abbreviation occurs twice in the list. *)
Theorem X14_abbreviation_keys_are_the_listed_abbreviations
    (parse : string → Element) (strictCheckingFlag : bool)
    (checkXMLNoText checkXMLNoTail checkXMLNoAttributes checkXMLNoSubelements
     : Element → string → list string)
    (self : Converter) (datasets : DataSets) :
  reachable parse strictCheckingFlag checkXMLNoText checkXMLNoTail
            checkXMLNoAttributes checkXMLNoSubelements self →
  result (importDataToPython self) = inr datasets →
  (∀ k, k ∈ AbbreviationsList datasets ↔ is_Some (AbbreviationsDict datasets !! k))
  ∧ size (AbbreviationsDict datasets) ≤ length (AbbreviationsList datasets)
  ∧ (size (AbbreviationsDict datasets) = length (AbbreviationsList datasets)
     ↔ NoDup (AbbreviationsList datasets)).
Proof.
  intros Hreach Hresult.
  destruct (importDataToPython_returns _ _ _ _ _ _ self datasets Hreach Hresult)
    as (tree & _ & _ & ->).
  rewrite datasets_of_AbbreviationsList, datasets_of_AbbreviationsDict.
  pose proof (merge_sort_Permutation pystr_le (mainAbbreviation <$> records tree))
    as Hperm.
  assert (dom (foldl (λ d f, <[mainAbbreviation f := abbrev_entry f]> d)
                 (∅ : gmap PyStr Entry) (records tree))
          = list_to_set (mainAbbreviation <$> records tree)) as Hdom.
  { rewrite abbrev_dict_dom, dom_empty_L. by rewrite (left_id_L ∅ (∪)). }
  assert (size (foldl (λ d f, <[mainAbbreviation f := abbrev_entry f]> d)
                  (∅ : gmap PyStr Entry) (records tree))
          = size (list_to_set (mainAbbreviation <$> records tree) : gset PyStr))
    as Hsize by by rewrite <- Hdom, size_dom.
  destruct (size_list_to_set_le (mainAbbreviation <$> records tree)) as [Hle Heq].
  split_and!.
  - intros k. rewrite <- elem_of_dom, Hdom, Hperm. set_solver.
  - rewrite Hsize, (Permutation_length Hperm). done.
  - rewrite Hsize, (Permutation_length Hperm), Hperm. done.
Qed.

Lemma X14_witness :
  let datasets := datasets_of (records (document [WEB; KJV])) in
  (∀ k, k ∈ AbbreviationsList datasets ↔ is_Some (AbbreviationsDict datasets !! k))
  ∧ size (AbbreviationsDict datasets) ≤ length (AbbreviationsList datasets)
  ∧ (size (AbbreviationsDict datasets) = length (AbbreviationsList datasets)
     ↔ NoDup (AbbreviationsList datasets)).
Proof.
  apply (X14_abbreviation_keys_are_the_listed_abbreviations
           (λ _, document [sample_header; WEB; KJV]) false
           no_reports no_reports no_reports no_reports
           (loaded (document [sample_header; WEB; KJV]))).
  - apply reachable_loadAndValidate, reachable_init.
  - rewrite (importDataToPython_fresh _ (document [WEB; KJV])); [done..|].
    split_and!; [done|by apply (bool_decide_unpack _)|].
    right. by apply (bool_decide_unpack _).
Defined.

(** X15: every grouped view gives every record back.  When the import
    returns, a record of the tree is found again in [NamesDict] under its
    name and in [LanguageDict] under its language code, and in
    [PublisherDict], [LicenceDict] and [WebLinkDict] under its publisher,
    licence and web link when that value is not blank: the view holds under
    that key an entry which, with the key put back under the name of its
    field, has the six values of the record, blank optional values read as
    missing. *)
Theorem X15_every_grouped_view_gives_the_record_back
    (parse : string → Element) (strictCheckingFlag : bool)
    (checkXMLNoText checkXMLNoTail checkXMLNoAttributes checkXMLNoSubelements
     : Element → string → list string)
    (self : Converter) (tree : Element) (datasets : DataSets) (f : Fields) :
  reachable parse strictCheckingFlag checkXMLNoText checkXMLNoTail
            checkXMLNoAttributes checkXMLNoSubelements self →
  _XMLTree self = Some tree →
  result (importDataToPython self) = inr datasets →
  f ∈ records tree →
  recovers (NamesDict datasets) "versionName" (versionName f) f
  ∧ recovers (LanguageDict datasets) "languageCode" (languageCode f) f
  ∧ (truthy (publisherName f) = true →
     recovers (PublisherDict datasets) "publisherName" (publisherName f) f)
  ∧ (truthy (licence f) = true →
     recovers (LicenceDict datasets) "licence" (licence f) f)
  ∧ (truthy (webLink f) = true →
     recovers (WebLinkDict datasets) "webLink" (webLink f) f).
Proof.
  intros Hreach Htree Hresult Hf.
  destruct (importDataToPython_returns _ _ _ _ _ _ self datasets Hreach Hresult)
    as (tree' & Htree' & _ & ->).
  assert (tree' = tree) as -> by congruence.
  split_and!.
  - apply (recovers_member _ (λ _, true) versionName name_entry _ (records tree));
      [apply datasets_of_NamesDict|done|done|apply decode_name_entry].
  - apply (recovers_member _ (λ _, true) languageCode language_entry _
             (records tree));
      [apply datasets_of_LanguageDict|done|done|apply decode_language_entry].
  - intros Hvalue.
    apply (recovers_member _ (truthy ∘ publisherName) publisherName
             publisher_entry _ (records tree));
      [apply datasets_of_PublisherDict|done|done|by apply decode_publisher_entry].
  - intros Hvalue.
    apply (recovers_member _ (truthy ∘ licence) licence licence_entry _
             (records tree));
      [apply datasets_of_LicenceDict|done|done|by apply decode_licence_entry].
  - intros Hvalue.
    apply (recovers_member _ (truthy ∘ webLink) webLink webLink_entry _
             (records tree));
      [apply datasets_of_WebLinkDict|done|done|by apply decode_webLink_entry].
Qed.

Lemma X15_witness :
  let datasets := datasets_of (records (document [WEB_blank_publisher; KJV])) in
  let f := fields_of WEB_blank_publisher in
  recovers (NamesDict datasets) "versionName" (versionName f) f
  ∧ recovers (LanguageDict datasets) "languageCode" (languageCode f) f
  ∧ (truthy (publisherName f) = true →
     recovers (PublisherDict datasets) "publisherName" (publisherName f) f)
  ∧ (truthy (licence f) = true →
     recovers (LicenceDict datasets) "licence" (licence f) f)
  ∧ (truthy (webLink f) = true →
     recovers (WebLinkDict datasets) "webLink" (webLink f) f).
Proof.
  apply (X15_every_grouped_view_gives_the_record_back
           (λ _, document [sample_header; WEB_blank_publisher; KJV]) false
           no_reports no_reports no_reports no_reports
           (loaded (document [sample_header; WEB_blank_publisher; KJV]))
           (document [WEB_blank_publisher; KJV])).
  - apply reachable_loadAndValidate, reachable_init.
  - reflexivity.
  - rewrite (importDataToPython_fresh _ (document [WEB_blank_publisher; KJV]));
      [done..|].
    split_and!; [done|by apply (bool_decide_unpack _)|].
    right. by apply (bool_decide_unpack _).
  - apply list_elem_of_here.
Defined.

(** X16: the grouped views hold one entry for each record that qualifies.
    When the import returns, [NamesDict] and [LanguageDict] hold, over all
    their keys, as many entries as the tree has children, and
    [PublisherDict], [LicenceDict] and [WebLinkDict] as many as there are
    records whose publisher, licence or web link is not blank. *)
Theorem X16_grouped_views_hold_one_entry_for_each_record
    (parse : string → Element) (strictCheckingFlag : bool)
    (checkXMLNoText checkXMLNoTail checkXMLNoAttributes checkXMLNoSubelements
     : Element → string → list string)
    (self : Converter) (tree : Element) (datasets : DataSets) :
  reachable parse strictCheckingFlag checkXMLNoText checkXMLNoTail
            checkXMLNoAttributes checkXMLNoSubelements self →
  _XMLTree self = Some tree →
  result (importDataToPython self) = inr datasets →
  entries_in (NamesDict datasets) = length (ET.children tree)
  ∧ entries_in (LanguageDict datasets) = length (ET.children tree)
  ∧ entries_in (PublisherDict datasets)
    = length (filter (λ f, truthy (publisherName f) = true) (records tree))
  ∧ entries_in (LicenceDict datasets)
    = length (filter (λ f, truthy (licence f) = true) (records tree))
  ∧ entries_in (WebLinkDict datasets)
    = length (filter (λ f, truthy (webLink f) = true) (records tree)).
Proof.
  intros Hreach Htree Hresult.
  destruct (importDataToPython_returns _ _ _ _ _ _ self datasets Hreach Hresult)
    as (tree' & Htree' & _ & ->).
  assert (tree' = tree) as -> by congruence.
  unfold datasets_of. cbn [NamesDict LanguageDict PublisherDict LicenceDict WebLinkDict].
  rewrite tables_of_myNameDict, tables_of_myLanguageDict, tables_of_myPublisherDict,
    tables_of_myLicenseDict, tables_of_myWebLinkDict.
  rewrite !entries_in_group_into. cbn [empty_tables myNameDict myLanguageDict
    myPublisherDict myLicenseDict myWebLinkDict].
  rewrite filter_all. unfold records. rewrite length_fmap.
  by split_and!.
Qed.

Lemma X16_witness :
  let datasets := datasets_of (records (document [WEB_blank_publisher; KJV])) in
  entries_in (NamesDict datasets) = 2
  ∧ entries_in (LanguageDict datasets) = 2
  ∧ entries_in (PublisherDict datasets)
    = length (filter (λ f, truthy (publisherName f) = true)
                (records (document [WEB_blank_publisher; KJV])))
  ∧ entries_in (LicenceDict datasets)
    = length (filter (λ f, truthy (licence f) = true)
                (records (document [WEB_blank_publisher; KJV])))
  ∧ entries_in (WebLinkDict datasets)
    = length (filter (λ f, truthy (webLink f) = true)
                (records (document [WEB_blank_publisher; KJV]))).
Proof.
  apply (X16_grouped_views_hold_one_entry_for_each_record
           (λ _, document [sample_header; WEB_blank_publisher; KJV]) false
           no_reports no_reports no_reports no_reports
           (loaded (document [sample_header; WEB_blank_publisher; KJV]))
           (document [WEB_blank_publisher; KJV])).
  - apply reachable_loadAndValidate, reachable_init.
  - reflexivity.
  - rewrite (importDataToPython_fresh _ (document [WEB_blank_publisher; KJV]));
      [done..|].
    split_and!; [done|by apply (bool_decide_unpack _)|].
    right. by apply (bool_decide_unpack _).
Defined.

(** ** The local helpers of [importDataToPython] *)

(** *** Runs of [addToAllCodesDict] *)

(** One call with the name bound: the dict after it. *)
Lemma addToAllCodesDict_bound (referenceAbbreviation givenUCAbbreviation : PyStr)
    (abbrevType : string) (d : gmap PyStr PyStr) :
  ∃ log,
    addToAllCodesDict (Some referenceAbbreviation) givenUCAbbreviation abbrevType d
    = (log,
       inr (<[givenUCAbbreviation :=
                match d !! givenUCAbbreviation with
                | Some existing =>
                    if bool_decide (existing ≠ referenceAbbreviation)
                    then Some "MultipleValues" else referenceAbbreviation
                | None => referenceAbbreviation
                end]> d)).
Proof.
  unfold addToAllCodesDict.
  destruct (d !! givenUCAbbreviation) as [existing|]; [|by eexists].
  case_bool_decide; by eexists.
Qed.

Lemma verdict_Permutation (l l' : list PyStr) :
  l ≡ₚ l' → verdict l = verdict l'.
Proof.
  induction 1 as [|x l l' Hperm _|x y l|l l' l'' _ IH1 _ IH2].
  - done.
  - simpl.
    by rewrite (bool_decide_ext (Forall (eq x) l) (Forall (eq x) l'))
      by by rewrite Hperm.
  - simpl. destruct (decide (x = y)) as [->|Hne]; [done|].
    rewrite !bool_decide_eq_false_2; [done|..];
      intros Hall; apply Forall_cons in Hall as [Heq _]; congruence.
  - congruence.
Qed.

Lemma add_all_lookup calls :
  ∀ d, ∃ log d',
    add_all calls d = (log, inr d')
    ∧ ∀ k, d' !! k = verdict (option_list (d !! k) ++ values_for k calls).
Proof.
  induction calls as [|[[ref key] abbrevType] calls IH]; intros d.
  - exists [], d. split; [done|]. intros k. unfold values_for. simpl.
    rewrite app_nil_r. by destruct (d !! k).
  - destruct (addToAllCodesDict_bound ref key abbrevType d) as [log1 Hcall].
    destruct (IH (<[key := match d !! key with
                           | Some existing =>
                               if bool_decide (existing ≠ ref)
                               then Some "MultipleValues" else ref
                           | None => ref
                           end]> d)) as (log2 & d' & Hrest & Hlookup).
    exists (log1 ++ log2), d'. split.
    + unfold add_all in *. cbn [for_each]. rewrite Hcall.
      cbv [mbind W_bind]. cbn [fst snd]. by rewrite Hrest.
    + intros k. rewrite Hlookup. unfold values_for. rewrite filter_cons.
      destruct (decide (key = k)) as [->|Hne].
      * rewrite lookup_insert_eq. rewrite decide_True by done.
        rewrite fmap_cons. fold (values_for k calls). cbn [fst snd].
        destruct (d !! k) as [existing|]; [|done].
        case_bool_decide as Hdiffer; simpl.
        -- rewrite (bool_decide_eq_false_2
                      (Forall (eq existing) (ref :: values_for k calls))).
           ++ by destruct (bool_decide _).
           ++ intros Hall. apply Forall_cons in Hall as [Heq _]. done.
        -- assert (existing = ref) as -> by (by destruct (decide (existing = ref))).
           by rewrite (bool_decide_ext (Forall (eq ref) (ref :: values_for k calls))
                         (Forall (eq ref) (values_for k calls)))
             by (rewrite Forall_cons; naive_solver).
      * rewrite lookup_insert_ne by done. by rewrite decide_False by done.
Qed.

(** X17: a run of insertions into the dict of all codes.  Whatever the
    calls of [addToAllCodesDict] are, with the name [referenceAbbreviation]
    bound at each of them, the run returns, and the dict then holds for
    each abbreviation what the values given for it say, the value the dict
    held before counting as the first of them: nothing when there is none,
    the value when they all agree, and ['MultipleValues'] as soon as two of
    them differ.  So the dict that results does not depend on the order of
    the calls. *)
Theorem X17_a_run_of_insertions_marks_every_conflict
    (calls : list (PyStr * PyStr * string)) (d : gmap PyStr PyStr) :
  ∃ log d',
    add_all calls d = (log, inr d')
    ∧ (∀ k, d' !! k = verdict (option_list (d !! k) ++ values_for k calls))
    ∧ ∀ calls', calls ≡ₚ calls' → ∃ log', add_all calls' d = (log', inr d').
Proof.
  destruct (add_all_lookup calls d) as (log & d' & Hrun & Hlookup).
  exists log, d'. split_and!; [done..|].
  intros calls' Hperm.
  destruct (add_all_lookup calls' d) as (log' & d'' & Hrun' & Hlookup').
  exists log'. rewrite Hrun'. do 2 f_equal. apply map_eq. intros k.
  rewrite Hlookup, Hlookup'. apply verdict_Permutation.
  apply Permutation_app_head. unfold values_for. by rewrite Hperm.
Qed.

(** *** [makeList] *)

Lemma accumulate_in_place (id : nat) (others : list Value) :
  ∀ (heap : Heap) (held : list Value),
    heap !! id = Some held →
    accumulate (ListObject id) others heap
    = (<[id := held ++ others]> heap, ListObject id).
Proof.
  unfold accumulate.
  induction others as [|x others IH]; intros heap held Hheld.
  - simpl. by rewrite app_nil_r, insert_id.
  - cbn [foldl makeList fst snd].
    rewrite (lookup_total_correct _ _ _ Hheld).
    rewrite (IH _ (held ++ [x])) by by rewrite lookup_insert_eq.
    by rewrite insert_insert_eq, <- app_assoc.
Qed.

(** X18: what [makeList] collects.  Starting from a value that is no list
    and going on with the list that [makeList] returned, the calls for one
    value after the other give a new list object that holds the first value
    and all the others in order, and no other list object is changed.
    Starting from a list object, the values are appended to that object
    itself, which is what is returned: the caller's list is changed in
    place. *)
Theorem X18_makeList_collects_the_values_in_order
    (first : PyStr) (x : Value) (others : list Value) (heap : Heap)
    (id : nat) (held : list Value) :
  heap !! id = Some held →
  (∃ id', heap !! id' = None
          ∧ accumulate (Plain first) (x :: others) heap
            = (<[id' := Plain first :: x :: others]> heap, ListObject id'))
  ∧ accumulate (ListObject id) (x :: others) heap
    = (<[id := held ++ x :: others]> heap, ListObject id).
Proof.
  intros Hheld. split.
  - exists (fresh (dom heap)).
    assert (heap !! fresh (dom heap) = None) as Hfresh
      by (apply not_elem_of_dom, is_fresh).
    split; [done|].
    unfold accumulate. cbn [foldl makeList fst snd].
    pose proof (accumulate_in_place (fresh (dom heap)) others
                  (<[fresh (dom heap) := [Plain first; x]]> heap)
                  [Plain first; x]) as Hrest.
    unfold accumulate in Hrest. rewrite Hrest by by rewrite lookup_insert_eq.
    by rewrite insert_insert_eq.
  - by apply accumulate_in_place.
Qed.

Lemma X18_witness :
  (∃ id', ({[0 := [Plain (Some "KJV")]]} : Heap) !! id' = None
          ∧ accumulate (Plain (Some "WEB")) [Plain (Some "ASV"); Plain None]
                       {[0 := [Plain (Some "KJV")]]}
            = (<[id' := [Plain (Some "WEB"); Plain (Some "ASV"); Plain None]]>
                 {[0 := [Plain (Some "KJV")]]},
               ListObject id'))
  ∧ accumulate (ListObject 0) [Plain (Some "ASV"); Plain None]
               {[0 := [Plain (Some "KJV")]]}
    = (<[0 := [Plain (Some "KJV"); Plain (Some "ASV"); Plain None]]>
         {[0 := [Plain (Some "KJV")]]},
       ListObject 0).
Proof.
  apply (X18_makeList_collects_the_values_in_order
           (Some "WEB") (Plain (Some "ASV")) [Plain None]
           {[0 := [Plain (Some "KJV")]]} 0 [Plain (Some "KJV")]).
  reflexivity.
Defined.

(** ** The exports *)

(** The start of an export, from what the import does. *)
Lemma export_start_run (filepath : PyStr) (self : Converter) :
  export_start filepath self
  = match result (importDataToPython self) with
    | inl e => (final (importDataToPython self), ([], inl e))
    | inr datasets =>
        (final (importDataToPython self),
         ([], if truthy filepath then inr (default "" filepath, datasets)
              else inl NameError))
    end.
Proof.
  pose proof (importDataToPython_frame self) as (Hlog & Htree' & _ & _ & _ & _ & _ & Hcache).
  unfold export_start. rewrite run_read, run_assert.
  destruct (_XMLTree self) as [tree|] eqn:Htree; cbn [from_option].
  - destruct (ET.bool tree) eqn:Hbool.
    + rewrite run_bind. unfold final, logged, result in *.
      destruct (importDataToPython self) as [self' [log [e|datasets]]];
        cbn [fst snd] in *; subst log; [done|].
      rewrite run_read, Hcache.
      destruct filepath as [[|c path]|]; reflexivity.
    + unfold importDataToPython. by rewrite run_read, Htree, run_assert, Hbool.
  - unfold importDataToPython. by rewrite run_read, Htree.
Qed.

(** X19: the exports without a file path.  Called with no path, or with an
    empty one, [pickle] and [exportDataToJSON] never reach the writing of
    the file: they raise the exception of the import when the import
    raises, and [NameError] otherwise, since the default folder is built
    with a name the module does not bind.  Nothing is logged, and the
    instance is left as the import leaves it, with the data sets in store
    when the import returned. *)
Theorem X19_exports_without_a_path_raise
    (pickle_dump json_dump : string → DataSets → M unit)
    (filepath : PyStr) (self : Converter) :
  truthy filepath = false →
  let r := importDataToPython self in
  let e := match result r with inl e => e | inr _ => NameError end in
  pickle pickle_dump filepath self = (final r, ([], inl e))
  ∧ exportDataToJSON json_dump filepath self = (final r, ([], inl e)).
Proof.
  intros Hpath r e. subst r e.
  assert (export_start filepath self
          = (final (importDataToPython self),
             ([], inl (match result (importDataToPython self) with
                       | inl e => e
                       | inr _ => NameError
                       end)))) as Hstart.
  { rewrite export_start_run, Hpath.
    by destruct (result (importDataToPython self)). }
  split; unfold pickle, exportDataToJSON;
    by rewrite (run_bind_raises _ _ _ _ _ _ Hstart).
Qed.

Lemma X19_witness :
  let self := loaded (document [sample_header; WEB; KJV]) in
  let r := importDataToPython self in
  pickle (λ _ _, mret ()) None self = (final r, ([], inl NameError))
  ∧ exportDataToJSON (λ _ _, mret ()) (Some "") self = (final r, ([], inl NameError)).
Proof.
  intros self r. split.
  - apply (proj1 (X19_exports_without_a_path_raise
                    (λ _ _, mret ()) (λ _ _, mret ()) None self eq_refl)).
  - apply (proj2 (X19_exports_without_a_path_raise
                    (λ _ _, mret ()) (λ _ _, mret ()) (Some "") self eq_refl)).
Defined.

(** X20: the exports with a file path.  Called with a path that is not
    empty, [pickle] and [exportDataToJSON] hand to the writer this path and
    the data sets that [importDataToPython] returns, on the instance as the
    import leaves it; when the import raises, they raise its exception and
    the writer is not reached. *)
Theorem X20_exports_write_what_the_import_returns
    (pickle_dump json_dump : string → DataSets → M unit)
    (path : string) (self : Converter) :
  truthy (Some path) = true →
  let r := importDataToPython self in
  match result r with
  | inr datasets =>
      pickle pickle_dump (Some path) self = pickle_dump path datasets (final r)
      ∧ exportDataToJSON json_dump (Some path) self
        = json_dump path datasets (final r)
  | inl e =>
      pickle pickle_dump (Some path) self = (final r, ([], inl e))
      ∧ exportDataToJSON json_dump (Some path) self = (final r, ([], inl e))
  end.
Proof.
  intros Hpath r. subst r.
  pose proof (export_start_run (Some path) self) as Hstart.
  rewrite Hpath in Hstart.
  destruct (result (importDataToPython self)) as [e|datasets].
  - split; unfold pickle, exportDataToJSON;
      by rewrite (run_bind_raises _ _ _ _ _ _ Hstart).
  - split; unfold pickle, exportDataToJSON;
      rewrite (run_bind_returns _ _ _ _ _ _ Hstart); apply prepend_nil.
Qed.

Lemma X20_witness :
  let self := loaded (document [sample_header; KJV_without_language; WEB]) in
  pickle (λ _ _, mret ()) (Some "Tables.pickle") self
  = (self, ([], inl AttributeError))
  ∧ exportDataToJSON (λ _ _, mret ()) (Some "Tables.pickle") self
    = (self, ([], inl AttributeError)).
Proof.
  intros self.
  apply (X20_exports_write_what_the_import_returns
           (λ _ _, mret ()) (λ _ _, mret ()) "Tables.pickle" self eq_refl).
Defined.
